(** * Alhuda SPARK: the team-registration workflow

    A shallow embedding of the two team-registration controllers of the
    repository:

    - [Cloud]: [src/server/controllers/teamRegistrationController.js], the
      controller the router mounts, which uploads identity photos to
      Cloudinary from inside the handler;
    - [Disk]: [src/unnamed/part_004], the file-based controller, whose
      identity photos are written to disk by the multer middleware before
      the handler runs.

    Two pieces of code around the handlers are embedded as well: the
    [filename] callback of the multer storage of [src/unnamed/part_004]
    ([Multer]) and the script of the registration page,
    [src/unnamed/part_000] ([Form]), whose player cards name the fields
    the handlers read.

    The handlers await their asynchronous calls one after the other (the
    one call that is not awaited is pointed out where it occurs), so they
    are modelled by explicit state passing over a [World] that holds the
    Team Repository, the Upload Store and a chronological log of the
    effects performed.  What lies outside the two controllers - the Team
    model, the upload service, the mail transport, the environment
    variables - is gathered in an [Env]. *)

From Stdlib Require Import ZArith List String Ascii Bool Arith Lia.
From Stdlib Require Import DecimalString Permutation.
From Stdlib Require DecimalNat DecimalFacts.
Import ListNotations.

Local Open Scope string_scope.
Local Open Scope Z_scope.

(** ** JavaScript string helpers *)

Module Js.

(** A string is falsy exactly when it is empty (an absent form field is
    modelled by the empty string as well). *)
Definition truthy (s : string) : bool := negb (s =? "")%string.

(** [s || d] on strings. *)
Definition orElse (s d : string) : string := if truthy s then s else d.

(** [s || null]. *)
Definition orNull (s : string) : option string :=
  if truthy s then Some s else None.

(** Template interpolation of a non-negative index. *)
Definition ofNat (n : nat) : string := NilEmpty.string_of_uint (Nat.to_uint n).

Definition isAlnum (c : ascii) : bool :=
  let n := nat_of_ascii c in
  ((48 <=? n) && (n <=? 57) || (65 <=? n) && (n <=? 90)
   || (97 <=? n) && (n <=? 122))%nat.

(** [s.replace(/[^a-zA-Z0-9]/g, '_')] *)
Fixpoint replaceNonAlnum (s : string) : string :=
  match s with
  | EmptyString => EmptyString
  | String c r => String (if isAlnum c then c else "_"%char) (replaceNonAlnum r)
  end.

Definition isSpace (c : ascii) : bool :=
  let n := nat_of_ascii c in
  ((9 <=? n) && (n <=? 13) || (n =? 32))%nat.

Fixpoint trimStart (s : string) : string :=
  match s with
  | EmptyString => EmptyString
  | String c r => if isSpace c then trimStart r else s
  end.

Fixpoint trimEnd (s : string) : string :=
  match s with
  | EmptyString => EmptyString
  | String c r =>
      let r' := trimEnd r in
      if isSpace c && (r' =? "")%string then EmptyString else String c r'
  end.

(** [s.trim()] (ASCII white space) *)
Definition trim (s : string) : string := trimEnd (trimStart s).

Definition lowerChar (c : ascii) : ascii :=
  let n := nat_of_ascii c in
  if ((65 <=? n) && (n <=? 90))%nat then ascii_of_nat (n + 32) else c.

(** [s.toLowerCase()] (ASCII letters) *)
Fixpoint toLowerCase (s : string) : string :=
  match s with
  | EmptyString => EmptyString
  | String c r => String (lowerChar c) (toLowerCase r)
  end.

(** Digits, least significant first, with a comma after each group of
    three that is followed by more digits. *)
Fixpoint group3 (k : nat) (digitsRev : list ascii) : list ascii :=
  match digitsRev with
  | [] => []
  | c :: r =>
      match r with
      | [] => [c]
      | _ :: _ =>
          if (k =? 2)%nat then c :: ","%char :: group3 0 r
          else c :: group3 (S k) r
      end
  end.

(** [n.toLocaleString()] of an integer amount in the en-US locale. *)
Definition toLocaleString (n : Z) : string :=
  let digits := list_ascii_of_string (ofNat (Z.abs_nat n)) in
  let body := string_of_list_ascii (rev (group3 0 (rev digits))) in
  if n <? 0 then "-" ++ body else body.

Definition quote : string := String (ascii_of_nat 34) EmptyString.
Definition nl : string := String (ascii_of_nat 10) EmptyString.

End Js.

(** ** Data model *)

(** A calendar date; months are numbered from 1. *)
Record Date := mkDate { year : Z; month : Z; day : Z }.

(** One field group [players[i]] of the multipart form.  The date field is
    [None] when absent or empty and [Some d] when it holds a well-formed
    date, which [new Date(dateOfBirth)] turns into [d].  A string that
    [new Date] cannot parse is outside the model: what becomes of an
    invalid date is decided in the Team model, which is not among the
    sources. *)
Record RawPlayer := mkRawPlayer {
  raw_playerName : string;
  raw_dateOfBirth : option Date
}.

(** A multer file object: [buffer] under memory storage (Cloudinary
    controller), [path] under disk storage (file-based controller). *)
Record File := mkFile {
  fieldname : string;
  originalname : string;
  buffer : string;
  path : string
}.

Record EmergencyContact := mkEmergencyContact {
  ec_name : string;
  ec_phone : string;
  ec_relationship : string
}.

(** [req.body].  [body_players] is [None] when the form carried no
    [players[...]] field; a hole of the parsed array is a [None] entry. *)
Record Body := mkBody {
  body_teamName : string;
  body_organization : string;
  body_city : string;
  body_tier : string;
  body_gender : string;
  body_coachName : string;
  body_coachEmail : string;
  body_coachPhone : string;
  body_emergencyContact : option EmergencyContact;
  body_paymentMethod : string;
  body_specialRequirements : string;
  body_comments : string;
  body_players : option (list (option RawPlayer))
}.

Record Request := mkRequest {
  req_body : Body;
  req_files : list File
}.

Record Player := mkPlayer {
  playerName : string;
  dateOfBirth : Date;
  idPhotoUrl : option string;
  idPhotoPublicId : option string;
  idPhotoOriginalName : option string;
  ageAtRegistration : Z
}.

Record Team := mkTeam {
  teamId : string;
  teamName : string;
  organization : string;
  city : string;
  tier : string;
  gender : string;
  coachName : string;
  coachEmail : string;
  coachPhone : string;
  players : list Player;
  emergencyContact : EmergencyContact;
  registrationFee : Z;
  paymentMethod : string;
  paymentStatus : string;
  specialRequirements : string;
  comments : string;
  registrationStatus : string
}.

(** What [uploadImageToCloudinary] resolves to. *)
Record CloudinaryResult := mkCloudinaryResult {
  public_id : string;
  secure_url : string
}.

(** One row of the Tier Policy table. *)
Record TierPolicy := mkTierPolicy {
  minAge : Z;
  maxAge : Z;
  tierFee : Z
}.

(** The two transactional mails of a registration. *)
Inductive Mail :=
| CoachConfirmation (to : string) (team : string)
| AdminNotification (team : string).

(** [process.env] as read by the payment instructions. *)
Record Config := mkConfig {
  MAILING_ADDRESS : string;
  ZELLE_EMAIL : string;
  VENMO_USERNAME : string
}.

(** The collaborators of one request: the parts of the Team model and of
    the hosting services whose code is outside the controllers, and the
    outcome of each fallible external call.

    - [generateTeamId]: what [Team.generateTeamId()] returns;
    - [tierPolicy]: the Tier Policy table (age range and fee per tier);
    - [agesPassWithoutPolicy tier ages]: what
      [team.validatePlayerAgesForTier()] answers for a team whose tier has
      no entry in the table, given the tier and the ages of its players;
    - [now]: the date of the submission;
    - [uploadImageToCloudinary buffer folder]: the result of the upload,
      [None] when it rejects;
    - [deleteOk ref]: whether the store carries out a delete of [ref]
      ([deleteImageFromCloudinary], [fs.unlink]) or rejects it;
    - [findOneOk], [saveOk team]: whether [Team.findOne] and [team.save()]
      resolve or reject;
    - [sendMail mail]: whether the transporter delivers or rejects;
    - [teamIdPath teamId oldPath]: the path a photo is moved to,
      [path.join(cwd, 'uploads', 'team-ids', teamId, path.basename(oldPath))];
    - [config]: the environment variables. *)
Record Env := mkEnv {
  generateTeamId : string;
  tierPolicy : string -> option TierPolicy;
  now : Date;
  uploadImageToCloudinary : string -> string -> option CloudinaryResult;
  deleteOk : string -> bool;
  findOneOk : bool;
  saveOk : Team -> bool;
  sendMail : Mail -> bool;
  teamIdPath : string -> string -> string;
  config : Config;
  agesPassWithoutPolicy : string -> list Z -> bool
}.

(** Effects, in the order they happen. *)
Inductive Event :=
| Uploaded (ref : string)
| Deleted (ref : string)
| DeleteFailed (ref : string)
| Renamed (oldRef newRef : string)
| Queried
| Saved (id : string)
| MailSent (m : Mail)
| MailFailed (m : Mail).

Record World := mkWorld {
  teams : list Team;
  uploads : list string;
  log : list Event
}.

Definition emit (e : Event) (w : World) : World :=
  mkWorld (teams w) (uploads w) (log w ++ [e]).

(** ** The Upload Store *)

(** Modelled from the spec: the Upload Store of section 6,
    [store(bytes, namespaceHint) -> {reference, url}] and
    [delete(reference) -> void]; [cloudinaryController.js] and the file
    system are outside the controllers.  The store holds one entry per
    stored artifact, named by its reference.  A delete the store carries
    out removes one artifact of that name, if there is one; a delete it
    rejects changes nothing, and the controllers log the rejection and go
    on. *)
Fixpoint removeOne (ref : string) (l : list string) : list string :=
  match l with
  | [] => []
  | x :: t => if (x =? ref)%string then t else x :: removeOne ref t
  end.

Definition removeAll (refs l : list string) : list string :=
  fold_left (fun l' ref => removeOne ref l') refs l.

Definition storeUpload (ref : string) (w : World) : World :=
  emit (Uploaded ref) (mkWorld (teams w) (ref :: uploads w) (log w)).

(** The trace a delete leaves in the log. *)
Definition deleteEvent (env : Env) (ref : string) : Event :=
  if deleteOk env ref then Deleted ref else DeleteFailed ref.

Definition deleteUpload (env : Env) (ref : string) (w : World) : World :=
  emit (deleteEvent env ref)
       (if deleteOk env ref
        then mkWorld (teams w) (removeOne ref (uploads w)) (log w)
        else w).

Definition renameUpload (oldRef newRef : string) (w : World) : World :=
  emit (Renamed oldRef newRef)
       (mkWorld (teams w) (newRef :: removeOne oldRef (uploads w)) (log w)).

Definition deleteAll (env : Env) (refs : list string) (w : World) : World :=
  fold_left (fun w' ref => deleteUpload env ref w') refs w.

(** ** The Team model *)

Module TeamModel.

(** Modelled from the spec: the Age Calculator of section 4.1
    ([models/Team.js] is outside the controllers): whole elapsed years
    between two calendar dates, one less when [asOf]'s month/day
    precedes the month/day of birth. *)
Definition age (dateOfBirth asOf : Date) : Z :=
  let years := year asOf - year dateOfBirth in
  if (month asOf <? month dateOfBirth)
     || (month asOf =? month dateOfBirth) && (day asOf <? day dateOfBirth)
  then years - 1
  else years.

(** Modelled from the spec: [team.calculatePlayerAges()], which fixes
    every player's [ageAtRegistration] against the submission time
    (section 4.4, step 5). *)
Definition calculatePlayerAges (env : Env) (t : Team) : Team :=
  let aged (p : Player) :=
    mkPlayer (playerName p) (dateOfBirth p) (idPhotoUrl p) (idPhotoPublicId p)
             (idPhotoOriginalName p) (age (dateOfBirth p) (now env)) in
  mkTeam (teamId t) (teamName t) (organization t) (city t) (tier t) (gender t)
         (coachName t) (coachEmail t) (coachPhone t) (map aged (players t))
         (emergencyContact t) (registrationFee t) (paymentMethod t)
         (paymentStatus t) (specialRequirements t) (comments t)
         (registrationStatus t).

Definition inRange (p : TierPolicy) (a : Z) : bool :=
  (minAge p <=? a) && (a <=? maxAge p).

(** Modelled from the spec: [team.validatePlayerAgesForTier()], every
    player's age within the tier's [minAge, maxAge] (section 4.4, step
    5).  The spec has the caller refuse an unknown tier before this check
    (section 4.2) and does not say what the check answers for one; the
    controllers call it all the same, and what it answers then is not
    modelled but taken from the collaborators. *)
Definition validatePlayerAgesForTier (env : Env) (t : Team) : bool :=
  match tierPolicy env (tier t) with
  | Some p => forallb (fun pl => inRange p (ageAtRegistration pl)) (players t)
  | None => agesPassWithoutPolicy env (tier t) (map ageAtRegistration (players t))
  end.

(** [Team.getRegistrationFees()[tier]]: the fee column of the policy
    table. *)
Definition getRegistrationFees (env : Env) (tr : string) : option Z :=
  option_map tierFee (tierPolicy env tr).

(** The filter of the duplicate query:
    [{ coachEmail, teamName, registrationStatus: { $in: [...] } }]. *)
Definition matchesDuplicate (email name : string) (t : Team) : bool :=
  (coachEmail t =? email)%string && (teamName t =? name)%string
  && existsb (String.eqb (registrationStatus t))
             ["pending"; "approved"; "waitlisted"]%string.

Definition findOne (email name : string) (w : World) : option Team :=
  find (matchesDuplicate email name) (teams w).

(** [team.save()] of a new document. *)
Definition save (t : Team) (w : World) : World :=
  emit (Saved (teamId t)) (mkWorld (teams w ++ [t]) (uploads w) (log w)).

(** [team.save()] of the document saved last, after its fields changed. *)
Definition resave (t : Team) (w : World) : World :=
  emit (Saved (teamId t)) (mkWorld (removelast (teams w) ++ [t]) (uploads w) (log w)).

End TeamModel.

(** ** Results *)

(** The failure returns of the roster builders; the index is the
    [playerIndex] of the loop (messages print [playerIndex + 1]). *)
Inductive PlayersError :=
| NameDobRequired (playerIndex : nat)
| IdPhotoRequired (playerIndex : nat)
| UploadFailed (playerIndex : nat)
| MinPlayers
| MaxPlayers
| ProcessingError.

Inductive PlayersData :=
| PlayersOk (players : list Player) (uploadedImages : list string)
| PlayersFail (error : PlayersError).

(** How the roster loop ends: by a [return] from inside its body, or by
    its condition turning false, with the roster and the uploads
    recorded so far. *)
Inductive LoopEnd :=
| EarlyReturn (w : World) (error : PlayersError)
| LoopDone (w : World) (players : list Player) (uploadedImages : list string).

Record Instructions := mkInstructions {
  title : string;
  text : string;
  details : string
}.

(** The JSON responses of [registerTeam]. *)
Inductive Response :=
| MissingRequiredFields
| EmergencyContactRequired
| PlayerDataError (error : PlayersError)
| TeamAlreadyExists
| AgeRangeViolation (tier : string)
| ServerError
| Success (teamId : string) (instructions : option Instructions).

Definition statusCode (r : Response) : Z :=
  match r with
  | Success _ _ => 200
  | ServerError => 500
  | _ => 400
  end.

(** The error taxonomy of section 7 of the specification. *)
Inductive ErrorKind :=
| MissingRequiredField
| MissingPlayerField (index : nat)
| MissingIdentityPhoto (index : nat)
| RosterSizeViolation
| InvalidTier
| AgeEligibilityViolation
| DuplicateRegistration
| UploadFailure
| PersistenceError.

(** The kind of the taxonomy each failure response stands for; the
    catch-all of the roster builder has none. *)
Definition errorKind (r : Response) : option ErrorKind :=
  match r with
  | MissingRequiredFields | EmergencyContactRequired => Some MissingRequiredField
  | PlayerDataError (NameDobRequired i) => Some (MissingPlayerField i)
  | PlayerDataError (IdPhotoRequired i) => Some (MissingIdentityPhoto i)
  | PlayerDataError (UploadFailed _) => Some UploadFailure
  | PlayerDataError MinPlayers | PlayerDataError MaxPlayers => Some RosterSizeViolation
  | PlayerDataError ProcessingError => None
  | TeamAlreadyExists => Some DuplicateRegistration
  | AgeRangeViolation _ => Some AgeEligibilityViolation
  | ServerError => Some PersistenceError
  | Success _ _ => None
  end.

(** ** Code shared by the two controllers *)

(** [getPaymentInstructions(team)], the same text in both controllers.
    The template literals are reproduced with their line breaks and
    indentation.  The lookup [instructions[team.paymentMethod] || null] is
    taken on the three keys of the object literal. *)
Section PaymentInstructions.

Import Js.

Definition pad16 : string := "                ".
Definition pad12 : string := "            ".

(** One line of a template literal. *)
Definition line (s : string) : string := (nl ++ pad16 ++ s)%string.
Definition closing : string := (nl ++ pad12)%string.

Definition checkInstructions (cfg : Config) (team : Team) : Instructions :=
  mkInstructions
    "Payment by Check"
    ("Please make your check payable to " ++ quote ++ "Alhuda SPARK" ++ quote
       ++ " and mail it to:")
    (line "<strong>Alhuda SPARK</strong><br>"
     ++ line (orElse (MAILING_ADDRESS cfg) "123 Main Street<br>Indianapolis, IN 46201"
                ++ "<br><br>")
     ++ line ("<strong>Amount:</strong> $" ++ toLocaleString (registrationFee team) ++ "<br>")
     ++ line ("<strong>Memo:</strong> Team Registration - " ++ teamName team ++ "<br>")
     ++ line ("<strong>Reference:</strong> " ++ teamId team)
     ++ closing).

Definition zelleInstructions (cfg : Config) (team : Team) : Instructions :=
  mkInstructions
    "Payment by Zelle"
    "Please send your Zelle payment using the following information:"
    (line ("<strong>Recipient Email:</strong> "
             ++ orElse (ZELLE_EMAIL cfg) "finance@alhudaspark.org" ++ "<br>")
     ++ line "<strong>Recipient Name:</strong> Alhuda SPARK<br>"
     ++ line ("<strong>Amount:</strong> $" ++ toLocaleString (registrationFee team) ++ "<br>")
     ++ line ("<strong>Memo:</strong> " ++ teamId team)
     ++ closing).

Definition venmoInstructions (cfg : Config) (team : Team) : Instructions :=
  mkInstructions
    "Payment by Venmo"
    "Please send your Venmo payment to:"
    (line ("<strong>Venmo Username:</strong> "
             ++ orElse (VENMO_USERNAME cfg) "@AlhudaSPARK" ++ "<br>")
     ++ line ("<strong>Amount:</strong> $" ++ toLocaleString (registrationFee team) ++ "<br>")
     ++ line ("<strong>Note:</strong> " ++ teamId team ++ " - " ++ teamName team)
     ++ closing).

Definition getPaymentInstructions (cfg : Config) (team : Team) : option Instructions :=
  let method := paymentMethod team in
  if (method =? "check")%string then Some (checkInstructions cfg team)
  else if (method =? "zelle")%string then Some (zelleInstructions cfg team)
  else if (method =? "venmo")%string then Some (venmoInstructions cfg team)
  else None.

End PaymentInstructions.

(** [sendTeamConfirmationEmail] and [sendAdminNotificationEmail]: the mail
    is built and handed to the transporter inside a [try]; a rejected send
    is logged by the [catch] and not rethrown.  The HTML body of the mails
    is left out of [Mail]. *)
Definition dispatch (env : Env) (m : Mail) (w : World) : World :=
  if sendMail env m then emit (MailSent m) w else emit (MailFailed m) w.

Definition sendTeamConfirmationEmail (env : Env) (team : Team) (w : World) : World :=
  dispatch env (CoachConfirmation (coachEmail team) (teamName team)) w.

Definition sendAdminNotificationEmail (env : Env) (team : Team) (w : World) : World :=
  dispatch env (AdminNotification (teamName team)) w.

(** The two presence checks that open [registerTeam]. *)
Definition missingRequired (b : Body) : bool :=
  negb (Js.truthy (body_teamName b)) || negb (Js.truthy (body_organization b))
  || negb (Js.truthy (body_city b)) || negb (Js.truthy (body_tier b))
  || negb (Js.truthy (body_gender b)) || negb (Js.truthy (body_coachName b))
  || negb (Js.truthy (body_coachEmail b)) || negb (Js.truthy (body_coachPhone b))
  || negb (Js.truthy (body_paymentMethod b)).

Definition validEmergencyContact (b : Body) : option EmergencyContact :=
  match body_emergencyContact b with
  | Some ec =>
      if negb (Js.truthy (ec_name ec)) || negb (Js.truthy (ec_phone ec))
         || negb (Js.truthy (ec_relationship ec))
      then None else Some ec
  | None => None
  end.

(** [fees[tier] || 350] *)
Definition registrationFeeFor (env : Env) (tr : string) : Z :=
  match TeamModel.getRegistrationFees env tr with
  | Some fee => if fee =? 0 then 350 else fee
  | None => 350
  end.

(** [new Team({...})] as both controllers build it.  [registrationStatus]
    is not among the fields they pass: it takes the default of the schema,
    which is outside the controllers and is modelled from the spec: a Team
    is created pending (sections 3 and 4.4). *)
Definition newTeam (env : Env) (b : Body) (ec : EmergencyContact) (id : string)
    (ps : list Player) : Team :=
  mkTeam id (body_teamName b) (body_organization b) (body_city b) (body_tier b)
         (body_gender b) (body_coachName b) (Js.toLowerCase (body_coachEmail b))
         (body_coachPhone b) ps
         (mkEmergencyContact (ec_name ec) (ec_phone ec) (ec_relationship ec))
         (registrationFeeFor env (body_tier b)) (body_paymentMethod b) "pending"
         (body_specialRequirements b) (body_comments b) "pending".

(** [`players[${playerIndex}][idPhoto]`] *)
Definition idPhotoField (playerIndex : nat) : string :=
  "players[" ++ Js.ofNat playerIndex ++ "][idPhoto]".

Definition findPlayerFile (files : list File) (playerIndex : nat) : option File :=
  find (fun file => (fieldname file =? idPhotoField playerIndex)%string) files.

(** ** The Cloudinary controller
    [src/server/controllers/teamRegistrationController.js] *)

Module Cloud.

(** [cleanupCloudinaryImages(publicIds)]: one delete per public id; a
    rejected delete is logged by its own [catch] and the others go on. *)
Definition cleanupCloudinaryImages (env : Env) (publicIds : list string) (w : World)
    : World :=
  match publicIds with
  | [] => w
  | _ :: _ => deleteAll env publicIds w
  end.

Definition playersErrorMessage (e : PlayersError) : string :=
  match e with
  | NameDobRequired i =>
      "Player " ++ Js.ofNat (i + 1) ++ ": Name and date of birth are required"
  | IdPhotoRequired i => "Player " ++ Js.ofNat (i + 1) ++ ": ID photo is required"
  | UploadFailed i => "Failed to upload ID photo for player " ++ Js.ofNat (i + 1)
  | MinPlayers => "Minimum 5 player required"
  | MaxPlayers => "Maximum 10 players allowed"
  | ProcessingError => "Error processing player data"
  end.

(** The folder of a player's photo:
    [`alhuda_spark/${teamFolderName}/${playerName.replace(...)}_${playerIndex + 1}`] *)
Definition playerFolder (teamFolderName name : string) (playerIndex : nat) : string :=
  "alhuda_spark/" ++ teamFolderName ++ "/" ++ Js.replaceNonAlnum name ++ "_"
    ++ Js.ofNat (playerIndex + 1).

(** The player-count validation that follows the loop. *)
Definition validateCount (env : Env) (players : list Player)
    (uploadedImages : list string) (w : World) : World * PlayersData :=
  if (List.length players <? 5)%nat then
    (cleanupCloudinaryImages env uploadedImages w, PlayersFail MinPlayers)
  else if (10 <? List.length players)%nat then
    (cleanupCloudinaryImages env uploadedImages w, PlayersFail MaxPlayers)
  else (w, PlayersOk players uploadedImages).

(** The [while (body.players[playerIndex])] loop.  [rest] is
    [body.players] from [playerIndex] on: the loop ends at the end of the
    array or at its first hole. *)
Fixpoint playersLoop (env : Env) (files : list File) (requireIds : bool)
    (teamFolderName : string) (rest : list (option RawPlayer)) (playerIndex : nat)
    (players : list Player) (uploadedImages : list string) (w : World)
    : LoopEnd :=
  match rest with
  | Some raw :: rest' =>
      match Js.truthy (raw_playerName raw), raw_dateOfBirth raw with
      | true, Some dob =>
          let playerFile := findPlayerFile files playerIndex in
          match playerFile with
          | None =>
              if requireIds then
                EarlyReturn (cleanupCloudinaryImages env uploadedImages w)
                            (IdPhotoRequired playerIndex)
              else
                playersLoop env files requireIds teamFolderName rest' (S playerIndex)
                  (players ++ [mkPlayer (Js.trim (raw_playerName raw)) dob
                                 None None None 0])
                  uploadedImages w
          | Some file =>
              match uploadImageToCloudinary env (buffer file)
                      (playerFolder teamFolderName (raw_playerName raw) playerIndex) with
              | Some cloudinaryResult =>
                  playersLoop env files requireIds teamFolderName rest' (S playerIndex)
                    (players ++ [mkPlayer (Js.trim (raw_playerName raw)) dob
                                   (Js.orNull (secure_url cloudinaryResult))
                                   (Js.orNull (public_id cloudinaryResult))
                                   (Js.orNull (originalname file)) 0])
                    (uploadedImages ++ [public_id cloudinaryResult])
                    (storeUpload (public_id cloudinaryResult) w)
              | None =>
                  EarlyReturn (cleanupCloudinaryImages env uploadedImages w)
                              (UploadFailed playerIndex)
              end
          end
      | _, _ =>
          EarlyReturn (cleanupCloudinaryImages env uploadedImages w)
                      (NameDobRequired playerIndex)
      end
  | _ => LoopDone w players uploadedImages
  end.

(** The [try] block of [processPlayersDataWithCloudinary] up to the end
    of its loop.  Reading [body.players[0]] of a body without [players]
    throws; the outer [catch] turns that into the catch-all failure. *)
Definition rosterLoop (env : Env) (body : Body) (files : list File)
    (teamId : string) (w : World) : LoopEnd :=
  let requireIds := (body_tier body =? "high_school")%string in
  let teamFolderName := Js.replaceNonAlnum (body_teamName body) ++ "_" ++ teamId in
  match body_players body with
  | Some all => playersLoop env files requireIds teamFolderName all 0 [] [] w
  | None => EarlyReturn (cleanupCloudinaryImages env [] w) ProcessingError
  end.

(** [processPlayersDataWithCloudinary(body, files, teamId)] *)
Definition processPlayersDataWithCloudinary (env : Env) (body : Body)
    (files : list File) (teamId : string) (w : World) : World * PlayersData :=
  match rosterLoop env body files teamId w with
  | EarlyReturn w' error => (w', PlayersFail error)
  | LoopDone w' players uploadedImages => validateCount env players uploadedImages w'
  end.

(** [registerTeam(req, res)].  A rejected [findOne] or [save] lands in
    the [catch], which cleans up [uploadedImages] and answers 500. *)
Definition registerTeam (env : Env) (w : World) (req : Request) : World * Response :=
  let body := req_body req in
  if missingRequired body then (w, MissingRequiredFields)
  else
    match validEmergencyContact body with
    | None => (w, EmergencyContactRequired)
    | Some ec =>
        let newId := generateTeamId env in
        let (w1, playersData) :=
          processPlayersDataWithCloudinary env body (req_files req) newId w in
        match playersData with
        | PlayersFail error => (w1, PlayerDataError error)
        | PlayersOk players uploadedImages =>
            if negb (findOneOk env) then
              (cleanupCloudinaryImages env uploadedImages w1, ServerError)
            else
              let w2 := emit Queried w1 in
              match TeamModel.findOne (Js.toLowerCase (body_coachEmail body))
                      (body_teamName body) w2 with
              | Some _ => (cleanupCloudinaryImages env uploadedImages w2, TeamAlreadyExists)
              | None =>
                  let team :=
                    TeamModel.calculatePlayerAges env
                      (newTeam env body ec newId players) in
                  if negb (TeamModel.validatePlayerAgesForTier env team) then
                    (cleanupCloudinaryImages env uploadedImages w2,
                     AgeRangeViolation (body_tier body))
                  else if negb (saveOk env team) then
                    (cleanupCloudinaryImages env uploadedImages w2, ServerError)
                  else
                    let w3 := TeamModel.save team w2 in
                    let w4 := sendTeamConfirmationEmail env team w3 in
                    let w5 := sendAdminNotificationEmail env team w4 in
                    (w5, Success (teamId team)
                           (getPaymentInstructions (config env) team))
              end
        end
    end.

End Cloud.

(** ** The file-based controller [src/unnamed/part_004]

    The route runs [upload.any()] first: when the handler starts, every
    file of [req.files] is already in the Upload Store under its [path]. *)

Module Disk.

Definition photoPaths (players : list Player) : list string :=
  flat_map (fun player => match idPhotoUrl player with
                          | Some p => [p]
                          | None => []
                          end) players.

(** [cleanupUploadedFiles(players)]: one [fs.unlink] per player, all
    started before any is awaited; a rejection is logged. *)
Definition cleanupUploadedFiles (env : Env) (players : list Player) (w : World) : World :=
  deleteAll env (photoPaths players) w.

Definition playersErrorMessage (e : PlayersError) : string :=
  match e with
  | NameDobRequired i =>
      "Player " ++ Js.ofNat (i + 1) ++ ": Name and date of birth are required"
  | IdPhotoRequired i => "Player " ++ Js.ofNat (i + 1) ++ ": ID photo is required"
  | UploadFailed i => "Failed to upload ID photo for player " ++ Js.ofNat (i + 1)
  | MinPlayers => "Minimum 5 players required"
  | MaxPlayers => "Maximum 10 players allowed"
  | ProcessingError => "Error processing player data"
  end.

(** The player-count validation that follows the loop.  The source does
    not await [cleanupUploadedFiles] here; the unlinks it starts are
    taken as done. *)
Definition validateCount (env : Env) (players : list Player) (w : World)
    : World * PlayersData :=
  if (List.length players <? 5)%nat then
    (cleanupUploadedFiles env players w, PlayersFail MinPlayers)
  else if (10 <? List.length players)%nat then
    (cleanupUploadedFiles env players w, PlayersFail MaxPlayers)
  else (w, PlayersOk players []).

(** The [while (body.players[playerIndex])] loop; [rest] is
    [body.players] from [playerIndex] on. *)
Fixpoint playersLoop (files : list File) (rest : list (option RawPlayer))
    (playerIndex : nat) (players : list Player) (w : World) : LoopEnd :=
  match rest with
  | Some raw :: rest' =>
      match Js.truthy (raw_playerName raw), raw_dateOfBirth raw with
      | true, Some dob =>
          match findPlayerFile files playerIndex with
          | None => EarlyReturn w (IdPhotoRequired playerIndex)
          | Some playerFile =>
              playersLoop files rest' (S playerIndex)
                (players ++ [mkPlayer (Js.trim (raw_playerName raw)) dob
                               (Some (path playerFile)) None
                               (Some (originalname playerFile)) 0])
                w
          end
      | _, _ => EarlyReturn w (NameDobRequired playerIndex)
      end
  | _ => LoopDone w players []
  end.

(** The [try] block of [processPlayersData] up to the end of its loop;
    a body without [players] makes the loop condition throw. *)
Definition rosterLoop (body : Body) (files : list File) (w : World) : LoopEnd :=
  match body_players body with
  | Some all => playersLoop files all 0 [] w
  | None => EarlyReturn w ProcessingError
  end.

(** [processPlayersData(body, files)] *)
Definition processPlayersData (env : Env) (body : Body) (files : list File) (w : World)
    : World * PlayersData :=
  match rosterLoop body files w with
  | EarlyReturn w' error => (w', PlayersFail error)
  | LoopDone w' players _ => validateCount env players w'
  end.

Definition withPhotoUrl (player : Player) (url : string) : Player :=
  mkPlayer (playerName player) (dateOfBirth player) (Some url)
           (idPhotoPublicId player) (idPhotoOriginalName player)
           (ageAtRegistration player).

Definition withPlayers (t : Team) (ps : list Player) : Team :=
  mkTeam (teamId t) (teamName t) (organization t) (city t) (tier t) (gender t)
         (coachName t) (coachEmail t) (coachPhone t) ps (emergencyContact t)
         (registrationFee t) (paymentMethod t) (paymentStatus t)
         (specialRequirements t) (comments t) (registrationStatus t).

(** The [for] loop of [updateFilePathsWithTeamId]: [fs.rename] rejects
    when the old path is not there, which ends the loop.  Returns the
    players as they stand in memory and whether the loop completed. *)
Fixpoint renameLoop (env : Env) (id : string) (rest moved : list Player) (w : World)
    : World * list Player * bool :=
  match rest with
  | [] => (w, moved, true)
  | player :: rest' =>
      match idPhotoUrl player with
      | Some oldPath =>
          if existsb (String.eqb oldPath) (uploads w) then
            let newPath := teamIdPath env id oldPath in
            renameLoop env id rest' (moved ++ [withPhotoUrl player newPath])
                       (renameUpload oldPath newPath w)
          else (w, (moved ++ rest)%list, false)
      | None => (w, (moved ++ rest)%list, false)
      end
  end.

(** [updateFilePathsWithTeamId(team)]: never throws. *)
Definition updateFilePathsWithTeamId (env : Env) (team : Team) (w : World)
    : World * Team :=
  let '(w1, ps, completed) := renameLoop env (teamId team) (players team) [] w in
  let team' := withPlayers team ps in
  if completed && saveOk env team' then (TeamModel.resave team' w1, team')
  else (w1, team').

(** The [catch] of [registerTeam]: unlink every file of the request. *)
Definition cleanupRequestFiles (env : Env) (files : list File) (w : World) : World :=
  deleteAll env (map path files) w.

(** [registerTeam(req, res)] *)
Definition registerTeam (env : Env) (w : World) (req : Request) : World * Response :=
  let body := req_body req in
  if missingRequired body then (w, MissingRequiredFields)
  else
    match validEmergencyContact body with
    | None => (w, EmergencyContactRequired)
    | Some ec =>
        let (w1, playersData) := processPlayersData env body (req_files req) w in
        match playersData with
        | PlayersFail error => (w1, PlayerDataError error)
        | PlayersOk players _ =>
            if negb (findOneOk env) then
              (cleanupRequestFiles env (req_files req) w1, ServerError)
            else
              let w2 := emit Queried w1 in
              match TeamModel.findOne (Js.toLowerCase (body_coachEmail body))
                      (body_teamName body) w2 with
              | Some _ => (w2, TeamAlreadyExists)
              | None =>
                  let newId := generateTeamId env in
                  let team :=
                    TeamModel.calculatePlayerAges env
                      (newTeam env body ec newId players) in
                  if negb (TeamModel.validatePlayerAgesForTier env team) then
                    (cleanupUploadedFiles env players w2, AgeRangeViolation (body_tier body))
                  else if negb (saveOk env team) then
                    (cleanupRequestFiles env (req_files req) w2, ServerError)
                  else
                    let w3 := TeamModel.save team w2 in
                    let (w4, team') := updateFilePathsWithTeamId env team w3 in
                    let w5 := sendTeamConfirmationEmail env team' w4 in
                    let w6 := sendAdminNotificationEmail env team' w5 in
                    (w6, Success (teamId team')
                           (getPaymentInstructions (config env) team'))
              end
        end
    end.

End Disk.

(** ** Sample requests

    A concrete environment and a few requests on which the controllers
    are run in the examples below.  The policy table is a sample: the
    theorems hold for every table. *)

Module Sample.

Definition policy (tr : string) : option TierPolicy :=
  if (tr =? "elementary")%string then Some (mkTierPolicy 8 11 350)
  else if (tr =? "middle")%string then Some (mkTierPolicy 11 14 350)
  else if (tr =? "high_school")%string then Some (mkTierPolicy 14 18 350)
  else None.

Definition upload (buf folder : string) : option CloudinaryResult :=
  Some (mkCloudinaryResult (folder ++ "/id") ("https://cdn.example/" ++ folder ++ "/id")).

Definition env : Env :=
  mkEnv "TEAM-ABC123" policy (mkDate 2025 11 1) upload (fun _ => true) true (fun _ => true)
        (fun _ => true) (fun id old => "uploads/team-ids/" ++ id ++ "/" ++ old)
        (mkConfig "" "" "") (fun _ _ => false).

(** The same collaborators with an age check that lets the teams of a
    tier without policy pass. *)
Definition lenient : Env :=
  mkEnv "TEAM-ABC123" policy (mkDate 2025 11 1) upload (fun _ => true) true (fun _ => true)
        (fun _ => true) (fun id old => "uploads/team-ids/" ++ id ++ "/" ++ old)
        (mkConfig "" "" "") (fun _ _ => true).

Definition kid (n : string) (y : Z) : option RawPlayer :=
  Some (mkRawPlayer n (Some (mkDate y 6 15))).

Definition photo (i : nat) : File :=
  mkFile (idPhotoField i) ("id" ++ Js.ofNat i ++ ".png") "bytes"
         ("player-" ++ Js.ofNat i ++ ".png").

Definition body (tr : string) (ps : option (list (option RawPlayer))) : Body :=
  mkBody "Falcons" "Alhuda" "Fishers" tr "boys" "Sam" "Coach@Example.org"
         "3175550100" (Some (mkEmergencyContact "Pat" "3175550101" "parent"))
         "zelle" "" "" ps.

(** Five middle-tier players aged 12 on the sample date. *)
Definition five : list (option RawPlayer) :=
  [kid "Ali" 2013; kid "Bilal" 2013; kid "Dawud" 2013; kid "Emad" 2013; kid "Faris" 2013].

Definition photos5 : list File := map photo (seq 0 5).

Definition empty : World := mkWorld [] [] [].

(** The store as [upload.any()] leaves it before the file-based handler
    runs on [photos5]. *)
Definition onDisk : World := mkWorld [] (map path photos5) [].

Definition request (tr : string) (ps : list (option RawPlayer)) (files : list File)
    : Request :=
  mkRequest (body tr (Some ps)) files.

(** A complete registration. *)
Definition valid : Request := request "middle" five photos5.

(** Four players only. *)
Definition tooFew : Request := request "middle" (firstn 4 five) (firstn 4 photos5).

(** The first player has no name. *)
Definition nameless : Request :=
  request "middle" (Some (mkRawPlayer "" (Some (mkDate 2013 6 15))) :: tl five) photos5.

(** The last player is 20 on the sample date. *)
Definition tooOld : Request :=
  request "middle" (firstn 4 five ++ [kid "Faris" 2005]) photos5.

(** The same submission with one more photo, posted under the field of
    an eighth player that the body does not have. *)
Definition tooOldWithStrayFile : Request :=
  request "middle" (firstn 4 five ++ [kid "Faris" 2005]) (photos5 ++ [photo 7]).

(** The store as [upload.any()] leaves it before the file-based handler
    runs on these six photos. *)
Definition sixOnDisk : World := mkWorld [] (map path (photos5 ++ [photo 7])) [].

(** No team name. *)
Definition unnamedTeam : Request :=
  mkRequest (mkBody "" "Alhuda" "Fishers" "middle" "boys" "Sam" "Coach@Example.org"
               "3175550100" (Some (mkEmergencyContact "Pat" "3175550101" "parent"))
               "zelle" "" "" (Some five))
            photos5.

(** A tier outside the policy table. *)
Definition college : Request := request "college" five photos5.

(** Five elementary-tier players aged 10, the last without photo. *)
Definition young : list (option RawPlayer) :=
  [kid "Ali" 2015; kid "Bilal" 2015; kid "Dawud" 2015; kid "Emad" 2015; kid "Faris" 2015].

Definition lastWithoutPhoto (tr : string) : Request :=
  request tr young (firstn 4 photos5).

(** The store as [upload.any()] leaves it before the file-based handler
    runs on these four photos. *)
Definition fourOnDisk : World := mkWorld [] (map path (firstn 4 photos5)) [].

(** Five players, a hole, and six more entries after it. *)
Definition gapped : Request :=
  request "middle" (five ++ None :: five ++ [kid "Ghazi" 2013]) photos5.

(** The same collaborators with a store that rejects every delete. *)
Definition rejecting : Env :=
  mkEnv "TEAM-ABC123" policy (mkDate 2025 11 1) upload (fun _ => false) true
        (fun _ => true) (fun _ => true)
        (fun id old => "uploads/team-ids/" ++ id ++ "/" ++ old) (mkConfig "" "" "")
        (fun _ _ => false).

(** The world after [valid] was registered once. *)
Definition registered : World := fst (Cloud.registerTeam env empty valid).

(** The same on disk, with the photos of a second attempt stored. *)
Definition registeredOnDisk : World :=
  mkWorld (teams registered) (map path photos5) [].

End Sample.

(** ** Vocabulary of the statements *)

(** The two controllers. *)
Inductive Controller := Cloudinary | FileSystem.

Definition registerTeamOf (c : Controller) (env : Env) (w : World) (req : Request)
    : World * Response :=
  match c with
  | Cloudinary => Cloud.registerTeam env w req
  | FileSystem => Disk.registerTeam env w req
  end.

(** The roster loop as [registerTeam] runs it on a request. *)
Definition rosterLoopOf (c : Controller) (env : Env) (w : World) (req : Request)
    : LoopEnd :=
  match c with
  | Cloudinary => Cloud.rosterLoop env (req_body req) (req_files req) (generateTeamId env) w
  | FileSystem => Disk.rosterLoop (req_body req) (req_files req) w
  end.

(** The roster builder as [registerTeam] runs it on a request. *)
Definition processPlayersOf (c : Controller) (env : Env) (w : World) (req : Request)
    : World * PlayersData :=
  match c with
  | Cloudinary =>
      Cloud.processPlayersDataWithCloudinary env (req_body req) (req_files req)
        (generateTeamId env) w
  | FileSystem => Disk.processPlayersData env (req_body req) (req_files req) w
  end.

(** Whether the duplicate query of a request finds a team. *)
Definition duplicateOf (w : World) (req : Request) : option Team :=
  TeamModel.findOne (Js.toLowerCase (body_coachEmail (req_body req)))
                    (body_teamName (req_body req)) w.

Definition isSuccess (r : Response) : bool :=
  match r with
  | Success _ _ => true
  | _ => false
  end.

(** The same collaborators with another mail transport. *)
Definition withSendMail (env : Env) (transport : Mail -> bool) : Env :=
  mkEnv (generateTeamId env) (tierPolicy env) (now env) (uploadImageToCloudinary env)
        (deleteOk env) (findOneOk env) (saveOk env) transport (teamIdPath env) (config env)
        (agesPassWithoutPolicy env).

(** The same body with another [players] array. *)
Definition withBodyPlayers (b : Body) (ps : option (list (option RawPlayer))) : Body :=
  mkBody (body_teamName b) (body_organization b) (body_city b) (body_tier b)
         (body_gender b) (body_coachName b) (body_coachEmail b) (body_coachPhone b)
         (body_emergencyContact b) (body_paymentMethod b) (body_specialRequirements b)
         (body_comments b) ps.

(** A [players] array without holes. *)
Definition dense (ps : list RawPlayer) : list (option RawPlayer) := map Some ps.

(** The player a field group without photo becomes. *)
Definition photoless (raw : RawPlayer) (dob : Date) : Player :=
  mkPlayer (Js.trim (raw_playerName raw)) dob None None None 0.

(** A field group with both required fields. *)
Definition complete (raw : RawPlayer) : bool :=
  Js.truthy (raw_playerName raw)
  && match raw_dateOfBirth raw with Some _ => true | None => false end.

(** [asOf]'s month/day comes before the month/day of birth. *)
Definition monthDayPrecedes (asOf dob : Date) : Prop :=
  month asOf < month dob \/ (month asOf = month dob /\ day asOf < day dob).

(** The Gregorian calendar, to speak of the day after a date. *)
Definition isLeapYear (y : Z) : bool :=
  (y mod 4 =? 0) && (negb (y mod 100 =? 0) || (y mod 400 =? 0)).

Definition daysInMonth (y m : Z) : Z :=
  if m =? 2 then (if isLeapYear y then 29 else 28)
  else if (m =? 4) || (m =? 6) || (m =? 9) || (m =? 11) then 30
  else 31.

Definition validDate (d : Date) : Prop :=
  1 <= month d <= 12 /\ 1 <= day d <= daysInMonth (year d) (month d).

Definition nextDay (d : Date) : Date :=
  if day d <? daysInMonth (year d) (month d) then mkDate (year d) (month d) (day d + 1)
  else if month d <? 12 then mkDate (year d) (month d + 1) 1
  else mkDate (year d + 1) 1 1.

Definition yearsBefore (n : Z) (d : Date) : Date :=
  mkDate (year d - n) (month d) (day d).

(** A player whose age on the submission date is outside the policy. *)
Definition outOfRange (env : Env) (p : TierPolicy) (player : Player) : Prop :=
  TeamModel.inRange p (TeamModel.age (dateOfBirth player) (now env)) = false.

(** The references stored, and the references a delete was called on, in
    a stretch of the log. *)
Definition uploadedRefs (l : list Event) : list string :=
  flat_map (fun e => match e with Uploaded ref => [ref] | _ => [] end) l.

Definition deletedRefs (l : list Event) : list string :=
  flat_map (fun e => match e with
                     | Deleted ref | DeleteFailed ref => [ref]
                     | _ => []
                     end) l.

(** A store that carries out every delete. *)
Definition reliableStore (env : Env) : Prop := forall ref, deleteOk env ref = true.

(** From [w] to [w'] nothing was persisted and a delete was called on
    every reference that was stored; with a store that carries the deletes
    out, the store is as it was. *)
Definition rolledBack (env : Env) (w w' : World) : Prop :=
  teams w' = teams w
  /\ (exists during, log w' = (log w ++ during)%list
                     /\ deletedRefs during = uploadedRefs during)
  /\ (reliableStore env -> uploads w' = uploads w).

(** The entries of a [players] array up to its first hole. *)
Fixpoint densePrefix (all : list (option RawPlayer)) : list RawPlayer :=
  match all with
  | Some raw :: rest => raw :: densePrefix rest
  | _ => []
  end.

(** The mails handed to the transporter, delivered or not, in a stretch
    of the log. *)
Definition mailsOf (l : list Event) : list Mail :=
  flat_map (fun e => match e with
                     | MailSent m | MailFailed m => [m]
                     | _ => []
                     end) l.

(** The two mails of a registration, in the order they are sent. *)
Definition mailsFor (b : Body) : list Mail :=
  [CoachConfirmation (Js.toLowerCase (body_coachEmail b)) (body_teamName b);
   AdminNotification (body_teamName b)].

(** The same body with another coach email. *)
Definition withCoachEmail (b : Body) (email : string) : Body :=
  mkBody (body_teamName b) (body_organization b) (body_city b) (body_tier b)
         (body_gender b) (body_coachName b) email (body_coachPhone b)
         (body_emergencyContact b) (body_paymentMethod b) (body_specialRequirements b)
         (body_comments b) (body_players b).

(** The characters [replace(/[^a-zA-Z0-9]/g, '_')] leaves in a string. *)
Definition isFolderSafe (c : ascii) : bool :=
  Js.isAlnum c || (nat_of_ascii c =? 95)%nat.

Fixpoint allChars (p : ascii -> bool) (s : string) : bool :=
  match s with
  | EmptyString => true
  | String c r => p c && allChars p r
  end.

(** From [w] to [w'] the log has grown, by no mail. *)
Definition noMailBetween (w w' : World) : Prop :=
  exists during, log w' = (log w ++ during)%list /\ mailsOf during = [].

(** [p'] is the player [p], its photo where it was or moved into the
    folder of the team. *)
Definition repathed (env : Env) (id : string) (p p' : Player) : Prop :=
  playerName p' = playerName p
  /\ dateOfBirth p' = dateOfBirth p
  /\ idPhotoPublicId p' = idPhotoPublicId p
  /\ idPhotoOriginalName p' = idPhotoOriginalName p
  /\ ageAtRegistration p' = ageAtRegistration p
  /\ (idPhotoUrl p' = idPhotoUrl p
      \/ exists old, idPhotoUrl p = Some old
                     /\ idPhotoUrl p' = Some (teamIdPath env id old)).

(** The defect a per-player error reports at [index] of the array
    [all], with the files and the tier of the request. *)
Definition reportedDefect (c : Controller) (env : Env) (req : Request)
    (all : list (option RawPlayer)) (e : PlayersError) : Prop :=
  match e with
  | NameDobRequired index =>
      exists raw, nth_error all index = Some (Some raw) /\ complete raw = false
  | IdPhotoRequired index =>
      exists raw, nth_error all index = Some (Some raw) /\ complete raw = true
                  /\ findPlayerFile (req_files req) index = None
                  /\ (c = Cloudinary -> body_tier (req_body req) = "high_school")
  | UploadFailed index =>
      exists raw file,
        nth_error all index = Some (Some raw) /\ complete raw = true
        /\ findPlayerFile (req_files req) index = Some file
        /\ c = Cloudinary
        /\ uploadImageToCloudinary env (buffer file)
             (Cloud.playerFolder
                (Js.replaceNonAlnum (body_teamName (req_body req)) ++ "_"
                   ++ generateTeamId env)
                (raw_playerName raw) index) = None
  | _ => True
  end.

(** The index a per-player error carries. *)
Definition errorIndex (e : PlayersError) : option nat :=
  match e with
  | NameDobRequired i | IdPhotoRequired i | UploadFailed i => Some i
  | _ => None
  end.

(** The player a field group becomes: its name trimmed, its date of
    birth. *)
Definition builtFrom (raw : RawPlayer) (p : Player) : Prop :=
  playerName p = Js.trim (raw_playerName raw)
  /\ raw_dateOfBirth raw = Some (dateOfBirth p).

(** The photo fields of the player built from the field group [raw] at
    [index], with the files of the request: the file posted under
    [players[index][idPhoto]], when there is one. *)
Definition photoOf (c : Controller) (env : Env) (req : Request) (index : nat)
    (raw : RawPlayer) (p : Player) : Prop :=
  match c, findPlayerFile (req_files req) index with
  | FileSystem, Some file =>
      idPhotoUrl p = Some (path file)
      /\ idPhotoPublicId p = None
      /\ idPhotoOriginalName p = Some (originalname file)
  | FileSystem, None => False
  | Cloudinary, Some file =>
      exists result,
        uploadImageToCloudinary env (buffer file)
          (Cloud.playerFolder
             (Js.replaceNonAlnum (body_teamName (req_body req)) ++ "_"
                ++ generateTeamId env)
             (raw_playerName raw) index) = Some result
        /\ idPhotoUrl p = Js.orNull (secure_url result)
        /\ idPhotoPublicId p = Js.orNull (public_id result)
        /\ idPhotoOriginalName p = Js.orNull (originalname file)
  | Cloudinary, None =>
      body_tier (req_body req) <> "high_school"
      /\ idPhotoUrl p = None /\ idPhotoPublicId p = None
      /\ idPhotoOriginalName p = None
  end.

(** From [w] to [w'] nothing was persisted or stored, and a delete was
    called on each of [refs], in this order, and on nothing else; with a
    store that carries the deletes out, these references are gone. *)
Definition unlinked (env : Env) (w w' : World) (refs : list string) : Prop :=
  teams w' = teams w
  /\ (exists during, log w' = (log w ++ during)%list
                     /\ deletedRefs during = refs /\ uploadedRefs during = [])
  /\ (reliableStore env -> uploads w' = removeAll refs (uploads w)).

(** ** The upload middleware of the file-based controller
    [src/unnamed/part_004], [multer.diskStorage] *)

Module Multer.

Definition isDigit (c : ascii) : bool :=
  let n := nat_of_ascii c in ((48 <=? n) && (n <=? 57))%nat.

(** The longest run of digits a string starts with, and what follows. *)
Fixpoint spanDigits (s : string) : string * string :=
  match s with
  | EmptyString => (EmptyString, EmptyString)
  | String c r =>
      if isDigit c then let (d, t) := spanDigits r in (String c d, t)
      else (EmptyString, s)
  end.

(** [s.match(/\[(\d+)\]/)?.[1]]: the digits of the leftmost
    ["[" digits "]"] of the string. *)
Fixpoint matchBracketedDigits (s : string) : option string :=
  match s with
  | EmptyString => None
  | String c r =>
      if (nat_of_ascii c =? 91)%nat then
        match spanDigits r with
        | (String d ds, String c' _) =>
            if (nat_of_ascii c' =? 93)%nat then Some (String d ds)
            else matchBracketedDigits r
        | _ => matchBracketedDigits r
        end
      else matchBracketedDigits r
  end.

(** [file.fieldname.match(/\[(\d+)\]/)?.[1] || '0'] *)
Definition playerIndexOf (fieldname : string) : string :=
  match matchBracketedDigits fieldname with
  | Some d => d
  | None => "0"
  end.

(** The [filename] callback: [`player-${playerIndex}-${timestamp}${ext}`],
    with [timestamp] what [Date.now()] returns and [ext] what
    [path.extname(file.originalname)] returns. *)
Definition filename (fieldname : string) (timestamp : nat) (ext : string) : string :=
  "player-" ++ playerIndexOf fieldname ++ "-" ++ Js.ofNat timestamp ++ ext.

End Multer.

(** ** The registration form [src/unnamed/part_000] *)

Module Form.

Definition MIN_PLAYERS : nat := 5.
Definition MAX_PLAYERS : nat := 10.

(** A player card of the page: its number ([dataset.playerNumber] and
    the label), the [name] attributes of its three inputs, whether it
    shows a remove button, and what the user has entered. *)
Record Card := mkCard {
  card_number : nat;
  card_nameField : string;
  card_dobField : string;
  card_fileField : string;
  card_removeButton : bool;
  card_name : string;
  card_dob : string;
  card_hasFile : bool
}.

(** The state of the script and of the page: the counter of the script,
    the cards of [playersContainer] in document order, the text of the
    error modal when it is shown, the number [playerCountDisplay] shows
    and whether [addPlayerBtn] is disabled. *)
Record State := mkState {
  playerCount : nat;
  cards : list Card;
  errorShown : option string;
  countShown : nat;
  addDisabled : bool
}.

Definition nameFieldOf (index : nat) : string :=
  "players[" ++ Js.ofNat index ++ "][playerName]".

Definition dobFieldOf (index : nat) : string :=
  "players[" ++ Js.ofNat index ++ "][dateOfBirth]".

Definition fileFieldOf (index : nat) : string :=
  "players[" ++ Js.ofNat index ++ "][idPhoto]".

(** [createPlayerCard(playerNum)]: a fresh card with empty inputs. *)
Definition createPlayerCard (playerNum : nat) : Card :=
  mkCard playerNum (nameFieldOf (playerNum - 1)) (dobFieldOf (playerNum - 1))
         (fileFieldOf (playerNum - 1)) (MIN_PLAYERS <? playerNum)%nat "" "" false.

(** [showError(message)] *)
Definition showError (message : string) (st : State) : State :=
  mkState (playerCount st) (cards st) (Some message) (countShown st) (addDisabled st).

(** [updatePlayerCount()] and then [updateAddPlayerButton()] *)
Definition updateDisplay (st : State) : State :=
  mkState (playerCount st) (cards st) (errorShown st) (playerCount st)
          (MAX_PLAYERS <=? playerCount st)%nat.

(** [addPlayer()] *)
Definition addPlayer (st : State) : State :=
  if (MAX_PLAYERS <=? playerCount st)%nat then
    showError "Maximum 10 players allowed per team" st
  else
    let n := S (playerCount st) in
    updateDisplay (mkState n (cards st ++ [createPlayerCard n]) (errorShown st)
                           (countShown st) (addDisabled st)).

(** The body of the [forEach] of [renumberPlayers] for the card at
    [index], as far as it runs: the number of the card and the names of
    its three inputs are set after the position.  The statement that
    follows, [fileInput.previousElementSibling.setAttribute(...)], throws
    a [TypeError]: the file input is the first element of its
    [.file-input-wrapper], so it has no previous sibling.  The statements
    on the remove button come after it and are not reached. *)
Definition renumberCard (index : nat) (card : Card) : Card :=
  mkCard (index + 1) (nameFieldOf index) (dobFieldOf index) (fileFieldOf index)
         (card_removeButton card) (card_name card) (card_dob card) (card_hasFile card).

(** [renumberPlayers()]: the cards it leaves and whether it threw.  The
    exception of the first call of the body ends the [forEach]: no card
    but the first is reached. *)
Definition renumberPlayers (cs : list Card) : list Card * bool :=
  match cs with
  | [] => ([], false)
  | card :: rest => (renumberCard 0 card :: rest, true)
  end.

Fixpoint removeAt (k : nat) (cs : list Card) : list Card :=
  match k, cs with
  | _, [] => []
  | O, _ :: rest => rest
  | S k', card :: rest => card :: removeAt k' rest
  end.

(** [removePlayer(btn)], [btn] being the remove button of the card at
    position [k]; without such a card the call throws before it changes
    anything.  The exception of [renumberPlayers] is not caught: it ends
    the handler before [updatePlayerCount()] and
    [updateAddPlayerButton()]. *)
Definition removePlayer (k : nat) (st : State) : State :=
  if (playerCount st <=? MIN_PLAYERS)%nat then
    showError "Minimum 5 players required" st
  else
    match nth_error (cards st) k with
    | None => st
    | Some _ =>
        let (cs, threw) := renumberPlayers (removeAt k (cards st)) in
        let st' := mkState (playerCount st - 1) cs (errorShown st) (countShown st)
                           (addDisabled st) in
        if threw then st' else updateDisplay st'
    end.

(** The loop [for (let i = 0; i < MIN_PLAYERS; i++) addPlayer()]. *)
Fixpoint addPlayers (n : nat) (st : State) : State :=
  match n with
  | O => st
  | S n' => addPlayers n' (addPlayer st)
  end.

(** The players part of [init()], from the empty page. *)
Definition init : State := addPlayers MIN_PLAYERS (mkState 0 [] None 0 false).

(** The players part of [resetForm()]. *)
Definition resetForm (st : State) : State :=
  addPlayers MIN_PLAYERS (mkState 0 [] (errorShown st) (countShown st) (addDisabled st)).

(** What the user does to an input of the card at position [k]. *)
Inductive Input :=
| TypeName (value : string)
| TypeDob (value : string)
| ChooseFile (chosen : bool).

Definition enter (i : Input) (card : Card) : Card :=
  match i with
  | TypeName v =>
      mkCard (card_number card) (card_nameField card) (card_dobField card)
             (card_fileField card) (card_removeButton card) v (card_dob card)
             (card_hasFile card)
  | TypeDob v =>
      mkCard (card_number card) (card_nameField card) (card_dobField card)
             (card_fileField card) (card_removeButton card) (card_name card) v
             (card_hasFile card)
  | ChooseFile b =>
      mkCard (card_number card) (card_nameField card) (card_dobField card)
             (card_fileField card) (card_removeButton card) (card_name card)
             (card_dob card) b
  end.

Fixpoint enterAt (k : nat) (i : Input) (cs : list Card) : list Card :=
  match k, cs with
  | _, [] => []
  | O, card :: rest => enter i card :: rest
  | S k', card :: rest => card :: enterAt k' i rest
  end.

(** The events of the page that touch the player cards: a click on
    [addPlayerBtn]; a click on the remove button of the card at position
    [k]; the reset that follows a registration; an input in the card at
    position [k]. *)
Inductive Action :=
| ClickAdd
| ClickRemove (k : nat)
| Reset
| Enter (k : nat) (i : Input).

(** A disabled button receives no click, and a card without remove
    button has none to click. *)
Definition step (a : Action) (st : State) : State :=
  match a with
  | ClickAdd => if addDisabled st then st else addPlayer st
  | ClickRemove k =>
      match nth_error (cards st) k with
      | Some card => if card_removeButton card then removePlayer k st else st
      | None => st
      end
  | Reset => resetForm st
  | Enter k i =>
      mkState (playerCount st) (enterAt k i (cards st)) (errorShown st) (countShown st)
              (addDisabled st)
  end.

Definition run (actions : list Action) : State :=
  fold_left (fun st a => step a st) actions init.

(** [validatePlayerFields()] *)
Definition validatePlayerFields (st : State) : bool :=
  forallb (fun card =>
             Js.truthy (Js.trim (card_name card)) && Js.truthy (card_dob card)
             && card_hasFile card)
          (cards st).

(** What [handleFormSubmit] does with the form. *)
Inductive Submit :=
| Blocked (message : string)
| Posted.

(** [handleFormSubmit(e)] up to its call of [processRegistration()]. *)
Definition handleFormSubmit (st : State) : Submit :=
  if (playerCount st <? MIN_PLAYERS)%nat then Blocked "Minimum 5 players required"
  else if negb (validatePlayerFields st) then
    Blocked "Please fill in all required player information"
  else Posted.

(** The input handler of [setupPhoneFormatting]: the digits of the value,
    laid out as a phone number. *)
Definition formatDigits (value : list ascii) : list ascii :=
  if (List.length value =? 0)%nat then value
  else if (List.length value <=? 3)%nat then "("%char :: value
  else if (List.length value <=? 6)%nat then
    "("%char :: firstn 3 value ++ ")"%char :: " "%char :: skipn 3 value
  else
    "("%char :: firstn 3 value ++ ")"%char :: " "%char
      :: firstn 3 (skipn 3 value) ++ "-"%char :: firstn 4 (skipn 6 value).

(** [value.replace(/\D/g, '')] *)
Definition digitsOf (value : string) : list ascii :=
  filter Multer.isDigit (list_ascii_of_string value).

Definition formatPhone (value : string) : string :=
  string_of_list_ascii (formatDigits (digitsOf value)).

End Form.

(** A card numbered and named after the position [index], with the file
    input named as the server looks it up, and with a remove button
    exactly above [MIN_PLAYERS]. *)
Definition canonical (index : nat) (card : Form.Card) : Prop :=
  Form.card_number card = (index + 1)%nat
  /\ Form.card_nameField card = Form.nameFieldOf index
  /\ Form.card_dobField card = Form.dobFieldOf index
  /\ Form.card_fileField card = idPhotoField index
  /\ Form.card_removeButton card = (Form.MIN_PLAYERS <? index + 1)%nat.

(** What every page the script can reach satisfies: the counter is the
    number of cards, between five and ten; every card is as
    [createPlayerCard] made it for its own number, which is at least its
    position plus one, at most ten, and exactly its position plus one for
    the first five cards; the count displayed is at least the counter and
    decides whether the add button is disabled. *)
Definition wellFormed (st : Form.State) : Prop :=
  Form.playerCount st = List.length (Form.cards st)
  /\ (Form.MIN_PLAYERS <= Form.playerCount st <= Form.MAX_PLAYERS)%nat
  /\ (forall index card,
        nth_error (Form.cards st) index = Some card ->
        canonical (Form.card_number card - 1) card
        /\ (index + 1 <= Form.card_number card <= Form.MAX_PLAYERS)%nat
        /\ ((index < Form.MIN_PLAYERS)%nat -> Form.card_number card = (index + 1)%nat))
  /\ (Form.playerCount st <= Form.countShown st <= Form.MAX_PLAYERS)%nat
  /\ Form.addDisabled st = (Form.MAX_PLAYERS <=? Form.countShown st)%nat.

(** A card whose three inputs are filled in. *)
Definition filled (card : Form.Card) : Prop :=
  Js.trim (Form.card_name card) <> ""
  /\ Form.card_dob card <> ""
  /\ Form.card_hasFile card = true.

(** The cards are numbered in sequence, as on a page from which no card
    was removed. *)
Definition inSequence (st : Form.State) : Prop :=
  forall index card,
    nth_error (Form.cards st) index = Some card ->
    Form.card_number card = (index + 1)%nat.

(** Filling in the five cards of the fresh page. *)
Definition fillFive : list Form.Action :=
  flat_map (fun k => [Form.Enter k (Form.TypeName "Ali");
                      Form.Enter k (Form.TypeDob "2013-06-15");
                      Form.Enter k (Form.ChooseFile true)])
           (seq 0 5).

(** What the two controllers read of a field group alike. *)
Definition nameAndBirth (p : Player) : string * Date := (playerName p, dateOfBirth p).

(** A player with its photo in the folder of the team [id]. *)
Definition movedToTeamFolder (env : Env) (id : string) (p : Player) : Player :=
  match idPhotoUrl p with
  | Some old => Disk.withPhotoUrl p (teamIdPath env id old)
  | None => p
  end.

(** The sample collaborators with a repository that rejects its
    queries. *)
Definition repositoryDown : Env :=
  mkEnv "TEAM-ABC123" Sample.policy (mkDate 2025 11 1) Sample.upload (fun _ => true)
        false (fun _ => true) (fun _ => true)
        (fun id old => "uploads/team-ids/" ++ id ++ "/" ++ old) (mkConfig "" "" "")
        (fun _ _ => false).

(** * Properties *)

(** ** The Age Calculator *)

Section Age.

Import TeamModel.

Lemma age_cases (dob asOf : Date) :
  (monthDayPrecedes asOf dob /\ age dob asOf = year asOf - year dob - 1)
  \/ (~ monthDayPrecedes asOf dob /\ age dob asOf = year asOf - year dob).
Proof.
  unfold age, monthDayPrecedes.
  destruct (month asOf <? month dob) eqn:Hm; simpl.
  - apply Z.ltb_lt in Hm. left. split; [lia | reflexivity].
  - apply Z.ltb_ge in Hm.
    destruct (month asOf =? month dob) eqn:He; simpl.
    + apply Z.eqb_eq in He.
      destruct (day asOf <? day dob) eqn:Hd.
      * apply Z.ltb_lt in Hd. left. split; [lia | reflexivity].
      * apply Z.ltb_ge in Hd. right. split; [lia | reflexivity].
    + apply Z.eqb_neq in He. right. split; [lia | reflexivity].
Qed.

Lemma daysInMonth_bounds (y m : Z) : 28 <= daysInMonth y m <= 31.
Proof.
  unfold daysInMonth.
  destruct (m =? 2); [destruct (isLeapYear y); lia |].
  destruct ((m =? 4) || (m =? 6) || (m =? 9) || (m =? 11)); lia.
Qed.

Lemma age_next_day (asOf : Date) (n : Z) :
  validDate asOf -> validDate (yearsBefore n asOf) ->
  age (nextDay (yearsBefore n asOf)) asOf = n - 1.
Proof.
  intros [Hm Hd] [_ Hd'].
  unfold yearsBefore in *. simpl in Hd'.
  unfold nextDay. simpl.
  destruct (day asOf <? daysInMonth (year asOf - n) (month asOf)) eqn:Hlt.
  - apply Z.ltb_lt in Hlt. unfold age. simpl.
    rewrite Z.ltb_irrefl, Z.eqb_refl. simpl.
    replace (day asOf <? day asOf + 1) with true by (symmetry; apply Z.ltb_lt; lia).
    lia.
  - destruct (month asOf <? 12) eqn:Hm12.
    + unfold age. simpl.
      replace (month asOf <? month asOf + 1) with true
        by (symmetry; apply Z.ltb_lt; lia).
      simpl. lia.
    + apply Z.ltb_ge in Hm12. unfold age. simpl.
      replace (month asOf <? 1) with false by (symmetry; apply Z.ltb_ge; lia).
      replace (month asOf =? 1) with false by (symmetry; apply Z.eqb_neq; lia).
      simpl. lia.
Qed.

Lemma age_same_day (asOf : Date) (n : Z) : age (yearsBefore n asOf) asOf = n.
Proof.
  unfold age, yearsBefore. simpl.
  rewrite !Z.ltb_irrefl, Z.eqb_refl. simpl. lia.
Qed.

(** C7.  The age is the difference of the years, less one exactly when
    the month/day of [asOf] precedes the month/day of birth.  A player
    born [n] years less one day before the reference date is [n - 1]; one
    born [n] years before, same month and day, is [n]; the ages on
    2025-11-01 of players born 2012-11-01 and 2012-11-02 are 13 and 12. *)
Theorem age_birthday_rule :
  (forall dob asOf,
      age dob asOf = year asOf - year dob - 1 <-> monthDayPrecedes asOf dob)
  /\ (forall dob asOf,
        age dob asOf = year asOf - year dob <-> ~ monthDayPrecedes asOf dob)
  /\ (forall asOf n,
        validDate asOf -> validDate (yearsBefore n asOf) ->
        age (nextDay (yearsBefore n asOf)) asOf = n - 1)
  /\ (forall asOf n, age (yearsBefore n asOf) asOf = n)
  /\ age (mkDate 2012 11 1) (mkDate 2025 11 1) = 13
  /\ age (mkDate 2012 11 2) (mkDate 2025 11 1) = 12.
Proof.
  split; [| split; [| split; [| split; [| split; reflexivity]]]].
  - intros dob asOf. destruct (age_cases dob asOf) as [[H E] | [H E]];
      split; intro; try assumption; try lia; contradiction.
  - intros dob asOf. destruct (age_cases dob asOf) as [[H E] | [H E]];
      split; intro; try assumption; try lia; contradiction.
  - exact age_next_day.
  - exact age_same_day.
Qed.

Lemma age_birthday_rule_witness :
  validDate (mkDate 2024 2 28)
  /\ validDate (yearsBefore 12 (mkDate 2024 2 28))
  /\ age (nextDay (yearsBefore 12 (mkDate 2024 2 28))) (mkDate 2024 2 28) = 11.
Proof.
  assert (V1 : validDate (mkDate 2024 2 28)) by (repeat split; vm_compute; discriminate).
  assert (V2 : validDate (yearsBefore 12 (mkDate 2024 2 28)))
    by (repeat split; vm_compute; discriminate).
  split; [exact V1 | split; [exact V2 |]].
  exact (proj1 (proj2 (proj2 age_birthday_rule)) (mkDate 2024 2 28) 12 V1 V2).
Defined.

End Age.

(** ** The Payment Instruction Resolver *)

(** The payload reads four fields of the team and the configuration,
    nothing else. *)
Lemma getPaymentInstructions_ext (cfg : Config) (t1 t2 : Team) :
  paymentMethod t1 = paymentMethod t2 ->
  registrationFee t1 = registrationFee t2 ->
  teamId t1 = teamId t2 ->
  teamName t1 = teamName t2 ->
  getPaymentInstructions cfg t1 = getPaymentInstructions cfg t2.
Proof.
  intros Hm Hf Hi Hn.
  unfold getPaymentInstructions, checkInstructions, zelleInstructions, venmoInstructions.
  rewrite Hm, Hf, Hi, Hn. reflexivity.
Qed.

(** C9.  The payment instructions are a function of the payment method,
    the fee, the reference id, the team name and the configuration: two
    calls that agree on these return the same payload, whatever else
    differs between the teams they are given. *)
Theorem getPaymentInstructions_deterministic (cfg : Config) (t1 t2 : Team) :
  paymentMethod t1 = paymentMethod t2 ->
  registrationFee t1 = registrationFee t2 ->
  teamId t1 = teamId t2 ->
  teamName t1 = teamName t2 ->
  getPaymentInstructions cfg t1 = getPaymentInstructions cfg t2.
Proof. exact (getPaymentInstructions_ext cfg t1 t2). Qed.

(** The example of the specification:
    [resolve('zelle', 350, 'TEAM-ABC123', 'Falcons')]. *)
Example zelle_falcons :
  forall t : Team,
    paymentMethod t = "zelle" -> registrationFee t = 350 ->
    teamId t = "TEAM-ABC123" -> teamName t = "Falcons" ->
    getPaymentInstructions (mkConfig "" "" "") t
    = Some (mkInstructions
              "Payment by Zelle"
              "Please send your Zelle payment using the following information:"
              "
                <strong>Recipient Email:</strong> finance@alhudaspark.org<br>
                <strong>Recipient Name:</strong> Alhuda SPARK<br>
                <strong>Amount:</strong> $350<br>
                <strong>Memo:</strong> TEAM-ABC123
            ").
Proof.
  intros t Hm Hf Hi Hn.
  unfold getPaymentInstructions, zelleInstructions. rewrite Hm, Hf, Hi. reflexivity.
Qed.

Lemma getPaymentInstructions_deterministic_witness :
  let t1 := mkTeam "TEAM-ABC123" "Falcons" "Alhuda" "Fishers" "middle" "boys" "Sam"
                   "coach@example.org" "3175550100" []
                   (mkEmergencyContact "Pat" "3175550101" "parent") 350 "zelle"
                   "pending" "" "" "pending" in
  let t2 := mkTeam "TEAM-ABC123" "Falcons" "Noor" "Carmel" "elementary" "girls" "Kim"
                   "kim@example.org" "3175550199" []
                   (mkEmergencyContact "Lee" "3175550102" "uncle") 350 "zelle"
                   "processing" "ramp" "none" "approved" in
  getPaymentInstructions (mkConfig "" "" "") t1
  = getPaymentInstructions (mkConfig "" "" "") t2.
Proof.
  intros t1 t2.
  apply (getPaymentInstructions_deterministic (mkConfig "" "" "") t1 t2); reflexivity.
Defined.

(** ** The Upload Store *)

Section Store.

Lemma removeOne_app (ref : string) (p u : list string) :
  In ref p -> removeOne ref (p ++ u)%list = (removeOne ref p ++ u)%list.
Proof.
  induction p as [| x p IH]; simpl; intros Hin; [contradiction |].
  destruct (x =? ref)%string eqn:E; [reflexivity |].
  destruct Hin as [-> | Hin]; [rewrite String.eqb_refl in E; discriminate |].
  now rewrite IH.
Qed.

Lemma removeOne_perm (ref : string) (p : list string) :
  In ref p -> Permutation p (ref :: removeOne ref p).
Proof.
  induction p as [| x p IH]; simpl; intros Hin; [contradiction |].
  destruct (x =? ref)%string eqn:E.
  - apply String.eqb_eq in E. subst x. apply Permutation_refl.
  - destruct Hin as [-> | Hin]; [rewrite String.eqb_refl in E; discriminate |].
    eapply perm_trans; [apply perm_skip, IH, Hin | apply perm_swap].
Qed.

(** Deleting, in any order, exactly what sits on top of the store gives
    the store back. *)
Lemma removeAll_perm (refs : list string) :
  forall p u, Permutation p refs -> removeAll refs (p ++ u)%list = u.
Proof.
  induction refs as [| ref refs IH]; intros p u HP.
  - apply Permutation_sym, Permutation_nil in HP. now subst p.
  - assert (Hin : In ref p)
      by (eapply Permutation_in; [apply Permutation_sym, HP | now left]).
    unfold removeAll. simpl. rewrite removeOne_app by exact Hin.
    apply IH. eapply Permutation_cons_inv.
    eapply perm_trans; [apply Permutation_sym, removeOne_perm, Hin | exact HP].
Qed.

Variable env : Env.

Lemma deleteAll_teams (refs : list string) :
  forall w, teams (deleteAll env refs w) = teams w.
Proof.
  unfold deleteAll. induction refs as [| r refs IH]; intros w; simpl; [reflexivity |].
  rewrite IH. unfold deleteUpload. now destruct (deleteOk env r).
Qed.

(** Every delete is called, carried out or not. *)
Lemma deleteAll_log (refs : list string) :
  forall w, log (deleteAll env refs w) = (log w ++ map (deleteEvent env) refs)%list.
Proof.
  unfold deleteAll.
  induction refs as [| r refs IH]; intros w; simpl; [now rewrite app_nil_r |].
  rewrite IH. unfold deleteUpload.
  destruct (deleteOk env r); simpl; now rewrite <- app_assoc.
Qed.

Lemma deleteAll_uploads (refs : list string) :
  reliableStore env ->
  forall w, uploads (deleteAll env refs w) = removeAll refs (uploads w).
Proof.
  intros Hok. unfold deleteAll, removeAll.
  induction refs as [| r refs IH]; intros w; simpl; [reflexivity |].
  rewrite IH. unfold deleteUpload. now rewrite Hok.
Qed.

Lemma deleteEvent_reliable (refs : list string) :
  reliableStore env -> map (deleteEvent env) refs = map Deleted refs.
Proof.
  intros Hok. apply map_ext. intros ref. unfold deleteEvent. now rewrite Hok.
Qed.

Lemma uploadedRefs_app (l1 l2 : list Event) :
  uploadedRefs (l1 ++ l2) = (uploadedRefs l1 ++ uploadedRefs l2)%list.
Proof. apply flat_map_app. Qed.

Lemma deletedRefs_app (l1 l2 : list Event) :
  deletedRefs (l1 ++ l2) = (deletedRefs l1 ++ deletedRefs l2)%list.
Proof. apply flat_map_app. Qed.

Lemma uploadedRefs_Uploaded (refs : list string) :
  uploadedRefs (map Uploaded refs) = refs.
Proof. induction refs; simpl; congruence. Qed.

Lemma deletedRefs_Uploaded (refs : list string) :
  deletedRefs (map Uploaded refs) = [].
Proof. induction refs; simpl; congruence. Qed.

Lemma uploadedRefs_deleteEvent (refs : list string) :
  uploadedRefs (map (deleteEvent env) refs) = [].
Proof.
  induction refs as [| r refs IH]; simpl; [reflexivity |].
  unfold deleteEvent at 1. now destruct (deleteOk env r).
Qed.

Lemma deletedRefs_deleteEvent (refs : list string) :
  deletedRefs (map (deleteEvent env) refs) = refs.
Proof.
  induction refs as [| r refs IH]; simpl; [reflexivity |].
  unfold deleteEvent at 1. destruct (deleteOk env r); simpl; now rewrite IH.
Qed.

Lemma rolledBack_refl (w : World) : rolledBack env w w.
Proof.
  split; [reflexivity | split; [| reflexivity]].
  exists []. now rewrite app_nil_r.
Qed.

(** A stretch of log made of uploads, events that touch no file, and a
    delete for each of the uploads. *)
Lemma uploads_then_deletes (imgs : list string) (between : list Event) :
  uploadedRefs between = [] -> deletedRefs between = [] ->
  deletedRefs (map Uploaded imgs ++ between ++ map (deleteEvent env) imgs)
  = uploadedRefs (map Uploaded imgs ++ between ++ map (deleteEvent env) imgs).
Proof.
  intros Hu Hd.
  now rewrite !deletedRefs_app, !uploadedRefs_app, deletedRefs_Uploaded,
    deletedRefs_deleteEvent, uploadedRefs_Uploaded, uploadedRefs_deleteEvent, Hu, Hd,
    app_nil_r.
Qed.

End Store.

(** ** The Cloudinary controller: what a roster build leaves behind *)

Section CloudRoster.

Import Cloud.

Variable env : Env.

Lemma cloud_cleanup_deleteAll (ids : list string) (w : World) :
  cleanupCloudinaryImages env ids w = deleteAll env ids w.
Proof. destruct ids; reflexivity. Qed.

(** The cleanup calls a delete on each of the images uploaded so far,
    which sit on top of the store [u0]; carried out, the deletes give [u0]
    back. *)
Lemma cloud_cleanup_rolls_back (w w1 : World) (imgs : list string)
    (between : list Event) :
  teams w1 = teams w ->
  uploads w1 = (rev imgs ++ uploads w)%list ->
  log w1 = (log w ++ map Uploaded imgs ++ between)%list ->
  uploadedRefs between = [] -> deletedRefs between = [] ->
  rolledBack env w (cleanupCloudinaryImages env imgs w1)
  /\ log (cleanupCloudinaryImages env imgs w1)
     = (log w ++ map Uploaded imgs ++ between ++ map (deleteEvent env) imgs)%list.
Proof.
  intros Ht Hu Hl Hbu Hbd.
  assert (Hlog : log (cleanupCloudinaryImages env imgs w1)
                 = (log w ++ map Uploaded imgs ++ between
                      ++ map (deleteEvent env) imgs)%list)
    by now rewrite cloud_cleanup_deleteAll, deleteAll_log, Hl, <- !app_assoc.
  split; [| exact Hlog].
  split; [| split].
  - now rewrite cloud_cleanup_deleteAll, deleteAll_teams.
  - eexists. split; [exact Hlog |]. now apply uploads_then_deletes.
  - intros Hok. rewrite cloud_cleanup_deleteAll, deleteAll_uploads, Hu by exact Hok.
    apply removeAll_perm, Permutation_sym, Permutation_rev.
Qed.

(** The loop invariant: the images recorded in [uploadedImages] are
    exactly what the loop has put on top of the store, in order.  An
    early return comes after the cleanup of these images. *)
Lemma cloud_playersLoop_inv (files : list File) (requireIds : bool)
    (folder : string) (w0 : World) :
  forall rest playerIndex players imgs w,
    teams w = teams w0 ->
    uploads w = (rev imgs ++ uploads w0)%list ->
    log w = (log w0 ++ map Uploaded imgs)%list ->
    match playersLoop env files requireIds folder rest playerIndex players imgs w with
    | EarlyReturn w' _ => rolledBack env w0 w'
    | LoopDone w' _ imgs' =>
        teams w' = teams w0 /\ uploads w' = (rev imgs' ++ uploads w0)%list
        /\ log w' = (log w0 ++ map Uploaded imgs')%list
    end.
Proof.
  assert (Hfail : forall imgs w,
             teams w = teams w0 ->
             uploads w = (rev imgs ++ uploads w0)%list ->
             log w = (log w0 ++ map Uploaded imgs)%list ->
             rolledBack env w0 (cleanupCloudinaryImages env imgs w)).
  { intros imgs w Ht Hu Hl.
    apply (cloud_cleanup_rolls_back w0 w imgs []); trivial. now rewrite app_nil_r. }
  induction rest as [| [raw |] rest IH]; intros playerIndex players imgs w Ht Hu Hl; simpl;
    try (now repeat split).
  destruct (Js.truthy (raw_playerName raw)); [| now apply Hfail].
  destruct (raw_dateOfBirth raw) as [dob |]; [| now apply Hfail].
  destruct (findPlayerFile files playerIndex) as [file |].
  - destruct (uploadImageToCloudinary env (buffer file) _) as [res |];
      [| now apply Hfail].
    apply IH; simpl.
    + exact Ht.
    + now rewrite rev_app_distr, Hu.
    + now rewrite map_app, Hl, <- app_assoc.
  - destruct requireIds; [now apply Hfail |].
    now apply IH.
Qed.

(** A failed roster build is rolled back; a successful one leaves its
    uploads on top of the store and a roster of five to ten players. *)
Lemma cloud_processPlayers_spec (body : Body) (files : list File)
    (id : string) (w : World) :
  match processPlayersDataWithCloudinary env body files id w with
  | (w', PlayersFail _) => rolledBack env w w'
  | (w', PlayersOk players imgs) =>
      teams w' = teams w
      /\ uploads w' = (rev imgs ++ uploads w)%list
      /\ log w' = (log w ++ map Uploaded imgs)%list
      /\ (5 <= List.length players <= 10)%nat
  end.
Proof.
  unfold processPlayersDataWithCloudinary, rosterLoop.
  destruct (body_players body) as [all |]; [| apply rolledBack_refl].
  pose proof (cloud_playersLoop_inv files (body_tier body =? "high_school")%string
                (Js.replaceNonAlnum (body_teamName body) ++ "_" ++ id)
                w all 0%nat [] [] w) as H.
  simpl in H. rewrite app_nil_r in H. specialize (H eq_refl eq_refl eq_refl).
  destruct (playersLoop _ _ _ _ _ _ _ _ _) as [w' e | w' players imgs];
    [exact H |].
  destruct H as (Ht & Hu & Hl).
  assert (Hroll : rolledBack env w (cleanupCloudinaryImages env imgs w')).
  { apply (cloud_cleanup_rolls_back w w' imgs []); trivial. now rewrite app_nil_r. }
  unfold validateCount.
  destruct (List.length players <? 5)%nat eqn:E5; [exact Hroll |].
  destruct (10 <? List.length players)%nat eqn:E10; [exact Hroll |].
  apply Nat.ltb_ge in E5, E10. repeat split; assumption.
Qed.

End CloudRoster.

(** ** Notifications *)

Lemma dispatch_teams (env : Env) (m : Mail) (w : World) :
  teams (dispatch env m w) = teams w.
Proof. unfold dispatch. now destruct (sendMail env m). Qed.

Lemma dispatch_uploads (env : Env) (m : Mail) (w : World) :
  uploads (dispatch env m w) = uploads w.
Proof. unfold dispatch. now destruct (sendMail env m). Qed.

(** ** The Cloudinary controller: all or nothing *)

Section CloudWorkflow.

Import Cloud.

(** Every response but [Success] leaves the repository as it was, with a
    delete called on each upload of the attempt; [Success] persists
    exactly one team, built from the roster, whose ages passed the tier
    check. *)
Lemma cloud_registerTeam_outcome (env : Env) (w : World) (req : Request) :
  match registerTeam env w req with
  | (w', Success id instructions) =>
      exists ec players imgs,
        let team := TeamModel.calculatePlayerAges env
                      (newTeam env (req_body req) ec (generateTeamId env) players) in
        teams w' = (teams w ++ [team])%list
        /\ uploads w' = (rev imgs ++ uploads w)%list
        /\ id = teamId team
        /\ instructions = getPaymentInstructions (config env) team
        /\ TeamModel.validatePlayerAgesForTier env team = true
        /\ (5 <= List.length players <= 10)%nat
  | (w', _) => rolledBack env w w'
  end.
Proof.
  unfold registerTeam.
  destruct (missingRequired (req_body req)); [apply rolledBack_refl |].
  destruct (validEmergencyContact (req_body req)) as [ec |]; [| apply rolledBack_refl].
  pose proof (cloud_processPlayers_spec env (req_body req) (req_files req)
                (generateTeamId env) w) as Hp.
  destruct (processPlayersDataWithCloudinary _ _ _ _ _) as [w1 [players imgs | e]];
    [| exact Hp].
  destruct Hp as (Ht & Hu & Hl & Hn).
  assert (R1 : rolledBack env w (cleanupCloudinaryImages env imgs w1)).
  { apply (cloud_cleanup_rolls_back env w w1 imgs []); trivial. now rewrite app_nil_r. }
  assert (R2 : rolledBack env w (cleanupCloudinaryImages env imgs (emit Queried w1))).
  { apply (cloud_cleanup_rolls_back env w (emit Queried w1) imgs [Queried]); trivial.
    simpl. now rewrite Hl, <- app_assoc. }
  destruct (findOneOk env); simpl; [| exact R1].
  destruct (TeamModel.findOne _ _ _); [exact R2 |].
  destruct (TeamModel.validatePlayerAgesForTier env _) eqn:Hv; simpl; [| exact R2].
  destruct (saveOk env _); cbv beta iota zeta; [| exact R2].
  unfold sendAdminNotificationEmail, sendTeamConfirmationEmail.
  exists ec, players, imgs.
  rewrite !dispatch_teams, !dispatch_uploads. simpl. rewrite Ht, Hu.
  repeat split; try assumption; apply Hn.
Qed.

End CloudWorkflow.

(** ** The file-based controller: what it persists *)

Section DiskWorkflow.

Import Disk.

(** The loop of the file-based builder touches neither the repository
    nor the store. *)
Lemma disk_playersLoop_world (files : list File) :
  forall rest playerIndex players w,
    match playersLoop files rest playerIndex players w with
    | EarlyReturn w' _ => w' = w
    | LoopDone w' _ _ => w' = w
    end.
Proof.
  induction rest as [| [raw |] rest IH]; intros playerIndex players w; simpl;
    try reflexivity.
  destruct (Js.truthy (raw_playerName raw)); [| reflexivity].
  destruct (raw_dateOfBirth raw) as [dob |]; [| reflexivity].
  destruct (findPlayerFile files playerIndex) as [file |]; [| reflexivity].
  apply IH.
Qed.

Lemma disk_processPlayers_spec (env : Env) (body : Body) (files : list File)
    (w : World) :
  match processPlayersData env body files w with
  | (w', PlayersFail _) => teams w' = teams w
  | (w', PlayersOk players _) => w' = w /\ (5 <= List.length players <= 10)%nat
  end.
Proof.
  unfold processPlayersData, rosterLoop.
  destruct (body_players body) as [all |]; [| reflexivity].
  pose proof (disk_playersLoop_world files all 0%nat [] w) as H.
  destruct (playersLoop files all 0 [] w) as [w' e | w' players imgs]; subst w';
    [reflexivity |].
  unfold validateCount, cleanupUploadedFiles.
  destruct (List.length players <? 5)%nat eqn:E5; [apply deleteAll_teams |].
  destruct (10 <? List.length players)%nat eqn:E10; [apply deleteAll_teams |].
  apply Nat.ltb_ge in E5, E10. now repeat split.
Qed.

Lemma disk_renameLoop_spec (env : Env) (id : string) :
  forall rest moved w,
    match renameLoop env id rest moved w with
    | (w', ps, _) =>
        teams w' = teams w
        /\ List.length ps = (List.length moved + List.length rest)%nat
    end.
Proof.
  induction rest as [| player rest IH]; intros moved w; simpl.
  - split; [reflexivity | lia].
  - destruct (idPhotoUrl player) as [oldPath |].
    + destruct (existsb (String.eqb oldPath) (uploads w)).
      * specialize (IH (moved ++ [withPhotoUrl player (teamIdPath env id oldPath)])%list
                       (renameUpload oldPath (teamIdPath env id oldPath) w)).
        destruct (renameLoop _ _ _ _ _) as [[w' ps] ok].
        destruct IH as [Ht Hn]. split; [exact Ht |].
        rewrite Hn, length_app. simpl. lia.
      * split; [reflexivity |]. rewrite length_app. reflexivity.
    + split; [reflexivity |]. rewrite length_app. reflexivity.
Qed.

(** After a first [save], [updateFilePathsWithTeamId] leaves in the
    repository the team as saved or the same team with its photos
    moved; the roster keeps its length. *)
Lemma disk_updateFilePaths_spec (env : Env) (team : Team) (w : World) :
  match updateFilePathsWithTeamId env team (TeamModel.save team w) with
  | (w', team') =>
      exists ps,
        team' = withPlayers team ps
        /\ List.length ps = List.length (players team)
        /\ (teams w' = (teams w ++ [team])%list \/ teams w' = (teams w ++ [team'])%list)
  end.
Proof.
  unfold updateFilePathsWithTeamId.
  pose proof (disk_renameLoop_spec env (teamId team) (players team) []
                (TeamModel.save team w)) as H.
  destruct (renameLoop _ _ _ _ _) as [[w1 ps] completed].
  destruct H as [Ht Hn]. simpl in Ht, Hn.
  destruct (completed && saveOk env (withPlayers team ps)); exists ps;
    (split; [reflexivity | split; [exact Hn |]]).
  - right. simpl. now rewrite Ht, removelast_last.
  - left. exact Ht.
Qed.

(** Every response but [Success] leaves the repository as it was;
    [Success] persists exactly one team, built from the roster, whose
    ages passed the tier check. *)
Lemma disk_registerTeam_outcome (env : Env) (w : World) (req : Request) :
  match registerTeam env w req with
  | (w', Success id instructions) =>
      exists ec players ps,
        let team := TeamModel.calculatePlayerAges env
                      (newTeam env (req_body req) ec (generateTeamId env) players) in
        (teams w' = (teams w ++ [team])%list
         \/ teams w' = (teams w ++ [withPlayers team ps])%list)
        /\ List.length ps = List.length players
        /\ id = teamId team
        /\ instructions = getPaymentInstructions (config env) team
        /\ TeamModel.validatePlayerAgesForTier env team = true
        /\ (5 <= List.length players <= 10)%nat
  | (w', _) => teams w' = teams w
  end.
Proof.
  unfold registerTeam.
  destruct (missingRequired (req_body req)); [reflexivity |].
  destruct (validEmergencyContact (req_body req)) as [ec |]; [| reflexivity].
  pose proof (disk_processPlayers_spec env (req_body req) (req_files req) w) as Hp.
  destruct (processPlayersData _ _ _ _) as [w1 [players imgs | e]]; [| exact Hp].
  destruct Hp as [-> Hn].
  destruct (findOneOk env); simpl;
    [| unfold cleanupRequestFiles; apply deleteAll_teams].
  destruct (TeamModel.findOne _ _ _); [reflexivity |].
  destruct (TeamModel.validatePlayerAgesForTier env _) eqn:Hv;
    cbn [negb]; cbv beta iota zeta;
    [| unfold cleanupUploadedFiles; now rewrite deleteAll_teams].
  destruct (saveOk env _); cbn [negb]; cbv beta iota zeta;
    [| unfold cleanupRequestFiles; now rewrite deleteAll_teams].
  set (team := TeamModel.calculatePlayerAges env _) in *.
  pose proof (disk_updateFilePaths_spec env team (emit Queried w)) as Hup.
  destruct (updateFilePathsWithTeamId env team _) as [w4 team'].
  destruct Hup as (ps & -> & Hlen & Hteams).
  unfold sendAdminNotificationEmail, sendTeamConfirmationEmail.
  exists ec, players, ps. rewrite !dispatch_teams.
  split; [exact Hteams |].
  split; [rewrite Hlen; subst team; simpl; apply length_map |].
  repeat split; try assumption; apply Hn.
Qed.

End DiskWorkflow.

(** ** Roster size *)

Lemma calculatePlayerAges_length (env : Env) (t : Team) :
  List.length (players (TeamModel.calculatePlayerAges env t)) = List.length (players t).
Proof. simpl. apply length_map. Qed.

(** What either handler leaves in the repository: nothing, or one team
    of five to ten players with the tier of the request and its fee. *)
Lemma registerTeam_persists (c : Controller) (env : Env) (w : World) (req : Request) :
  match registerTeamOf c env w req with
  | (w', r) =>
      (isSuccess r = false /\ teams w' = teams w)
      \/ exists t id,
          teams w' = (teams w ++ [t])%list
          /\ r = Success id (getPaymentInstructions (config env) t)
          /\ id = teamId t
          /\ (5 <= List.length (players t) <= 10)%nat
          /\ tier t = body_tier (req_body req)
          /\ registrationFee t = registrationFeeFor env (body_tier (req_body req))
  end.
Proof.
  destruct c; simpl.
  - pose proof (cloud_registerTeam_outcome env w req) as H.
    destruct (Cloud.registerTeam env w req) as [w' r].
    destruct r; try (left; split; [reflexivity | apply H]).
    destruct H as (ec & ps & imgs & Ht & _ & Hid & Hin & Hv & Hn).
    right. eexists. exists teamId0. split; [exact Ht |].
    rewrite Hin, calculatePlayerAges_length. simpl players.
    repeat split; try assumption; try apply Hn.
  - pose proof (disk_registerTeam_outcome env w req) as H.
    destruct (Disk.registerTeam env w req) as [w' r].
    destruct r; try (left; split; [reflexivity | apply H]).
    destruct H as (ec & ps & ps' & [Ht | Ht] & Hlen & Hid & Hin & Hv & Hn).
    + right. eexists. exists teamId0. split; [exact Ht |].
      rewrite Hin, calculatePlayerAges_length. simpl players.
      repeat split; try assumption; try apply Hn.
    + right. eexists. exists teamId0. split; [exact Ht |].
      rewrite Hin. simpl players. rewrite Hlen.
      repeat split; try assumption; try apply Hn.
Qed.

(** A roster that leaves the loop with fewer than five or more than ten
    players is refused by the count validation. *)
Lemma roster_size_refused (c : Controller) (env : Env) (w : World) (req : Request)
    (w1 : World) (players : list Player) (imgs : list string) :
  rosterLoopOf c env w req = LoopDone w1 players imgs ->
  (List.length players < 5 \/ 10 < List.length players)%nat ->
  exists w', processPlayersOf c env w req = (w', PlayersFail MinPlayers)
             \/ processPlayersOf c env w req = (w', PlayersFail MaxPlayers).
Proof.
  intros Hloop Hsize.
  destruct c; simpl in *.
  - unfold Cloud.processPlayersDataWithCloudinary. rewrite Hloop.
    unfold Cloud.validateCount.
    destruct (List.length players <? 5)%nat eqn:E5; [eexists; left; reflexivity |].
    destruct (10 <? List.length players)%nat eqn:E10; [eexists; right; reflexivity |].
    apply Nat.ltb_ge in E5, E10. lia.
  - unfold Disk.processPlayersData. rewrite Hloop.
    unfold Disk.validateCount.
    destruct (List.length players <? 5)%nat eqn:E5; [eexists; left; reflexivity |].
    destruct (10 <? List.length players)%nat eqn:E10; [eexists; right; reflexivity |].
    apply Nat.ltb_ge in E5, E10. lia.
Qed.

(** The builder's failure is the handler's response, once the two
    presence checks are passed. *)
Lemma registerTeam_players_fail (c : Controller) (env : Env) (w : World) (req : Request)
    (w1 : World) (e : PlayersError) :
  missingRequired (req_body req) = false ->
  validEmergencyContact (req_body req) <> None ->
  processPlayersOf c env w req = (w1, PlayersFail e) ->
  registerTeamOf c env w req = (w1, PlayerDataError e).
Proof.
  intros Hm Hec Hp.
  destruct c; simpl in *.
  - unfold Cloud.registerTeam. rewrite Hm.
    destruct (validEmergencyContact (req_body req)); [| contradiction].
    now rewrite Hp.
  - unfold Disk.registerTeam. rewrite Hm.
    destruct (validEmergencyContact (req_body req)); [| contradiction].
    now rewrite Hp.
Qed.

(** The two presence checks come first and touch nothing. *)
Lemma registerTeam_presence (c : Controller) (env : Env) (w : World) (req : Request) :
  (missingRequired (req_body req) = true ->
   registerTeamOf c env w req = (w, MissingRequiredFields))
  /\ (missingRequired (req_body req) = false ->
      validEmergencyContact (req_body req) = None ->
      registerTeamOf c env w req = (w, EmergencyContactRequired)).
Proof.
  destruct c; simpl; unfold Cloud.registerTeam, Disk.registerTeam;
    (split; [intros -> | intros -> ->]); reflexivity.
Qed.

(** C5.  In both controllers a submission whose roster leaves the loop
    with fewer than 5 or more than 10 players does not succeed and
    persists no Team; it fails with the roster-size error once it has
    passed the presence checks.  And whatever the submission, a Team that
    is persisted has between 5 and 10 players. *)
Theorem roster_size_enforced (c : Controller) (env : Env) (w : World) (req : Request) :
  (forall w1 players imgs,
      rosterLoopOf c env w req = LoopDone w1 players imgs ->
      (List.length players < 5 \/ 10 < List.length players)%nat ->
      isSuccess (snd (registerTeamOf c env w req)) = false
      /\ teams (fst (registerTeamOf c env w req)) = teams w
      /\ (missingRequired (req_body req) = false ->
          validEmergencyContact (req_body req) <> None ->
          errorKind (snd (registerTeamOf c env w req)) = Some RosterSizeViolation))
  /\ (teams (fst (registerTeamOf c env w req)) = teams w
      \/ exists t, teams (fst (registerTeamOf c env w req)) = (teams w ++ [t])%list
                   /\ (5 <= List.length (players t) <= 10)%nat).
Proof.
  pose proof (registerTeam_persists c env w req) as Hpersist.
  split.
  - intros w1 players imgs Hloop Hsize.
    destruct (registerTeam_presence c env w req) as [Hmiss Hnoec].
    destruct (missingRequired (req_body req)) eqn:Hm.
    { rewrite (Hmiss eq_refl). simpl.
      split; [reflexivity | split; [reflexivity | discriminate]]. }
    destruct (validEmergencyContact (req_body req)) as [ec |] eqn:Hec.
    2: { rewrite (Hnoec eq_refl eq_refl). simpl.
         split; [reflexivity | split; [reflexivity | congruence]]. }
    destruct (roster_size_refused c env w req w1 players imgs Hloop Hsize) as [w' Hp].
    assert (Hec' : validEmergencyContact (req_body req) <> None) by congruence.
    assert (Hr : exists e, registerTeamOf c env w req = (w', PlayerDataError e)
                           /\ (e = MinPlayers \/ e = MaxPlayers)).
    { destruct Hp as [Hp | Hp]; eexists;
        (split; [apply (registerTeam_players_fail c env w req w' _ Hm Hec' Hp) |]); auto. }
    destruct Hr as (e & Hr & He). rewrite Hr in *. simpl.
    split; [reflexivity | split].
    + destruct Hpersist as [[_ Ht] | (t & id & _ & Hs & _)]; [exact Ht | discriminate].
    + intros _ _. destruct He; subst e; reflexivity.
  - destruct (registerTeamOf c env w req) as [w' r]. simpl.
    destruct Hpersist as [[_ Ht] | (t & id & Ht & _ & _ & Hn & _)]; [now left |].
    right. now exists t.
Qed.

Lemma roster_size_enforced_witness :
  isSuccess (snd (registerTeamOf Cloudinary Sample.env Sample.empty Sample.tooFew)) = false
  /\ teams (fst (registerTeamOf Cloudinary Sample.env Sample.empty Sample.tooFew))
     = teams Sample.empty
  /\ errorKind (snd (registerTeamOf Cloudinary Sample.env Sample.empty Sample.tooFew))
     = Some RosterSizeViolation.
Proof.
  edestruct (proj1 (roster_size_enforced Cloudinary Sample.env Sample.empty Sample.tooFew))
    as (Hs & Ht & Hk).
  - vm_compute. reflexivity.
  - left. simpl. lia.
  - split; [exact Hs | split; [exact Ht | apply Hk; [reflexivity | discriminate]]].
Defined.

(** ** The roster loop and holes *)

Lemma cloud_playersLoop_gap (env : Env) (files : list File) (requireIds : bool)
    (folder : string) (tail : list (option RawPlayer)) :
  forall ps playerIndex players imgs w,
    Cloud.playersLoop env files requireIds folder (dense ps ++ None :: tail)
      playerIndex players imgs w
    = Cloud.playersLoop env files requireIds folder (dense ps) playerIndex players imgs w.
Proof.
  induction ps as [| raw ps IH]; intros playerIndex players imgs w; simpl;
    [reflexivity |].
  destruct (Js.truthy (raw_playerName raw)); [| reflexivity].
  destruct (raw_dateOfBirth raw) as [dob |]; [| reflexivity].
  destruct (findPlayerFile files playerIndex) as [file |].
  - destruct (uploadImageToCloudinary env (buffer file) _); [apply IH | reflexivity].
  - destruct requireIds; [reflexivity | apply IH].
Qed.

Lemma disk_playersLoop_gap (files : list File) (tail : list (option RawPlayer)) :
  forall ps playerIndex players w,
    Disk.playersLoop files (dense ps ++ None :: tail) playerIndex players w
    = Disk.playersLoop files (dense ps) playerIndex players w.
Proof.
  induction ps as [| raw ps IH]; intros playerIndex players w; simpl; [reflexivity |].
  destruct (Js.truthy (raw_playerName raw)); [| reflexivity].
  destruct (raw_dateOfBirth raw) as [dob |]; [| reflexivity].
  destruct (findPlayerFile files playerIndex) as [file |]; [apply IH | reflexivity].
Qed.

(** Eleven entries with a hole after the fifth register as a team of
    five: the six entries behind the hole are not counted. *)
Example gapped_registers_five :
  exists w' instructions t,
    Cloud.registerTeam Sample.env Sample.empty Sample.gapped
    = (w', Success "TEAM-ABC123" instructions)
    /\ teams w' = [t]
    /\ map playerName (players t) = ["Ali"; "Bilal"; "Dawud"; "Emad"; "Faris"]
    /\ uploadedRefs (log w')
       = map (fun n => "alhuda_spark/Falcons_TEAM-ABC123/" ++ n ++ "/id")
             ["Ali_1"; "Bilal_2"; "Dawud_3"; "Emad_4"; "Faris_5"].
Proof. do 3 eexists. vm_compute. repeat split. Qed.

(** ** Notifications do not decide the outcome *)

Section Transport.

Variable env : Env.
Variable transport : Mail -> bool.

Let env' := withSendMail env transport.

Lemma cloud_playersLoop_transport (files : list File) (requireIds : bool)
    (folder : string) :
  forall rest playerIndex players imgs w,
    Cloud.playersLoop env' files requireIds folder rest playerIndex players imgs w
    = Cloud.playersLoop env files requireIds folder rest playerIndex players imgs w.
Proof.
  induction rest as [| [raw |] rest IH]; intros playerIndex players imgs w; simpl;
    try reflexivity.
  destruct (Js.truthy (raw_playerName raw)); [| reflexivity].
  destruct (raw_dateOfBirth raw) as [dob |]; [| reflexivity].
  destruct (findPlayerFile files playerIndex) as [file |].
  - destruct (uploadImageToCloudinary env (buffer file) _); [apply IH | reflexivity].
  - destruct requireIds; [reflexivity | apply IH].
Qed.

Lemma cloud_processPlayers_transport (body : Body) (files : list File) (id : string)
    (w : World) :
  Cloud.processPlayersDataWithCloudinary env' body files id w
  = Cloud.processPlayersDataWithCloudinary env body files id w.
Proof.
  unfold Cloud.processPlayersDataWithCloudinary, Cloud.rosterLoop.
  destruct (body_players body); [| reflexivity].
  now rewrite cloud_playersLoop_transport.
Qed.

Lemma disk_renameLoop_transport (id : string) :
  forall rest moved w,
    Disk.renameLoop env' id rest moved w = Disk.renameLoop env id rest moved w.
Proof.
  induction rest as [| player rest IH]; intros moved w; simpl; [reflexivity |].
  destruct (idPhotoUrl player) as [oldPath |]; [| reflexivity].
  destruct (existsb (String.eqb oldPath) (uploads w)); [apply IH | reflexivity].
Qed.

Lemma disk_updateFilePaths_transport (team : Team) (w : World) :
  Disk.updateFilePathsWithTeamId env' team w = Disk.updateFilePathsWithTeamId env team w.
Proof.
  unfold Disk.updateFilePathsWithTeamId. now rewrite disk_renameLoop_transport.
Qed.

(** Both handlers answer the same and leave the same repository and
    store under any two mail transports. *)
Lemma registerTeam_transport (c : Controller) (w : World) (req : Request) :
  snd (registerTeamOf c env' w req) = snd (registerTeamOf c env w req)
  /\ teams (fst (registerTeamOf c env' w req)) = teams (fst (registerTeamOf c env w req))
  /\ uploads (fst (registerTeamOf c env' w req))
     = uploads (fst (registerTeamOf c env w req)).
Proof.
  destruct c; simpl.
  - unfold Cloud.registerTeam.
    destruct (missingRequired (req_body req)); [now repeat split |].
    destruct (validEmergencyContact (req_body req)) as [ec |]; [| now repeat split].
    change (generateTeamId env') with (generateTeamId env).
    rewrite cloud_processPlayers_transport.
    destruct (Cloud.processPlayersDataWithCloudinary env _ _ _ _)
      as [w1 [players imgs | e]]; [| now repeat split].
    change (findOneOk env') with (findOneOk env).
    destruct (findOneOk env); cbn [negb]; [| now repeat split].
    destruct (TeamModel.findOne _ _ _); [now repeat split |].
    change (TeamModel.calculatePlayerAges env' (newTeam env' (req_body req) ec
              (generateTeamId env) players))
      with (TeamModel.calculatePlayerAges env (newTeam env (req_body req) ec
              (generateTeamId env) players)).
    set (team := TeamModel.calculatePlayerAges env _).
    change (TeamModel.validatePlayerAgesForTier env' team)
      with (TeamModel.validatePlayerAgesForTier env team).
    destruct (TeamModel.validatePlayerAgesForTier env team); cbn [negb];
      [| now repeat split].
    change (saveOk env' team) with (saveOk env team).
    destruct (saveOk env team); cbn [negb]; [| now repeat split].
    cbv zeta. cbn [fst snd].
    unfold sendAdminNotificationEmail, sendTeamConfirmationEmail.
    rewrite !dispatch_teams, !dispatch_uploads. now repeat split.
  - unfold Disk.registerTeam.
    destruct (missingRequired (req_body req)); [now repeat split |].
    destruct (validEmergencyContact (req_body req)) as [ec |]; [| now repeat split].
    change (Disk.processPlayersData env') with (Disk.processPlayersData env).
    destruct (Disk.processPlayersData _ _ _ _) as [w1 [players imgs | e]];
      [| now repeat split].
    change (findOneOk env') with (findOneOk env).
    destruct (findOneOk env); cbn [negb]; [| now repeat split].
    destruct (TeamModel.findOne _ _ _); [now repeat split |].
    change (TeamModel.calculatePlayerAges env' (newTeam env' (req_body req) ec
              (generateTeamId env') players))
      with (TeamModel.calculatePlayerAges env (newTeam env (req_body req) ec
              (generateTeamId env) players)).
    set (team := TeamModel.calculatePlayerAges env _).
    change (TeamModel.validatePlayerAgesForTier env' team)
      with (TeamModel.validatePlayerAgesForTier env team).
    destruct (TeamModel.validatePlayerAgesForTier env team); cbn [negb];
      [| now repeat split].
    change (saveOk env' team) with (saveOk env team).
    destruct (saveOk env team); cbn [negb]; [| now repeat split].
    cbv zeta. rewrite disk_updateFilePaths_transport.
    destruct (Disk.updateFilePathsWithTeamId env team _) as [w4 team'].
    cbn [fst snd].
    unfold sendAdminNotificationEmail, sendTeamConfirmationEmail.
    rewrite !dispatch_teams, !dispatch_uploads. now repeat split.
Qed.

End Transport.

(** C8.  In both controllers the mail transport has no say in the
    outcome: whichever of the two notifications fails, the response, the
    repository and the store are what they are when both are delivered;
    and a submission that persisted its Team is answered with success,
    the Team's id and its payment instructions. *)
Theorem notifications_never_fail_registration (c : Controller) (env : Env)
    (transport : Mail -> bool) (w : World) (req : Request) :
  let out := registerTeamOf c env w req in
  let out' := registerTeamOf c (withSendMail env transport) w req in
  snd out' = snd out
  /\ teams (fst out') = teams (fst out)
  /\ uploads (fst out') = uploads (fst out)
  /\ (forall t, teams (fst out') = (teams w ++ [t])%list ->
                snd out' = Success (teamId t) (getPaymentInstructions (config env) t)).
Proof.
  intros out out'.
  destruct (registerTeam_transport env transport c w req) as (Hr & Ht & Hu).
  fold out out' in Hr, Ht, Hu.
  repeat split; try assumption.
  intros t Hpersisted. rewrite Hr. rewrite Ht in Hpersisted.
  pose proof (registerTeam_persists c env w req) as Hp.
  subst out. destruct (registerTeamOf c env w req) as [w' r]. simpl in *.
  destruct Hp as [[_ Hsame] | (t' & id & Hnew & Hs & Hid & _)].
  - rewrite Hsame in Hpersisted.
    apply (f_equal (@List.length Team)) in Hpersisted.
    rewrite length_app in Hpersisted. simpl in Hpersisted. lia.
  - rewrite Hnew in Hpersisted. apply app_inj_tail in Hpersisted.
    destruct Hpersisted as [_ ->]. now rewrite Hs, Hid.
Qed.

Lemma notifications_never_fail_registration_witness :
  let out' := registerTeamOf Cloudinary (withSendMail Sample.env (fun _ => false))
                Sample.empty Sample.valid in
  exists t, teams (fst out') = [t]
            /\ snd out' = Success (teamId t)
                            (getPaymentInstructions (config Sample.env) t).
Proof.
  intros out'. eexists. split; [vm_compute; reflexivity |].
  apply (notifications_never_fail_registration Cloudinary Sample.env (fun _ => false)
           Sample.empty Sample.valid).
  vm_compute. reflexivity.
Defined.

(** ** Age eligibility *)

Lemma validate_rejects_out_of_range (env : Env) (b : Body) (ec : EmergencyContact)
    (id : string) (ps : list Player) (policy : TierPolicy) (player : Player) :
  tierPolicy env (body_tier b) = Some policy ->
  In player ps -> outOfRange env policy player ->
  TeamModel.validatePlayerAgesForTier env
    (TeamModel.calculatePlayerAges env (newTeam env b ec id ps)) = false.
Proof.
  intros Hpol Hin Hout.
  unfold TeamModel.validatePlayerAgesForTier. cbn [tier TeamModel.calculatePlayerAges newTeam].
  rewrite Hpol. cbn [players].
  match goal with |- ?f = false => destruct f eqn:E end; [| reflexivity].
  rewrite forallb_forall in E.
  specialize (E _ (in_map _ _ _ Hin)). cbn [ageAtRegistration] in E.
  unfold outOfRange in Hout. congruence.
Qed.

(** Every player of a roster built by the file-based loop carries the
    path of one of the request's files. *)
Lemma disk_playersLoop_photos (files : list File) :
  forall rest playerIndex ps w,
    Forall (fun p => exists f, In f files /\ idPhotoUrl p = Some (path f)) ps ->
    match Disk.playersLoop files rest playerIndex ps w with
    | EarlyReturn _ _ => True
    | LoopDone _ ps' _ =>
        Forall (fun p => exists f, In f files /\ idPhotoUrl p = Some (path f)) ps'
    end.
Proof.
  induction rest as [| [raw |] rest IH]; intros playerIndex ps w Hps; simpl;
    try assumption.
  destruct (Js.truthy (raw_playerName raw)); [| exact I].
  destruct (raw_dateOfBirth raw) as [dob |]; [| exact I].
  destruct (findPlayerFile files playerIndex) as [file |] eqn:Hf; [| exact I].
  apply IH. apply Forall_app. split; [exact Hps |].
  constructor; [| constructor].
  exists file. split; [| reflexivity].
  unfold findPlayerFile in Hf. now apply find_some in Hf.
Qed.

Lemma disk_roster_photos (env : Env) (body : Body) (files : list File) (w w1 : World)
    (ps : list Player) (imgs : list string) :
  Disk.processPlayersData env body files w = (w1, PlayersOk ps imgs) ->
  Forall (fun p => exists f, In f files /\ idPhotoUrl p = Some (path f)) ps.
Proof.
  unfold Disk.processPlayersData, Disk.rosterLoop.
  destruct (body_players body) as [all |]; [| discriminate].
  pose proof (disk_playersLoop_photos files all 0%nat [] w (Forall_nil _)) as H.
  destruct (Disk.playersLoop files all 0 [] w) as [w' e | w' ps' imgs']; [discriminate |].
  unfold Disk.validateCount.
  destruct (List.length ps' <? 5)%nat; [discriminate |].
  destruct (10 <? List.length ps')%nat; [discriminate |].
  intros E. injection E as _ <- _. exact H.
Qed.

(** The age path in general.  In both controllers a submission whose
    roster holds a player with an age on the submission date outside the
    tier's range does not succeed and persists no Team; it fails with the
    age-eligibility error once it has passed the checks that come first
    (presence checks, duplicate query).  Before it answers, the
    Cloudinary controller calls a delete on every image the attempt
    uploaded - with a store that carries the deletes out, the store is as
    it was before the attempt - and the file-based controller unlinks
    the photo of every roster player, and nothing else. *)
Theorem age_violation_rejected (c : Controller) (env : Env) (w : World) (req : Request)
    (w1 : World) (ps : list Player) (imgs : list string) (policy : TierPolicy)
    (player : Player) :
  processPlayersOf c env w req = (w1, PlayersOk ps imgs) ->
  tierPolicy env (body_tier (req_body req)) = Some policy ->
  In player ps -> outOfRange env policy player ->
  let (w', r) := registerTeamOf c env w req in
  isSuccess r = false
  /\ teams w' = teams w
  /\ (c = Cloudinary -> rolledBack env w w')
  /\ (missingRequired (req_body req) = false ->
      validEmergencyContact (req_body req) <> None ->
      findOneOk env = true ->
      duplicateOf w req = None ->
      r = AgeRangeViolation (body_tier (req_body req))
      /\ errorKind r = Some AgeEligibilityViolation
      /\ match c with
         | Cloudinary =>
             log w' = (log w ++ map Uploaded imgs ++ [Queried]
                         ++ map (deleteEvent env) imgs)%list
         | FileSystem =>
             log w' = (log w ++ [Queried]
                         ++ map (deleteEvent env) (Disk.photoPaths ps))%list
             /\ (reliableStore env ->
                 uploads w' = removeAll (Disk.photoPaths ps) (uploads w))
             /\ Forall (fun p => exists f, In f (req_files req)
                                           /\ idPhotoUrl p = Some (path f)) ps
         end).
Proof.
  intros Hp Hpol Hin Hout.
  destruct (registerTeam_presence c env w req) as [Hmiss Hnoec].
  destruct (missingRequired (req_body req)) eqn:Hm.
  { rewrite (Hmiss eq_refl).
    split; [reflexivity | split; [reflexivity | split]];
      [intros _; apply rolledBack_refl | discriminate]. }
  destruct (validEmergencyContact (req_body req)) as [ec |] eqn:Hec.
  2: { rewrite (Hnoec eq_refl eq_refl).
       split; [reflexivity | split; [reflexivity | split]];
         [intros _; apply rolledBack_refl | congruence]. }
  clear Hmiss Hnoec.
  pose proof (validate_rejects_out_of_range env (req_body req) ec (generateTeamId env)
                ps policy player Hpol Hin Hout) as Hv.
  destruct c; simpl in Hp |- *.
  - unfold Cloud.registerTeam. rewrite Hm, Hec.
    pose proof (cloud_processPlayers_spec env (req_body req) (req_files req)
                  (generateTeamId env) w) as Hspec.
    rewrite Hp in *. destruct Hspec as (Ht & Hu & Hl & _).
    destruct (cloud_cleanup_rolls_back env w w1 imgs []) as [Hroll0 _]; trivial.
    { now rewrite app_nil_r. }
    destruct (cloud_cleanup_rolls_back env w (emit Queried w1) imgs [Queried])
      as [Hroll Hlog]; trivial.
    { simpl. now rewrite Hl, <- app_assoc. }
    destruct (findOneOk env); cbn [negb].
    2: { split; [reflexivity | split; [apply Hroll0 | split]];
           [intros _; exact Hroll0 | discriminate]. }
    unfold duplicateOf, TeamModel.findOne. cbn [teams emit]. rewrite Ht.
    destruct (find _ (teams w)).
    { split; [reflexivity | split; [apply Hroll | split]];
        [intros _; exact Hroll | discriminate]. }
    rewrite Hv. cbn [negb].
    split; [reflexivity | split; [apply Hroll | split]]; [intros _; exact Hroll |].
    intros _ _ _ _. split; [reflexivity | split; [reflexivity | exact Hlog]].
  - unfold Disk.registerTeam. rewrite Hm, Hec.
    pose proof (disk_processPlayers_spec env (req_body req) (req_files req) w) as Hspec.
    pose proof (disk_roster_photos _ _ _ _ _ _ _ Hp) as Hphotos.
    rewrite Hp in *. destruct Hspec as [-> _].
    destruct (findOneOk env); cbn [negb].
    2: { unfold Disk.cleanupRequestFiles. rewrite deleteAll_teams.
         split; [reflexivity | split; [reflexivity | split]]; discriminate. }
    unfold duplicateOf, TeamModel.findOne. cbn [teams emit].
    destruct (find _ (teams w)).
    { split; [reflexivity | split; [reflexivity | split]]; discriminate. }
    rewrite Hv. cbn [negb]. unfold Disk.cleanupUploadedFiles.
    rewrite deleteAll_teams, deleteAll_log. cbn [teams log emit].
    split; [reflexivity | split; [reflexivity | split]]; [discriminate |].
    intros _ _ _ _. split; [reflexivity | split; [reflexivity |]].
    split; [now rewrite <- app_assoc | split; [| exact Hphotos]].
    intros Hok. now rewrite deleteAll_uploads.
Qed.

Lemma age_violation_rejected_witness :
  let (w', r) := registerTeamOf Cloudinary Sample.env Sample.empty Sample.tooOld in
  r = AgeRangeViolation "middle" /\ uploads w' = [] /\ teams w' = [].
Proof.
  pose proof (age_violation_rejected Cloudinary Sample.env Sample.empty Sample.tooOld
                (fst (processPlayersOf Cloudinary Sample.env Sample.empty Sample.tooOld))
                _ _ (mkTierPolicy 11 14 350)
                (mkPlayer "Faris" (mkDate 2005 6 15)
                   (Some "https://cdn.example/alhuda_spark/Falcons_TEAM-ABC123/Faris_5/id")
                   (Some "alhuda_spark/Falcons_TEAM-ABC123/Faris_5/id")
                   (Some "id4.png") 0)
                eq_refl eq_refl ltac:(simpl; tauto) eq_refl) as H.
  destruct (registerTeamOf Cloudinary Sample.env Sample.empty Sample.tooOld) as [w' r].
  destruct H as (_ & Ht & Hroll & Hage).
  destruct (Hroll eq_refl) as (_ & _ & Hu).
  destruct (Hage eq_refl ltac:(discriminate) eq_refl eq_refl) as (Hr & _).
  split; [exact Hr | split; [exact (Hu (fun _ => eq_refl)) | exact Ht]].
Defined.

(** C6 at work in the file-based controller.  Six photos of the request
    are on disk when the handler starts: those of the five players and
    one posted for an eighth player the body does not have.  The last
    player is too old for the tier: the submission is refused for its
    ages and no Team is persisted, but the handler unlinks the photos of
    the roster only, and returns with the sixth photo still on disk.  The
    Cloudinary controller, given the same submission, leaves nothing
    behind. *)
Theorem disk_age_violation_keeps_stray_file :
  uploads Sample.sixOnDisk = map path (req_files Sample.tooOldWithStrayFile)
  /\ (let (w', r) := Disk.registerTeam Sample.env Sample.sixOnDisk
                       Sample.tooOldWithStrayFile in
      r = AgeRangeViolation "middle"
      /\ teams w' = []
      /\ deletedRefs (log w') = map path Sample.photos5
      /\ uploads w' = [path (Sample.photo 7)])
  /\ (let (w', r) := Cloud.registerTeam Sample.env Sample.empty
                       Sample.tooOldWithStrayFile in
      r = AgeRangeViolation "middle"
      /\ teams w' = []
      /\ deletedRefs (log w') = uploadedRefs (log w')
      /\ uploads w' = []).
Proof. repeat split; vm_compute; reflexivity. Qed.

(** ** The checks that follow the roster build *)

(** The duplicate query reads the repository only, which the roster
    build and the log leave alone. *)
Lemma findOne_after_roster (c : Controller) (env : Env) (w : World) (req : Request)
    (w1 : World) (ps : list Player) (imgs : list string) :
  processPlayersOf c env w req = (w1, PlayersOk ps imgs) ->
  TeamModel.findOne (Js.toLowerCase (body_coachEmail (req_body req)))
    (body_teamName (req_body req)) (emit Queried w1)
  = duplicateOf w req.
Proof.
  intros Hp. unfold duplicateOf, TeamModel.findOne. cbn [teams emit].
  destruct c; simpl in Hp.
  - pose proof (cloud_processPlayers_spec env (req_body req) (req_files req)
                  (generateTeamId env) w) as H.
    rewrite Hp in H. destruct H as [-> _]. reflexivity.
  - pose proof (disk_processPlayers_spec env (req_body req) (req_files req) w) as H.
    rewrite Hp in H. destruct H as [-> _]. reflexivity.
Qed.

(** What the handlers answer once the roster is built and the query has
    gone through: a duplicate is refused, and so is a team whose ages do
    not pass the tier check.  The second component is the cleanup each
    controller runs before answering. *)
Lemma registerTeam_after_roster (c : Controller) (env : Env) (w : World) (req : Request)
    (ec : EmergencyContact) (w1 : World) (ps : list Player) (imgs : list string) :
  missingRequired (req_body req) = false ->
  validEmergencyContact (req_body req) = Some ec ->
  processPlayersOf c env w req = (w1, PlayersOk ps imgs) ->
  findOneOk env = true ->
  (forall t, duplicateOf w req = Some t ->
             registerTeamOf c env w req
             = (match c with
                | Cloudinary => Cloud.cleanupCloudinaryImages env imgs (emit Queried w1)
                | FileSystem => emit Queried w1
                end, TeamAlreadyExists))
  /\ (duplicateOf w req = None ->
      TeamModel.validatePlayerAgesForTier env
        (TeamModel.calculatePlayerAges env
           (newTeam env (req_body req) ec (generateTeamId env) ps)) = false ->
      registerTeamOf c env w req
      = (match c with
         | Cloudinary => Cloud.cleanupCloudinaryImages env imgs (emit Queried w1)
         | FileSystem => Disk.cleanupUploadedFiles env ps (emit Queried w1)
         end, AgeRangeViolation (body_tier (req_body req)))).
Proof.
  intros Hm Hec Hp Hdb.
  pose proof (findOne_after_roster c env w req w1 ps imgs Hp) as Hfind.
  destruct c; simpl in Hp |- *.
  - unfold Cloud.registerTeam. rewrite Hm, Hec, Hp, Hdb. cbn [negb]. rewrite Hfind.
    split.
    + intros t ->. reflexivity.
    + intros -> ->. reflexivity.
  - unfold Disk.registerTeam. rewrite Hm, Hec, Hp, Hdb. cbn [negb]. rewrite Hfind.
    split.
    + intros t ->. reflexivity.
    + intros -> ->. reflexivity.
Qed.

(** C2, as it holds.  In both controllers a submission that passes the
    presence checks and whose roster builds is refused as a duplicate when
    the query finds a non-terminal team with the same lowercased coach
    email and team name, and no Team is persisted.  The query comes after
    the roster build: the Cloudinary controller has uploaded the roster's
    photos by then, and calls a delete on each of them before it answers,
    which gives the store back as it was when the deletes are carried
    out. *)
Theorem duplicate_rejected_after_roster (c : Controller) (env : Env) (w : World)
    (req : Request) (w1 : World) (ps : list Player) (imgs : list string) (t : Team) :
  missingRequired (req_body req) = false ->
  validEmergencyContact (req_body req) <> None ->
  processPlayersOf c env w req = (w1, PlayersOk ps imgs) ->
  findOneOk env = true ->
  duplicateOf w req = Some t ->
  let (w', r) := registerTeamOf c env w req in
  r = TeamAlreadyExists
  /\ errorKind r = Some DuplicateRegistration
  /\ teams w' = teams w
  /\ (c = Cloudinary ->
      rolledBack env w w'
      /\ log w' = (log w ++ map Uploaded imgs ++ [Queried]
                     ++ map (deleteEvent env) imgs)%list).
Proof.
  intros Hm Hec Hp Hdb Hdup.
  destruct (validEmergencyContact (req_body req)) as [ec |] eqn:Eec; [| contradiction].
  destruct (registerTeam_after_roster c env w req ec w1 ps imgs Hm Eec Hp Hdb) as [H _].
  rewrite (H t Hdup).
  pose proof (registerTeam_persists c env w req) as Hpersist.
  rewrite (H t Hdup) in Hpersist.
  destruct Hpersist as [[_ Ht] | (t' & id & _ & Hs & _)]; [| discriminate].
  repeat split; try exact Ht; destruct c; try discriminate;
    pose proof (cloud_processPlayers_spec env (req_body req) (req_files req)
                  (generateTeamId env) w) as Hspec;
    simpl in Hp; rewrite Hp in Hspec; destruct Hspec as (Ht1 & Hu1 & Hl1 & _);
    destruct (cloud_cleanup_rolls_back env w (emit Queried w1) imgs [Queried])
      as [Hroll Hlog]; trivial;
    try (simpl; now rewrite Hl1, <- app_assoc);
    try apply Hroll.
Qed.

(** C2, as stated, fails: on a second submission of a registered team the
    five photos are uploaded before the duplicate query and deleted after
    it; and a duplicate submission with four players is refused for its
    roster size, not as a duplicate. *)
Lemma duplicate_check_follows_uploads :
  duplicateOf Sample.registered Sample.valid <> None
  /\ (let (w', r) := Cloud.registerTeam Sample.env Sample.registered Sample.valid in
      r = TeamAlreadyExists
      /\ log w'
         = (log Sample.registered
            ++ map (fun n => Uploaded ("alhuda_spark/Falcons_TEAM-ABC123/" ++ n ++ "/id"))
                   ["Ali_1"; "Bilal_2"; "Dawud_3"; "Emad_4"; "Faris_5"]
            ++ [Queried]
            ++ map (fun n => Deleted ("alhuda_spark/Falcons_TEAM-ABC123/" ++ n ++ "/id"))
                   ["Ali_1"; "Bilal_2"; "Dawud_3"; "Emad_4"; "Faris_5"])%list)
  /\ duplicateOf Sample.registered Sample.tooFew <> None
  /\ snd (Cloud.registerTeam Sample.env Sample.registered Sample.tooFew)
     = PlayerDataError MinPlayers.
Proof.
  split; [vm_compute; discriminate |].
  split; [vm_compute; split; reflexivity |].
  split; [vm_compute; discriminate | vm_compute; reflexivity].
Qed.

Lemma duplicate_rejected_after_roster_witness :
  let (w', r) := registerTeamOf Cloudinary Sample.env Sample.registered Sample.valid in
  r = TeamAlreadyExists /\ teams w' = teams Sample.registered
  /\ uploads w' = uploads Sample.registered.
Proof.
  destruct (duplicateOf Sample.registered Sample.valid) as [t |] eqn:Hdup;
    [| vm_compute in Hdup; discriminate].
  pose proof (duplicate_rejected_after_roster Cloudinary Sample.env Sample.registered
                Sample.valid
                (fst (processPlayersOf Cloudinary Sample.env Sample.registered Sample.valid))
                _ _ t eq_refl ltac:(discriminate) eq_refl eq_refl Hdup) as H.
  destruct (registerTeamOf Cloudinary Sample.env Sample.registered Sample.valid) as [w' r].
  destruct H as (Hr & _ & Ht & Hc).
  destruct (Hc eq_refl) as [(_ & _ & Hu) _].
  split; [exact Hr | split; [exact Ht | exact (Hu (fun _ => eq_refl))]].
Defined.

(** ** Unknown tiers *)

Lemma errorKind_never_InvalidTier (r : Response) : errorKind r <> Some InvalidTier.
Proof. destruct r as [| | [] | | | |]; discriminate. Qed.

(** C3, as it holds.  In both controllers a submission whose tier has no
    policy raises no invalid-tier error: the handlers have no tier check,
    and the Team they build is given the default fee 350.  A submission
    that passes the presence checks, builds its roster and is no
    duplicate reaches the age check of the Team model, whose answer for
    such a tier is the collaborators' and decides alone: refused, the
    submission fails with the age-eligibility error and nothing is
    persisted; passed and saved, the Team is persisted with the unknown
    tier and the fee 350, and the submission succeeds. *)
Theorem unknown_tier_falls_through (c : Controller) (env : Env) (w : World)
    (req : Request) :
  tierPolicy env (body_tier (req_body req)) = None ->
  registrationFeeFor env (body_tier (req_body req)) = 350
  /\ let (w', r) := registerTeamOf c env w req in
     errorKind r <> Some InvalidTier
     /\ (forall ec w1 ps imgs,
            missingRequired (req_body req) = false ->
            validEmergencyContact (req_body req) = Some ec ->
            processPlayersOf c env w req = (w1, PlayersOk ps imgs) ->
            findOneOk env = true ->
            duplicateOf w req = None ->
            let team := TeamModel.calculatePlayerAges env
                          (newTeam env (req_body req) ec (generateTeamId env) ps) in
            registrationFee team = 350
            /\ TeamModel.validatePlayerAgesForTier env team
               = agesPassWithoutPolicy env (body_tier (req_body req))
                   (map (fun p => TeamModel.age (dateOfBirth p) (now env)) ps)
            /\ (TeamModel.validatePlayerAgesForTier env team = false ->
                r = AgeRangeViolation (body_tier (req_body req))
                /\ teams w' = teams w)
            /\ (TeamModel.validatePlayerAgesForTier env team = true ->
                saveOk env team = true ->
                isSuccess r = true
                /\ exists t, teams w' = (teams w ++ [t])%list
                             /\ tier t = body_tier (req_body req)
                             /\ registrationFee t = 350)).
Proof.
  intros Hpol.
  assert (Hfee : registrationFeeFor env (body_tier (req_body req)) = 350)
    by (unfold registrationFeeFor, TeamModel.getRegistrationFees; now rewrite Hpol).
  split; [exact Hfee |].
  pose proof (registerTeam_persists c env w req) as Hpersist.
  destruct (registerTeamOf c env w req) as [w' r] eqn:Hrun.
  split; [apply errorKind_never_InvalidTier |].
  intros ec w1 ps imgs Hm Hec Hp Hdb Hdup team.
  split; [exact Hfee | split; [| split]].
  - unfold TeamModel.validatePlayerAgesForTier. subst team.
    cbn [tier players TeamModel.calculatePlayerAges newTeam]. rewrite Hpol, map_map.
    reflexivity.
  - intros Hv.
    destruct (registerTeam_after_roster c env w req ec w1 ps imgs Hm Hec Hp Hdb) as [_ H].
    rewrite (H Hdup Hv) in Hrun. injection Hrun as <- <-.
    split; [reflexivity |].
    destruct Hpersist as [[_ Ht] | (t & id & _ & Hs & _)]; [exact Ht | discriminate].
  - intros Hv Hs.
    pose proof (findOne_after_roster c env w req w1 ps imgs Hp) as Hfind.
    assert (Hsucc : isSuccess r = true).
    { destruct c; simpl in Hp, Hrun.
      - unfold Cloud.registerTeam in Hrun.
        rewrite Hm, Hec, Hp, Hdb in Hrun. cbn [negb] in Hrun.
        rewrite Hfind, Hdup in Hrun. fold team in Hrun. rewrite Hv, Hs in Hrun.
        cbn [negb] in Hrun. now injection Hrun as _ <-.
      - unfold Disk.registerTeam in Hrun.
        rewrite Hm, Hec, Hp, Hdb in Hrun. cbn [negb] in Hrun.
        rewrite Hfind, Hdup in Hrun. fold team in Hrun. rewrite Hv, Hs in Hrun.
        cbn [negb] in Hrun.
        destruct (Disk.updateFilePathsWithTeamId env team _) as [w4 team'].
        now injection Hrun as _ <-. }
    split; [exact Hsucc |].
    destruct Hpersist as [[Hfail _] | (t & id & Ht & _ & _ & _ & Htier & Hf)];
      [congruence |].
    exists t. rewrite Hf. now repeat split.
Qed.

(** C3, as stated, fails: a complete submission for the tier "college",
    which the policy table does not know, is given the fee 350.  When the
    age check of the Team model refuses such a team, the submission is
    refused for its ages, not for its tier; when it lets the team pass,
    the team is persisted with the tier "college" and the fee 350. *)
Lemma unknown_tier_gets_default_fee :
  tierPolicy Sample.env "college" = None
  /\ registrationFeeFor Sample.env "college" = 350
  /\ snd (Cloud.registerTeam Sample.env Sample.empty Sample.college)
     = AgeRangeViolation "college"
  /\ snd (Disk.registerTeam Sample.env Sample.onDisk Sample.college)
     = AgeRangeViolation "college"
  /\ errorKind (AgeRangeViolation "college") <> Some InvalidTier
  /\ tierPolicy Sample.lenient "college" = None
  /\ (let (w', r) := Cloud.registerTeam Sample.lenient Sample.empty Sample.college in
      isSuccess r = true
      /\ map (fun t => (tier t, registrationFee t)) (teams w') = [("college", 350)])
  /\ (let (w', r) := Disk.registerTeam Sample.lenient Sample.onDisk Sample.college in
      isSuccess r = true
      /\ map (fun t => (tier t, registrationFee t)) (teams w') = [("college", 350)]).
Proof. repeat split; try (vm_compute; reflexivity). discriminate. Qed.

Lemma unknown_tier_falls_through_witness :
  registrationFeeFor Sample.lenient (body_tier (req_body Sample.college)) = 350
  /\ let (w', r) := registerTeamOf Cloudinary Sample.lenient Sample.empty Sample.college in
     isSuccess r = true
     /\ exists t, teams w' = [t] /\ tier t = "college" /\ registrationFee t = 350.
Proof.
  pose proof (unknown_tier_falls_through Cloudinary Sample.lenient Sample.empty
                Sample.college eq_refl) as [Hfee H].
  split; [exact Hfee |].
  destruct (registerTeamOf Cloudinary Sample.lenient Sample.empty Sample.college)
    as [w' r].
  destruct H as [_ H].
  exact (proj2 (proj2 (proj2
           (H (mkEmergencyContact "Pat" "3175550101" "parent")
              (fst (processPlayersOf Cloudinary Sample.lenient Sample.empty Sample.college))
              _ _ eq_refl eq_refl eq_refl eq_refl eq_refl)))
           eq_refl eq_refl).
Defined.

(** ** Identity photos *)

(** The loop over an array that starts with a hole-free stretch is the
    loop over the stretch, continued on what follows when the stretch
    goes through. *)
Lemma cloud_playersLoop_app (env : Env) (files : list File) (requireIds : bool)
    (folder : string) (rest : list (option RawPlayer)) :
  forall pre playerIndex players imgs w,
    Cloud.playersLoop env files requireIds folder (dense pre ++ rest)
      playerIndex players imgs w
    = match Cloud.playersLoop env files requireIds folder (dense pre)
              playerIndex players imgs w with
      | EarlyReturn w' e => EarlyReturn w' e
      | LoopDone w' players' imgs' =>
          Cloud.playersLoop env files requireIds folder rest
            (playerIndex + List.length pre) players' imgs' w'
      end.
Proof.
  induction pre as [| raw pre IH]; intros playerIndex players imgs w; simpl.
  - now rewrite Nat.add_0_r.
  - destruct (Js.truthy (raw_playerName raw)); [| reflexivity].
    destruct (raw_dateOfBirth raw) as [dob |]; [| reflexivity].
    rewrite <- Nat.add_succ_comm.
    destruct (findPlayerFile files playerIndex) as [file |].
    + destruct (uploadImageToCloudinary env (buffer file) _); [apply IH | reflexivity].
    + destruct requireIds; [reflexivity | apply IH].
Qed.

Lemma disk_playersLoop_app (files : list File) (rest : list (option RawPlayer)) :
  forall pre playerIndex players w,
    Disk.playersLoop files (dense pre ++ rest) playerIndex players w
    = match Disk.playersLoop files (dense pre) playerIndex players w with
      | EarlyReturn w' e => EarlyReturn w' e
      | LoopDone w' players' _ =>
          Disk.playersLoop files rest (playerIndex + List.length pre) players' w'
      end.
Proof.
  induction pre as [| raw pre IH]; intros playerIndex players w; simpl.
  - now rewrite Nat.add_0_r.
  - destruct (Js.truthy (raw_playerName raw)); [| reflexivity].
    destruct (raw_dateOfBirth raw) as [dob |]; [| reflexivity].
    rewrite <- Nat.add_succ_comm.
    destruct (findPlayerFile files playerIndex) as [file |]; [apply IH | reflexivity].
Qed.

(** C4, as it holds.  Take a player with name and date of birth and no
    file under its photo field, all the players before it having gone
    through the roster loop.  In the Cloudinary controller, if the tier is
    "high_school" the submission fails with the missing-photo error for
    that index, the images uploaded so far cleaned up; under any other
    tier the player joins the roster with null photo references and
    nothing is uploaded for it.  In the file-based controller the
    submission fails with the missing-photo error for that index whatever
    the tier. *)
Theorem identity_photo_requirement (c : Controller) (env : Env) (w : World) (b : Body)
    (files : list File) (pre : list RawPlayer) (raw : RawPlayer) (dob : Date)
    (rest : list (option RawPlayer)) (w1 : World) (ps : list Player)
    (imgs : list string) :
  let before := mkRequest (withBodyPlayers b (Some (dense pre))) files in
  let upTo := mkRequest (withBodyPlayers b (Some (dense (pre ++ [raw])))) files in
  let req := mkRequest (withBodyPlayers b (Some (dense pre ++ Some raw :: rest)%list)) files in
  missingRequired b = false ->
  validEmergencyContact b <> None ->
  rosterLoopOf c env w before = LoopDone w1 ps imgs ->
  Js.truthy (raw_playerName raw) = true ->
  raw_dateOfBirth raw = Some dob ->
  findPlayerFile files (List.length pre) = None ->
  match c with
  | Cloudinary =>
      if (body_tier b =? "high_school")%string then
        registerTeamOf Cloudinary env w req
        = (Cloud.cleanupCloudinaryImages env imgs w1,
           PlayerDataError (IdPhotoRequired (List.length pre)))
      else
        rosterLoopOf Cloudinary env w upTo
        = LoopDone w1 (ps ++ [photoless raw dob])%list imgs
  | FileSystem =>
      registerTeamOf FileSystem env w req
      = (w1, PlayerDataError (IdPhotoRequired (List.length pre)))
  end.
Proof.
  intros before upTo req Hm Hec Hloop Hname Hdob Hfile.
  destruct (validEmergencyContact b) as [ec |] eqn:Eec; [| contradiction].
  destruct c; simpl in Hloop |- *.
  - unfold Cloud.rosterLoop in Hloop. cbn [body_players withBodyPlayers body_tier
                                             body_teamName] in Hloop.
    destruct (body_tier b =? "high_school")%string eqn:Etier.
    + unfold Cloud.registerTeam, Cloud.processPlayersDataWithCloudinary, Cloud.rosterLoop.
      cbn [req_body req_files req body_players withBodyPlayers body_tier body_teamName].
      change (missingRequired (withBodyPlayers b _)) with (missingRequired b).
      change (validEmergencyContact (withBodyPlayers b _)) with (validEmergencyContact b).
      rewrite Hm, Eec, Etier, cloud_playersLoop_app, Hloop. simpl.
      now rewrite Hname, Hdob, Hfile.
    + unfold Cloud.rosterLoop.
      cbn [req_body req_files upTo body_players withBodyPlayers body_tier body_teamName].
      unfold dense. rewrite map_app. fold (dense pre).
      rewrite Etier, cloud_playersLoop_app, Hloop. simpl.
      now rewrite Hname, Hdob, Hfile.
  - unfold Disk.rosterLoop in Hloop. cbn [body_players withBodyPlayers] in Hloop.
    unfold Disk.registerTeam, Disk.processPlayersData, Disk.rosterLoop.
    cbn [req_body req_files req body_players withBodyPlayers].
    change (missingRequired (withBodyPlayers b _)) with (missingRequired b).
    change (validEmergencyContact (withBodyPlayers b _)) with (validEmergencyContact b).
    rewrite Hm, Eec, disk_playersLoop_app, Hloop. simpl.
    rewrite Hname, Hdob, Hfile.
    pose proof (disk_playersLoop_world files (dense pre) 0%nat [] w) as Hw.
    rewrite Hloop in Hw. now subst w1.
Qed.

(** C4, as stated, fails in the file-based controller: an elementary-tier
    team whose fifth player has no photo is refused there for the missing
    photo.  The Cloudinary controller registers the same team with the
    fifth player's photo references null. *)
Lemma elementary_photo_required_on_disk :
  body_tier (req_body (Sample.lastWithoutPhoto "elementary")) = "elementary"
  /\ tierPolicy Sample.env "elementary" <> None
  /\ findPlayerFile (req_files (Sample.lastWithoutPhoto "elementary")) 4 = None
  /\ snd (Disk.registerTeam Sample.env Sample.fourOnDisk
            (Sample.lastWithoutPhoto "elementary"))
     = PlayerDataError (IdPhotoRequired 4)
  /\ errorKind (PlayerDataError (IdPhotoRequired 4)) = Some (MissingIdentityPhoto 4)
  /\ Disk.playersErrorMessage (IdPhotoRequired 4) = "Player 5: ID photo is required"
  /\ exists w' instructions t,
       Cloud.registerTeam Sample.env Sample.empty (Sample.lastWithoutPhoto "elementary")
       = (w', Success "TEAM-ABC123" instructions)
       /\ teams w' = [t]
       /\ map idPhotoUrl (skipn 4 (players t)) = [None].
Proof.
  repeat split; try (vm_compute; reflexivity); try discriminate.
  do 3 eexists. vm_compute. repeat split.
Qed.

Lemma identity_photo_requirement_witness :
  registerTeamOf FileSystem Sample.env Sample.fourOnDisk
    (Sample.lastWithoutPhoto "elementary")
  = (Sample.fourOnDisk, PlayerDataError (IdPhotoRequired 4)).
Proof.
  apply (identity_photo_requirement FileSystem Sample.env Sample.fourOnDisk
           (Sample.body "elementary" None) (firstn 4 Sample.photos5)
           [mkRawPlayer "Ali" (Some (mkDate 2015 6 15));
            mkRawPlayer "Bilal" (Some (mkDate 2015 6 15));
            mkRawPlayer "Dawud" (Some (mkDate 2015 6 15));
            mkRawPlayer "Emad" (Some (mkDate 2015 6 15))]
           (mkRawPlayer "Faris" (Some (mkDate 2015 6 15))) (mkDate 2015 6 15) []
           Sample.fourOnDisk
           (fold_right (fun '(n, i) acc =>
                          mkPlayer n (mkDate 2015 6 15)
                                   (Some ("player-" ++ Js.ofNat i ++ ".png")) None
                                   (Some ("id" ++ Js.ofNat i ++ ".png")) 0 :: acc)
                       [] [("Ali", 0%nat); ("Bilal", 1%nat); ("Dawud", 2%nat);
                           ("Emad", 3%nat)])
           []);
    try reflexivity; discriminate.
Defined.

(** ** Failed submissions and the files they leave *)

(** C1 at work in the file-based controller.  The photos of the request
    are on disk when the handler starts.  A submission without team name,
    one whose first player has no name, one whose fifth player has no
    photo, and one that repeats a registered team all fail, and the
    handler returns with every photo still on disk: these returns run no
    cleanup. *)
Theorem disk_failures_keep_files :
  uploads Sample.onDisk = map path Sample.photos5
  /\ Disk.registerTeam Sample.env Sample.onDisk Sample.unnamedTeam
     = (Sample.onDisk, MissingRequiredFields)
  /\ Disk.registerTeam Sample.env Sample.onDisk Sample.nameless
     = (Sample.onDisk, PlayerDataError (NameDobRequired 0))
  /\ uploads Sample.fourOnDisk = map path (req_files (Sample.lastWithoutPhoto "high_school"))
  /\ Disk.registerTeam Sample.env Sample.fourOnDisk (Sample.lastWithoutPhoto "high_school")
     = (Sample.fourOnDisk, PlayerDataError (IdPhotoRequired 4))
  /\ (let (w', r) := Disk.registerTeam Sample.env Sample.registeredOnDisk Sample.valid in
      r = TeamAlreadyExists
      /\ uploads w' = map path Sample.photos5
      /\ deletedRefs (log w') = []).
Proof. repeat split; vm_compute; reflexivity. Qed.

(** The same four submissions in the Cloudinary controller leave nothing
    behind. *)
Example cloud_failures_leave_nothing :
  uploads (fst (Cloud.registerTeam Sample.env Sample.empty Sample.unnamedTeam)) = []
  /\ uploads (fst (Cloud.registerTeam Sample.env Sample.empty Sample.nameless)) = []
  /\ (let (w', r) := Cloud.registerTeam Sample.env Sample.empty
                       (Sample.lastWithoutPhoto "high_school") in
      r = PlayerDataError (IdPhotoRequired 4)
      /\ uploads w' = []
      /\ List.length (uploadedRefs (log w')) = 4%nat
      /\ deletedRefs (log w') = uploadedRefs (log w'))
  /\ uploads (fst (Cloud.registerTeam Sample.env Sample.registered Sample.valid))
     = uploads Sample.registered.
Proof. repeat split; vm_compute; reflexivity. Qed.

(** When the store rejects the deletes, the cleanup still calls one on
    each image, the rejections are logged, the response is the same, and
    the five images stay. *)
Example rejected_deletes_are_swallowed :
  let (w', r) := Cloud.registerTeam Sample.rejecting Sample.empty Sample.tooOld in
  r = AgeRangeViolation "middle"
  /\ teams w' = []
  /\ deletedRefs (log w') = uploadedRefs (log w')
  /\ List.length (uploads w') = 5%nat
  /\ skipn 6 (log w')
     = map (fun n => DeleteFailed ("alhuda_spark/Falcons_TEAM-ABC123/" ++ n ++ "/id"))
           ["Ali_1"; "Bilal_2"; "Dawud_3"; "Emad_4"; "Faris_5"].
Proof. vm_compute. repeat split. Qed.

(** In the file-based controller the returns for a missing field, a
    missing player field, a missing photo and a duplicate leave the store
    untouched whatever the request: no unlink is called on its files. *)
Lemma disk_early_returns_delete_nothing (env : Env) (w : World) (req : Request) :
  match Disk.registerTeam env w req with
  | (w', MissingRequiredFields) | (w', EmergencyContactRequired)
  | (w', PlayerDataError (NameDobRequired _))
  | (w', PlayerDataError (IdPhotoRequired _))
  | (w', PlayerDataError ProcessingError) => w' = w
  | (w', TeamAlreadyExists) => w' = emit Queried w
  | _ => True
  end.
Proof.
  unfold Disk.registerTeam.
  destruct (missingRequired (req_body req)); [reflexivity |].
  destruct (validEmergencyContact (req_body req)) as [ec |]; [| reflexivity].
  unfold Disk.processPlayersData, Disk.rosterLoop.
  destruct (body_players (req_body req)) as [all |]; [| reflexivity].
  pose proof (disk_playersLoop_world (req_files req) all 0%nat [] w) as Hw.
  destruct (Disk.playersLoop (req_files req) all 0 [] w) as [w1 e | w1 ps imgs];
    subst w1; [now destruct e |].
  unfold Disk.validateCount.
  destruct (List.length ps <? 5)%nat; [exact I |].
  destruct (10 <? List.length ps)%nat; [exact I |].
  destruct (findOneOk env); cbn [negb]; [| exact I].
  destruct (TeamModel.findOne _ _ _); [reflexivity |].
  destruct (TeamModel.validatePlayerAgesForTier env _); cbn [negb]; [| exact I].
  destruct (saveOk env _); cbn [negb]; [| exact I].
  cbv zeta. destruct (Disk.updateFilePathsWithTeamId env _ _). exact I.
Qed.

(** * Further properties of the controllers *)

(** ** Per-player errors point at the first offending entry *)

Lemma cloud_playersLoop_error (env : Env) (files : list File) (requireIds : bool)
    (folder : string) :
  forall rest i players imgs w w' e,
    Cloud.playersLoop env files requireIds folder rest i players imgs w
    = EarlyReturn w' e ->
    exists k raw,
      errorIndex e = Some (i + k)%nat
      /\ nth_error rest k = Some (Some raw)
      /\ (forall j, (j < k)%nat ->
                    exists r, nth_error rest j = Some (Some r) /\ complete r = true)
      /\ match e with
         | NameDobRequired _ => complete raw = false
         | IdPhotoRequired _ =>
             complete raw = true /\ findPlayerFile files (i + k) = None
             /\ requireIds = true
         | UploadFailed _ =>
             complete raw = true
             /\ exists file,
                 findPlayerFile files (i + k) = Some file
                 /\ uploadImageToCloudinary env (buffer file)
                      (Cloud.playerFolder folder (raw_playerName raw) (i + k)) = None
         | _ => False
         end.
Proof.
  induction rest as [| [raw |] rest IH]; intros i players imgs w w' e; simpl;
    try discriminate.
  assert (Hstep : forall players' imgs' w1,
             complete raw = true ->
             Cloud.playersLoop env files requireIds folder rest (S i) players' imgs' w1
             = EarlyReturn w' e ->
             exists k raw0,
               errorIndex e = Some (i + k)%nat
               /\ nth_error (Some raw :: rest) k = Some (Some raw0)
               /\ (forall j, (j < k)%nat ->
                     exists r, nth_error (Some raw :: rest) j = Some (Some r)
                               /\ complete r = true)
               /\ match e with
                  | NameDobRequired _ => complete raw0 = false
                  | IdPhotoRequired _ =>
                      complete raw0 = true /\ findPlayerFile files (i + k) = None
                      /\ requireIds = true
                  | UploadFailed _ =>
                      complete raw0 = true
                      /\ exists file,
                          findPlayerFile files (i + k) = Some file
                          /\ uploadImageToCloudinary env (buffer file)
                               (Cloud.playerFolder folder (raw_playerName raw0) (i + k))
                             = None
                  | _ => False
                  end).
  { intros players' imgs' w1 Hc Hloop.
    destruct (IH _ _ _ _ _ _ Hloop) as (k & raw0 & Hi & Hn & Hbefore & Hdef).
    exists (S k), raw0. rewrite <- Nat.add_succ_comm.
    split; [exact Hi | split; [exact Hn | split; [| exact Hdef]]].
    intros [| j] Hj; [now exists raw | apply Hbefore; lia]. }
  destruct (Js.truthy (raw_playerName raw)) eqn:Hname.
  2: { intros E. injection E as <- <-. exists 0%nat, raw. rewrite Nat.add_0_r.
       repeat split; try (intros j Hj; lia).
       unfold complete. now rewrite Hname. }
  destruct (raw_dateOfBirth raw) as [dob |] eqn:Hdob.
  2: { intros E. injection E as <- <-. exists 0%nat, raw. rewrite Nat.add_0_r.
       repeat split; try (intros j Hj; lia).
       unfold complete. now rewrite Hname, Hdob. }
  assert (Hc : complete raw = true) by (unfold complete; now rewrite Hname, Hdob).
  destruct (findPlayerFile files i) as [file |] eqn:Hfile.
  - destruct (uploadImageToCloudinary env (buffer file) _) as [res |] eqn:Hup.
    + now apply Hstep.
    + intros E. injection E as <- <-. exists 0%nat, raw. rewrite Nat.add_0_r.
      repeat split; try (intros j Hj; lia); try assumption.
      now exists file.
  - destruct requireIds.
    + intros E. injection E as <- <-. exists 0%nat, raw. rewrite Nat.add_0_r.
      repeat split; try (intros j Hj; lia); assumption.
    + now apply Hstep.
Qed.

Lemma disk_playersLoop_error (files : list File) :
  forall rest i players w w' e,
    Disk.playersLoop files rest i players w = EarlyReturn w' e ->
    exists k raw,
      errorIndex e = Some (i + k)%nat
      /\ nth_error rest k = Some (Some raw)
      /\ (forall j, (j < k)%nat ->
                    exists r, nth_error rest j = Some (Some r) /\ complete r = true)
      /\ match e with
         | NameDobRequired _ => complete raw = false
         | IdPhotoRequired _ =>
             complete raw = true /\ findPlayerFile files (i + k) = None
         | _ => False
         end.
Proof.
  induction rest as [| [raw |] rest IH]; intros i players w w' e; simpl;
    try discriminate.
  destruct (Js.truthy (raw_playerName raw)) eqn:Hname.
  2: { intros E. injection E as <- <-. exists 0%nat, raw. rewrite Nat.add_0_r.
       repeat split; try (intros j Hj; lia).
       unfold complete. now rewrite Hname. }
  destruct (raw_dateOfBirth raw) as [dob |] eqn:Hdob.
  2: { intros E. injection E as <- <-. exists 0%nat, raw. rewrite Nat.add_0_r.
       repeat split; try (intros j Hj; lia).
       unfold complete. now rewrite Hname, Hdob. }
  assert (Hc : complete raw = true) by (unfold complete; now rewrite Hname, Hdob).
  destruct (findPlayerFile files i) as [file |] eqn:Hfile.
  - intros Hloop.
    destruct (IH _ _ _ _ _ Hloop) as (k & raw0 & Hi & Hn & Hbefore & Hdef).
    exists (S k), raw0. rewrite <- Nat.add_succ_comm.
    split; [exact Hi | split; [exact Hn | split; [| exact Hdef]]].
    intros [| j] Hj; [now exists raw | apply Hbefore; lia].
  - intros E. injection E as <- <-. exists 0%nat, raw. rewrite Nat.add_0_r.
    repeat split; try (intros j Hj; lia); assumption.
Qed.

(** The response [PlayerDataError e] is the failure [e] of the roster
    builder. *)
Lemma registerTeam_player_error (c : Controller) (env : Env) (w : World) (req : Request)
    (e : PlayersError) :
  snd (registerTeamOf c env w req) = PlayerDataError e ->
  exists w1, processPlayersOf c env w req = (w1, PlayersFail e).
Proof.
  destruct c; simpl.
  - unfold Cloud.registerTeam.
    destruct (missingRequired (req_body req)); [discriminate |].
    destruct (validEmergencyContact (req_body req)) as [ec |]; [| discriminate].
    destruct (Cloud.processPlayersDataWithCloudinary _ _ _ _ _)
      as [w1 [players imgs | e']].
    + destruct (findOneOk env); cbn [negb]; [| discriminate].
      destruct (TeamModel.findOne _ _ _); [discriminate |].
      destruct (TeamModel.validatePlayerAgesForTier env _); cbn [negb]; [| discriminate].
      destruct (saveOk env _); cbn [negb]; discriminate.
    + simpl. intros E. injection E as ->. now exists w1.
  - unfold Disk.registerTeam.
    destruct (missingRequired (req_body req)); [discriminate |].
    destruct (validEmergencyContact (req_body req)) as [ec |]; [| discriminate].
    destruct (Disk.processPlayersData _ _ _ _) as [w1 [players imgs | e']].
    + destruct (findOneOk env); cbn [negb]; [| discriminate].
      destruct (TeamModel.findOne _ _ _); [discriminate |].
      destruct (TeamModel.validatePlayerAgesForTier env _); cbn [negb]; [| discriminate].
      destruct (saveOk env _); cbn [negb]; [| discriminate].
      cbv zeta. destruct (Disk.updateFilePathsWithTeamId env _ _). discriminate.
    + simpl. intros E. injection E as ->. now exists w1.
Qed.

(** X1.  In both controllers an error that names a player names the
    first offending entry of [body.players]: every entry before it is
    there with name and date of birth, and the entry itself is there and
    has the defect reported - a missing name or date; no file under its
    photo field (in the Cloudinary controller, under the tier
    "high_school" only); or, in the Cloudinary controller, an upload of
    its file that was rejected. *)
Theorem player_error_names_first_offender (c : Controller) (env : Env) (w : World)
    (req : Request) (e : PlayersError) (index : nat) :
  snd (registerTeamOf c env w req) = PlayerDataError e ->
  errorIndex e = Some index ->
  exists all,
    body_players (req_body req) = Some all
    /\ (forall j, (j < index)%nat ->
                  exists r, nth_error all j = Some (Some r) /\ complete r = true)
    /\ reportedDefect c env req all e.
Proof.
  intros Hr Hidx.
  destruct (registerTeam_player_error c env w req e Hr) as [w1 Hp].
  destruct c; simpl in Hp.
  - unfold Cloud.processPlayersDataWithCloudinary, Cloud.rosterLoop in Hp.
    destruct (body_players (req_body req)) as [all |] eqn:Hall.
    2: { injection Hp as _ <-. discriminate. }
    exists all. split; [reflexivity |].
    destruct (Cloud.playersLoop _ _ _ _ _ _ _ _ _) as [w' e' | w' ps imgs] eqn:Hloop.
    + injection Hp as _ ->.
      destruct (cloud_playersLoop_error _ _ _ _ _ _ _ _ _ _ _ Hloop)
        as (k & raw & Hi & Hn & Hbefore & Hdef).
      simpl in Hi. rewrite Hidx in Hi. injection Hi as ->.
      split; [exact Hbefore |].
      destruct e; simpl in *; try contradiction; injection Hidx as ->.
      * now exists raw.
      * destruct Hdef as (Hc & Hf & Ht). exists raw. repeat split; try assumption.
        intros _. now apply String.eqb_eq.
      * destruct Hdef as (Hc & file & Hf & Hup). exists raw, file. now repeat split.
    + unfold Cloud.validateCount in Hp.
      destruct (List.length ps <? 5)%nat; [injection Hp as _ <-; discriminate |].
      destruct (10 <? List.length ps)%nat; [injection Hp as _ <-; discriminate |].
      discriminate.
  - unfold Disk.processPlayersData, Disk.rosterLoop in Hp.
    destruct (body_players (req_body req)) as [all |] eqn:Hall.
    2: { injection Hp as _ <-. discriminate. }
    exists all. split; [reflexivity |].
    destruct (Disk.playersLoop _ _ _ _ _) as [w' e' | w' ps imgs] eqn:Hloop.
    + injection Hp as _ ->.
      destruct (disk_playersLoop_error _ _ _ _ _ _ _ Hloop)
        as (k & raw & Hi & Hn & Hbefore & Hdef).
      simpl in Hi. rewrite Hidx in Hi. injection Hi as ->.
      split; [exact Hbefore |].
      destruct e; simpl in *; try contradiction; injection Hidx as ->.
      * now exists raw.
      * destruct Hdef as (Hc & Hf). exists raw. repeat split; try assumption.
        discriminate.
    + unfold Disk.validateCount in Hp.
      destruct (List.length ps <? 5)%nat; [injection Hp as _ <-; discriminate |].
      destruct (10 <? List.length ps)%nat; [injection Hp as _ <-; discriminate |].
      discriminate.
Qed.

Lemma player_error_names_first_offender_witness :
  exists all,
    body_players (req_body (Sample.lastWithoutPhoto "high_school")) = Some all
    /\ (forall j, (j < 4)%nat ->
                  exists r, nth_error all j = Some (Some r) /\ complete r = true)
    /\ reportedDefect Cloudinary Sample.env (Sample.lastWithoutPhoto "high_school") all
         (IdPhotoRequired 4).
Proof.
  apply (player_error_names_first_offender Cloudinary Sample.env Sample.empty
           (Sample.lastWithoutPhoto "high_school") (IdPhotoRequired 4) 4);
    reflexivity.
Defined.

(** ** What a successful submission went through *)

Lemma cloud_registerTeam_success (env : Env) (w w' : World) (req : Request)
    (id : string) (ins : option Instructions) :
  Cloud.registerTeam env w req = (w', Success id ins) ->
  exists ec w1 ps imgs,
    missingRequired (req_body req) = false
    /\ validEmergencyContact (req_body req) = Some ec
    /\ processPlayersOf Cloudinary env w req = (w1, PlayersOk ps imgs)
    /\ findOneOk env = true
    /\ duplicateOf w req = None
    /\ let team := TeamModel.calculatePlayerAges env
                     (newTeam env (req_body req) ec (generateTeamId env) ps) in
       TeamModel.validatePlayerAgesForTier env team = true
       /\ saveOk env team = true
       /\ w' = sendAdminNotificationEmail env team
                 (sendTeamConfirmationEmail env team
                    (TeamModel.save team (emit Queried w1)))
       /\ id = teamId team.
Proof.
  unfold Cloud.registerTeam.
  destruct (missingRequired (req_body req)) eqn:Hm; [discriminate |].
  destruct (validEmergencyContact (req_body req)) as [ec |] eqn:Hec; [| discriminate].
  destruct (Cloud.processPlayersDataWithCloudinary _ _ _ _ _)
    as [w1 [ps imgs | e]] eqn:Hp; [| discriminate].
  pose proof (findOne_after_roster Cloudinary env w req w1 ps imgs Hp) as Hfind.
  destruct (findOneOk env); cbn [negb]; [| discriminate].
  rewrite Hfind. destruct (duplicateOf w req); [discriminate |].
  destruct (TeamModel.validatePlayerAgesForTier env _) eqn:Hv; cbn [negb];
    [| discriminate].
  destruct (saveOk env _) eqn:Hs; cbn [negb]; [| discriminate].
  cbv zeta. intros E. injection E as <- <- _.
  exists ec, w1, ps, imgs. now repeat split.
Qed.

Lemma disk_registerTeam_success (env : Env) (w w' : World) (req : Request)
    (id : string) (ins : option Instructions) :
  Disk.registerTeam env w req = (w', Success id ins) ->
  exists ec ps imgs w4 team',
    missingRequired (req_body req) = false
    /\ validEmergencyContact (req_body req) = Some ec
    /\ processPlayersOf FileSystem env w req = (w, PlayersOk ps imgs)
    /\ findOneOk env = true
    /\ duplicateOf w req = None
    /\ let team := TeamModel.calculatePlayerAges env
                     (newTeam env (req_body req) ec (generateTeamId env) ps) in
       TeamModel.validatePlayerAgesForTier env team = true
       /\ saveOk env team = true
       /\ Disk.updateFilePathsWithTeamId env team (TeamModel.save team (emit Queried w))
          = (w4, team')
       /\ w' = sendAdminNotificationEmail env team'
                 (sendTeamConfirmationEmail env team' w4)
       /\ id = teamId team'.
Proof.
  unfold Disk.registerTeam.
  destruct (missingRequired (req_body req)) eqn:Hm; [discriminate |].
  destruct (validEmergencyContact (req_body req)) as [ec |] eqn:Hec; [| discriminate].
  pose proof (disk_processPlayers_spec env (req_body req) (req_files req) w) as Hspec.
  destruct (Disk.processPlayersData _ _ _ _) as [w1 [ps imgs | e]] eqn:Hp;
    [| discriminate].
  destruct Hspec as [-> _].
  pose proof (findOne_after_roster FileSystem env w req w ps imgs Hp) as Hfind.
  destruct (findOneOk env); cbn [negb]; [| discriminate].
  rewrite Hfind. destruct (duplicateOf w req); [discriminate |].
  destruct (TeamModel.validatePlayerAgesForTier env _) eqn:Hv; cbn [negb];
    [| discriminate].
  destruct (saveOk env _) eqn:Hs; cbn [negb]; [| discriminate].
  cbv zeta.
  destruct (Disk.updateFilePathsWithTeamId env _ _) as [w4 team'] eqn:Hup.
  intros E. injection E as <- <- _.
  exists ec, ps, imgs, w4, team'. now repeat split.
Qed.

Lemma dispatch_log (env : Env) (m : Mail) (w : World) :
  exists e, log (dispatch env m w) = (log w ++ [e])%list
            /\ mailsOf [e] = [m] /\ uploadedRefs [e] = [] /\ deletedRefs [e] = [].
Proof.
  unfold dispatch. destruct (sendMail env m); eexists; now repeat split.
Qed.

(** ** The Cloudinary controller is transactional *)

(** X2.  The Cloudinary handler is all or nothing.  A response other
    than success leaves the repository as it was, with a delete called on
    every image the attempt uploaded (the store is as before when the
    deletes are carried out).  Success adds exactly one team, leaves the
    attempt's images on top of the store and calls no delete. *)
Theorem cloud_registerTeam_all_or_nothing (env : Env) (w : World) (req : Request) :
  let (w', r) := Cloud.registerTeam env w req in
  if isSuccess r then
    exists t imgs during,
      teams w' = (teams w ++ [t])%list
      /\ uploads w' = (rev imgs ++ uploads w)%list
      /\ log w' = (log w ++ during)%list
      /\ uploadedRefs during = imgs
      /\ deletedRefs during = []
  else rolledBack env w w'.
Proof.
  pose proof (cloud_registerTeam_outcome env w req) as H.
  destruct (Cloud.registerTeam env w req) as [w' r] eqn:Hr.
  destruct r; simpl; try exact H.
  clear H.
  destruct (cloud_registerTeam_success env w w' req _ _ Hr)
    as (ec & w1 & ps & imgs & _ & _ & Hp & _ & _ & Hteam).
  cbv zeta in Hteam. destruct Hteam as (_ & _ & Hw' & _).
  simpl in Hp.
  pose proof (cloud_processPlayers_spec env (req_body req) (req_files req)
                (generateTeamId env) w) as Hspec.
  rewrite Hp in Hspec. destruct Hspec as (Ht & Hu & Hl & _).
  set (team := TeamModel.calculatePlayerAges env _) in *.
  unfold sendAdminNotificationEmail, sendTeamConfirmationEmail in Hw'.
  destruct (dispatch_log env (CoachConfirmation (coachEmail team) (teamName team))
              (TeamModel.save team (emit Queried w1))) as (e1 & Hl1 & _ & Hu1 & Hd1).
  destruct (dispatch_log env (AdminNotification (teamName team))
              (dispatch env (CoachConfirmation (coachEmail team) (teamName team))
                 (TeamModel.save team (emit Queried w1)))) as (e2 & Hl2 & _ & Hu2 & Hd2).
  exists team, imgs, (map Uploaded imgs ++ [Queried; Saved (teamId team); e1; e2])%list.
  subst w'. rewrite !dispatch_teams, !dispatch_uploads, Hl2, Hl1.
  cbn [TeamModel.save emit teams uploads log]. rewrite Ht, Hu, Hl.
  split; [reflexivity | split; [reflexivity | split]].
  - rewrite <- !app_assoc. reflexivity.
  - rewrite uploadedRefs_app, deletedRefs_app, uploadedRefs_Uploaded, deletedRefs_Uploaded.
    change [Queried; Saved (teamId team); e1; e2]
      with ([Queried; Saved (teamId team)] ++ [e1] ++ [e2])%list.
    rewrite !uploadedRefs_app, !deletedRefs_app, Hu1, Hu2, Hd1, Hd2. simpl.
    now rewrite app_nil_r.
Qed.

(** ** The roster a build returns *)

Lemma cloud_playersLoop_built (env : Env) (files : list File) (requireIds : bool)
    (folder : string) :
  forall rest i players imgs w w' ps' imgs',
    Cloud.playersLoop env files requireIds folder rest i players imgs w
    = LoopDone w' ps' imgs' ->
    exists tail, ps' = (players ++ tail)%list
                 /\ Forall2 builtFrom (densePrefix rest) tail.
Proof.
  induction rest as [| [raw |] rest IH]; intros i players imgs w w' ps' imgs'; simpl.
  - intros E. injection E as _ <- _. exists []. now rewrite app_nil_r.
  - destruct (Js.truthy (raw_playerName raw)); [| discriminate].
    destruct (raw_dateOfBirth raw) as [dob |] eqn:Hdob; [| discriminate].
    assert (Hstep : forall p imgs1 w1,
               playerName p = Js.trim (raw_playerName raw) -> dateOfBirth p = dob ->
               Cloud.playersLoop env files requireIds folder rest (S i)
                 (players ++ [p]) imgs1 w1 = LoopDone w' ps' imgs' ->
               exists tail, ps' = (players ++ tail)%list
                            /\ Forall2 builtFrom (raw :: densePrefix rest) tail).
    { intros p imgs1 w1 Hn Hd Hloop.
      destruct (IH _ _ _ _ _ _ _ Hloop) as (tail & -> & Hall).
      exists (p :: tail). rewrite <- app_assoc. split; [reflexivity |].
      constructor; [| exact Hall]. split; [exact Hn | now rewrite Hdob, Hd]. }
    destruct (findPlayerFile files i) as [file |].
    + destruct (uploadImageToCloudinary env (buffer file) _) as [res |];
        [| discriminate].
      now apply Hstep.
    + destruct requireIds; [discriminate |]. now apply Hstep.
  - intros E. injection E as _ <- _. exists []. now rewrite app_nil_r.
Qed.

Lemma disk_playersLoop_built (files : list File) :
  forall rest i players w w' ps' imgs',
    Disk.playersLoop files rest i players w = LoopDone w' ps' imgs' ->
    exists tail, ps' = (players ++ tail)%list
                 /\ Forall2 builtFrom (densePrefix rest) tail.
Proof.
  induction rest as [| [raw |] rest IH]; intros i players w w' ps' imgs'; simpl.
  - intros E. injection E as _ <- _. exists []. now rewrite app_nil_r.
  - destruct (Js.truthy (raw_playerName raw)); [| discriminate].
    destruct (raw_dateOfBirth raw) as [dob |] eqn:Hdob; [| discriminate].
    destruct (findPlayerFile files i) as [file |]; [| discriminate].
    intros Hloop.
    destruct (IH _ _ _ _ _ _ Hloop) as (tail & -> & Hall).
    eexists (_ :: tail). rewrite <- app_assoc. split; [reflexivity |].
    constructor; [| exact Hall]. split; [reflexivity | now rewrite Hdob].
  - intros E. injection E as _ <- _. exists []. now rewrite app_nil_r.
Qed.

(** A roster that builds comes out of the loop and passes the count
    validation. *)
Lemma processPlayers_ok (c : Controller) (env : Env) (w w1 : World) (req : Request)
    (ps : list Player) (imgs : list string) :
  processPlayersOf c env w req = (w1, PlayersOk ps imgs) ->
  exists all imgs',
    body_players (req_body req) = Some all
    /\ rosterLoopOf c env w req = LoopDone w1 ps imgs'
    /\ (5 <= List.length ps <= 10)%nat.
Proof.
  destruct c; simpl.
  - unfold Cloud.processPlayersDataWithCloudinary, Cloud.rosterLoop.
    destruct (body_players (req_body req)) as [all |]; [| discriminate].
    destruct (Cloud.playersLoop _ _ _ _ _ _ _ _ _) as [w' e | w' ps' imgs'];
      [discriminate |].
    unfold Cloud.validateCount.
    destruct (List.length ps' <? 5)%nat eqn:E5; [discriminate |].
    destruct (10 <? List.length ps')%nat eqn:E10; [discriminate |].
    intros E. injection E as <- <- <-. apply Nat.ltb_ge in E5, E10.
    exists all, imgs'. now repeat split.
  - unfold Disk.processPlayersData, Disk.rosterLoop.
    destruct (body_players (req_body req)) as [all |]; [| discriminate].
    destruct (Disk.playersLoop _ _ _ _ _) as [w' e | w' ps' imgs'];
      [discriminate |].
    unfold Disk.validateCount.
    destruct (List.length ps' <? 5)%nat eqn:E5; [discriminate |].
    destruct (10 <? List.length ps')%nat eqn:E10; [discriminate |].
    intros E. injection E as <- <- _. apply Nat.ltb_ge in E5, E10.
    exists all, imgs'. now repeat split.
Qed.

(** X3.  In both controllers a roster that builds is the field groups of
    [body.players] up to its first hole, one player per group and in the
    order of the array, each with the group's name trimmed and the
    group's date of birth; there are five to ten of them. *)
Theorem roster_follows_the_form (c : Controller) (env : Env) (w w1 : World)
    (req : Request) (ps : list Player) (imgs : list string) :
  processPlayersOf c env w req = (w1, PlayersOk ps imgs) ->
  exists all,
    body_players (req_body req) = Some all
    /\ Forall2 builtFrom (densePrefix all) ps
    /\ (5 <= List.length (densePrefix all) <= 10)%nat.
Proof.
  intros Hp.
  destruct (processPlayers_ok c env w w1 req ps imgs Hp) as (all & imgs' & Hall & Hloop & Hn).
  exists all. split; [exact Hall |].
  assert (H : Forall2 builtFrom (densePrefix all) ps).
  { destruct c; simpl in Hloop.
    - unfold Cloud.rosterLoop in Hloop. rewrite Hall in Hloop.
      destruct (cloud_playersLoop_built _ _ _ _ _ _ _ _ _ _ _ _ Hloop) as (tail & -> & H).
      exact H.
    - unfold Disk.rosterLoop in Hloop. rewrite Hall in Hloop.
      destruct (disk_playersLoop_built _ _ _ _ _ _ _ _ Hloop) as (tail & -> & H).
      exact H. }
  split; [exact H |]. now rewrite (Forall2_length H).
Qed.

Lemma roster_follows_the_form_witness :
  exists all,
    body_players (req_body Sample.gapped) = Some all
    /\ Forall2 builtFrom (densePrefix all)
         (match snd (processPlayersOf Cloudinary Sample.env Sample.empty Sample.gapped) with
          | PlayersOk ps _ => ps
          | PlayersFail _ => []
          end)
    /\ (5 <= List.length (densePrefix all) <= 10)%nat.
Proof.
  eapply (roster_follows_the_form Cloudinary Sample.env Sample.empty).
  vm_compute. reflexivity.
Defined.

(** ** Whose photo a player carries *)

Section PhotoOfIndex.

Variable env : Env.
Variable req : Request.

(** The players built so far stand at the indexes of their field groups
    and carry the photo posted for that index. *)
Let placed (c : Controller) (all : list (option RawPlayer)) (ps : list Player) : Prop :=
  forall k p, nth_error ps k = Some p ->
              exists raw, nth_error all k = Some (Some raw) /\ photoOf c env req k raw p.

Lemma placed_snoc (c : Controller) (pre rest : list (option RawPlayer))
    (players : list Player) (raw : RawPlayer) (p : Player) :
  List.length players = List.length pre ->
  placed c (pre ++ Some raw :: rest)%list players ->
  photoOf c env req (List.length pre) raw p ->
  placed c ((pre ++ [Some raw]) ++ rest)%list (players ++ [p])%list.
Proof.
  intros Hlen Hplaced Hp k q Hk. rewrite <- app_assoc. simpl.
  destruct (Nat.lt_ge_cases k (List.length players)) as [Hlt | Hge].
  - rewrite nth_error_app1 in Hk by exact Hlt. now apply Hplaced.
  - rewrite nth_error_app2 in Hk by exact Hge.
    destruct (k - List.length players)%nat as [| n] eqn:Hd.
    + simpl in Hk. injection Hk as <-.
      assert (k = List.length pre) as -> by lia.
      exists raw. split; [| exact Hp].
      rewrite nth_error_app2 by lia. now rewrite Nat.sub_diag.
    + simpl in Hk. now destruct n.
Qed.

Lemma cloud_playersLoop_placed :
  forall rest pre players imgs w w' ps' imgs',
    List.length players = List.length pre ->
    placed Cloudinary (pre ++ rest)%list players ->
    Cloud.playersLoop env (req_files req)
      (body_tier (req_body req) =? "high_school")%string
      (Js.replaceNonAlnum (body_teamName (req_body req)) ++ "_" ++ generateTeamId env)
      rest (List.length pre) players imgs w
    = LoopDone w' ps' imgs' ->
    placed Cloudinary (pre ++ rest)%list ps'.
Proof.
  induction rest as [| [raw |] rest IH]; intros pre players imgs w w' ps' imgs' Hlen Hpl;
    simpl.
  - intros E. now injection E as _ <- _.
  - destruct (Js.truthy (raw_playerName raw)); [| discriminate].
    destruct (raw_dateOfBirth raw) as [dob |]; [| discriminate].
    assert (Hstep : forall p imgs1 w1,
               photoOf Cloudinary env req (List.length pre) raw p ->
               Cloud.playersLoop env (req_files req)
                 (body_tier (req_body req) =? "high_school")%string
                 (Js.replaceNonAlnum (body_teamName (req_body req)) ++ "_"
                    ++ generateTeamId env)
                 rest (S (List.length pre)) (players ++ [p]) imgs1 w1
               = LoopDone w' ps' imgs' ->
               placed Cloudinary (pre ++ Some raw :: rest)%list ps').
    { intros p imgs1 w1 Hp Hloop.
      replace (pre ++ Some raw :: rest)%list with ((pre ++ [Some raw]) ++ rest)%list
        by now rewrite <- app_assoc.
      apply (IH (pre ++ [Some raw])%list (players ++ [p])%list imgs1 w1 w' ps' imgs').
      - rewrite !length_app. simpl. lia.
      - now apply placed_snoc.
      - rewrite length_app. simpl. rewrite Nat.add_1_r. exact Hloop. }
    destruct (findPlayerFile (req_files req) (List.length pre)) as [file |] eqn:Hf.
    + destruct (uploadImageToCloudinary env (buffer file) _) as [res |] eqn:Hup;
        [| discriminate].
      apply Hstep. unfold photoOf. rewrite Hf. exists res. now repeat split.
    + destruct (body_tier (req_body req) =? "high_school")%string eqn:Ht;
        [discriminate |].
      apply Hstep. unfold photoOf. rewrite Hf.
      apply String.eqb_neq in Ht. now repeat split.
  - intros E. now injection E as _ <- _.
Qed.

Lemma disk_playersLoop_placed :
  forall rest pre players w w' ps' imgs',
    List.length players = List.length pre ->
    placed FileSystem (pre ++ rest)%list players ->
    Disk.playersLoop (req_files req) rest (List.length pre) players w
    = LoopDone w' ps' imgs' ->
    placed FileSystem (pre ++ rest)%list ps'.
Proof.
  induction rest as [| [raw |] rest IH]; intros pre players w w' ps' imgs' Hlen Hpl;
    simpl.
  - intros E. now injection E as _ <- _.
  - destruct (Js.truthy (raw_playerName raw)); [| discriminate].
    destruct (raw_dateOfBirth raw) as [dob |]; [| discriminate].
    destruct (findPlayerFile (req_files req) (List.length pre)) as [file |] eqn:Hf;
      [| discriminate].
    intros Hloop.
    replace (pre ++ Some raw :: rest)%list with ((pre ++ [Some raw]) ++ rest)%list
      by now rewrite <- app_assoc.
    eapply (IH (pre ++ [Some raw])%list).
    3: { rewrite length_app. simpl. rewrite Nat.add_1_r. exact Hloop. }
    + rewrite !length_app. simpl. rewrite Hlen. reflexivity.
    + apply placed_snoc; [exact Hlen | exact Hpl |].
      unfold photoOf. rewrite Hf. now repeat split.
  - intros E. now injection E as _ <- _.
Qed.

Lemma rosterLoop_placed (c : Controller) (w w1 : World) (all : list (option RawPlayer))
    (ps : list Player) (imgs : list string) :
  body_players (req_body req) = Some all ->
  rosterLoopOf c env w req = LoopDone w1 ps imgs ->
  placed c all ps.
Proof.
  intros Hall Hloop.
  assert (Hnil : forall c', placed c' ([] ++ all)%list []).
  { intros c' k p Hk. now destruct k. }
  destruct c; simpl in Hloop.
  - unfold Cloud.rosterLoop in Hloop. rewrite Hall in Hloop.
    exact (cloud_playersLoop_placed all [] [] [] w w1 ps imgs eq_refl (Hnil _) Hloop).
  - unfold Disk.rosterLoop in Hloop. rewrite Hall in Hloop.
    exact (disk_playersLoop_placed all [] [] w w1 ps imgs eq_refl (Hnil _) Hloop).
Qed.

End PhotoOfIndex.

(** X4.  In both controllers the player at position [i] of a roster
    that builds is made from the field group [players[i]] and carries the
    photo posted under [players[i][idPhoto]]: in the file-based
    controller the path and original name of that file, which is always
    there; in the Cloudinary controller the result of uploading that
    file's buffer to the player's folder, or no photo at all when no such
    file was posted, which only happens outside the tier "high_school". *)
Theorem player_carries_photo_of_its_index (c : Controller) (env : Env) (w w1 : World)
    (req : Request) (ps : list Player) (imgs : list string) (i : nat) (p : Player) :
  processPlayersOf c env w req = (w1, PlayersOk ps imgs) ->
  nth_error ps i = Some p ->
  exists all raw,
    body_players (req_body req) = Some all
    /\ nth_error all i = Some (Some raw)
    /\ photoOf c env req i raw p.
Proof.
  intros Hp Hi.
  destruct (processPlayers_ok c env w w1 req ps imgs Hp) as (all & imgs' & Hall & Hloop & _).
  destruct (rosterLoop_placed env req c w w1 all ps imgs' Hall Hloop i p Hi)
    as (raw & Hraw & Hphoto).
  now exists all, raw.
Qed.

Lemma player_carries_photo_of_its_index_witness :
  exists all raw,
    body_players (req_body Sample.valid) = Some all
    /\ nth_error all 2 = Some (Some raw)
    /\ photoOf FileSystem Sample.env Sample.valid 2 raw
         (nth 2 (match snd (processPlayersOf FileSystem Sample.env Sample.onDisk
                              Sample.valid) with
                 | PlayersOk ps _ => ps
                 | PlayersFail _ => []
                 end)
              (mkPlayer "" (mkDate 0 0 0) None None None 0)).
Proof.
  eapply (player_carries_photo_of_its_index FileSystem Sample.env Sample.onDisk);
    vm_compute; reflexivity.
Defined.

(** ** The roster is the prefix before the first hole *)

Lemma nth_error_dense (ps : list RawPlayer) (k : nat) (raw : RawPlayer) :
  nth_error (dense ps) k = Some (Some raw) -> nth_error ps k = Some raw.
Proof.
  unfold dense. rewrite nth_error_map.
  destruct (nth_error ps k); simpl; congruence.
Qed.

Lemma densePrefix_dense (ps : list RawPlayer) : densePrefix (dense ps) = ps.
Proof. induction ps as [| raw ps IH]; simpl; [reflexivity | now rewrite IH]. Qed.

Section UploadsOfThePrefix.

Variable env : Env.
Variable files : list File.
Variable folder : string.

(** The image [id] is what uploading the file of some entry of [all]
    returned. *)
Let uploadedFor (all : list (option RawPlayer)) (id : string) : Prop :=
  exists i raw file result,
    nth_error all i = Some (Some raw)
    /\ findPlayerFile files i = Some file
    /\ uploadImageToCloudinary env (buffer file)
         (Cloud.playerFolder folder (raw_playerName raw) i) = Some result
    /\ id = public_id result.

Lemma cloud_playersLoop_images (requireIds : bool) :
  forall rest pre players imgs w w' ps' imgs',
    Forall (uploadedFor (pre ++ rest)%list) imgs ->
    Cloud.playersLoop env files requireIds folder rest (List.length pre) players imgs w
    = LoopDone w' ps' imgs' ->
    Forall (uploadedFor (pre ++ rest)%list) imgs'.
Proof.
  induction rest as [| [raw |] rest IH]; intros pre players imgs w w' ps' imgs' Himgs;
    simpl.
  - intros E. now injection E as _ _ <-.
  - destruct (Js.truthy (raw_playerName raw)); [| discriminate].
    destruct (raw_dateOfBirth raw) as [dob |]; [| discriminate].
    assert (Hhere : nth_error (pre ++ Some raw :: rest)%list (List.length pre)
                    = Some (Some raw))
      by (rewrite nth_error_app2, Nat.sub_diag by lia; reflexivity).
    replace (pre ++ Some raw :: rest)%list with ((pre ++ [Some raw]) ++ rest)%list in *
      by now rewrite <- app_assoc.
    replace (S (List.length pre)) with (List.length (pre ++ [Some raw])%list)
      by (rewrite length_app; simpl; lia).
    destruct (findPlayerFile files (List.length pre)) as [file |] eqn:Hf.
    + destruct (uploadImageToCloudinary env (buffer file) _) as [res |] eqn:Hup;
        [| discriminate].
      apply IH. apply Forall_app. split; [exact Himgs |].
      constructor; [| constructor].
      exists (List.length pre), raw, file, res. now repeat split.
    + destruct requireIds; [discriminate |]. now apply IH.
  - intros E. now injection E as _ _ <-.
Qed.

End UploadsOfThePrefix.

Lemma disk_playersLoop_no_images (files : list File) :
  forall rest i players w w' ps' imgs',
    Disk.playersLoop files rest i players w = LoopDone w' ps' imgs' -> imgs' = [].
Proof.
  induction rest as [| [raw |] rest IH]; intros i players w w' ps' imgs'; simpl.
  - intros E. now injection E as _ _ <-.
  - destruct (Js.truthy (raw_playerName raw)); [| discriminate].
    destruct (raw_dateOfBirth raw); [| discriminate].
    destruct (findPlayerFile files i); [| discriminate]. apply IH.
  - intros E. now injection E as _ _ <-.
Qed.

(** The error of a loop that returns early, on the array the loop ran
    on. *)
Lemma rosterLoop_error (c : Controller) (env : Env) (w w1 : World) (req : Request)
    (all : list (option RawPlayer)) (e : PlayersError) :
  body_players (req_body req) = Some all ->
  rosterLoopOf c env w req = EarlyReturn w1 e ->
  exists index raw,
    errorIndex e = Some index
    /\ nth_error all index = Some (Some raw)
    /\ (forall j, (j < index)%nat ->
                  exists r, nth_error all j = Some (Some r) /\ complete r = true)
    /\ reportedDefect c env req all e.
Proof.
  intros Hall Hloop. destruct c; simpl in Hloop.
  - unfold Cloud.rosterLoop in Hloop. rewrite Hall in Hloop.
    destruct (cloud_playersLoop_error _ _ _ _ _ _ _ _ _ _ _ Hloop)
      as (k & raw & Hi & Hn & Hbefore & Hdef).
    simpl in Hi. exists k, raw.
    split; [exact Hi | split; [exact Hn | split; [exact Hbefore |]]].
    destruct e; simpl in *; try contradiction; injection Hi as ->.
    + now exists raw.
    + destruct Hdef as (Hc & Hf & Ht). exists raw. repeat split; try assumption.
      intros _. now apply String.eqb_eq.
    + destruct Hdef as (Hc & file & Hf & Hup). exists raw, file. now repeat split.
  - unfold Disk.rosterLoop in Hloop. rewrite Hall in Hloop.
    destruct (disk_playersLoop_error _ _ _ _ _ _ _ Hloop)
      as (k & raw & Hi & Hn & Hbefore & Hdef).
    simpl in Hi. exists k, raw.
    split; [exact Hi | split; [exact Hn | split; [exact Hbefore |]]].
    destruct e; simpl in *; try contradiction; injection Hi as ->.
    + now exists raw.
    + destruct Hdef as (Hc & Hf). exists raw. repeat split; try assumption.
      discriminate.
Qed.

(** C10.  In both controllers the roster builder processes exactly the
    entries before the first index without a field group.  What is
    submitted after the hole is ignored: it changes neither the roster
    loop, nor the response, nor anything the handler leaves behind.  The
    entries before the hole are all processed: when the loop runs to its
    end, the roster holds one player for each of them, in order, with the
    photo posted for its index, the images the Cloudinary controller has
    uploaded are uploads of their files and of nothing else (the
    file-based loop stores nothing), and the size bounds are checked on
    their number; when the loop returns early, the error names one of
    them, the first with a defect. *)
Theorem roster_stops_at_first_gap (c : Controller) (env : Env) (w : World) (b : Body)
    (files : list File) (ps : list RawPlayer) (tail : list (option RawPlayer)) :
  let holed := mkRequest (withBodyPlayers b (Some (dense ps ++ None :: tail)%list)) files in
  let cut := mkRequest (withBodyPlayers b (Some (dense ps))) files in
  rosterLoopOf c env w holed = rosterLoopOf c env w cut
  /\ registerTeamOf c env w holed = registerTeamOf c env w cut
  /\ match rosterLoopOf c env w holed with
     | LoopDone w1 players imgs =>
         Forall2 builtFrom ps players
         /\ (forall i p,
                nth_error players i = Some p ->
                exists raw, nth_error ps i = Some raw /\ photoOf c env holed i raw p)
         /\ match c with
            | Cloudinary =>
                log w1 = (log w ++ map Uploaded imgs)%list
                /\ Forall (fun id =>
                             exists i raw file result,
                               nth_error ps i = Some raw
                               /\ findPlayerFile files i = Some file
                               /\ uploadImageToCloudinary env (buffer file)
                                    (Cloud.playerFolder
                                       (Js.replaceNonAlnum (body_teamName b) ++ "_"
                                          ++ generateTeamId env)
                                       (raw_playerName raw) i) = Some result
                               /\ id = public_id result) imgs
            | FileSystem => w1 = w /\ imgs = []
            end
         /\ snd (processPlayersOf c env w holed)
            = (if (List.length ps <? 5)%nat then PlayersFail MinPlayers
               else if (10 <? List.length ps)%nat then PlayersFail MaxPlayers
               else PlayersOk players imgs)
     | EarlyReturn w1 e =>
         exists index raw,
           errorIndex e = Some index
           /\ nth_error ps index = Some raw
           /\ (forall j, (j < index)%nat ->
                         exists r, nth_error ps j = Some r /\ complete r = true)
           /\ reportedDefect c env holed (dense ps) e
     end.
Proof.
  intros holed cut.
  assert (Hloop : rosterLoopOf c env w holed = rosterLoopOf c env w cut).
  { destruct c; simpl.
    - unfold Cloud.rosterLoop. simpl. apply cloud_playersLoop_gap.
    - unfold Disk.rosterLoop. simpl. apply disk_playersLoop_gap. }
  assert (Hproc : processPlayersOf c env w holed = processPlayersOf c env w cut).
  { destruct c; simpl in Hloop |- *.
    - unfold Cloud.processPlayersDataWithCloudinary. now rewrite Hloop.
    - unfold Disk.processPlayersData. now rewrite Hloop. }
  split; [exact Hloop | split].
  { destruct c; simpl in Hproc |- *.
    - unfold Cloud.registerTeam. unfold holed, cut in *.
      cbn [req_body req_files] in *. now rewrite Hproc.
    - unfold Disk.registerTeam. unfold holed, cut in *.
      cbn [req_body req_files] in *. now rewrite Hproc. }
  rewrite Hloop, Hproc.
  assert (Hall : body_players (req_body cut) = Some (dense ps)) by reflexivity.
  destruct (rosterLoopOf c env w cut) as [w1 e | w1 players imgs] eqn:Hcut.
  - destruct (rosterLoop_error c env w w1 cut (dense ps) e Hall Hcut)
      as (index & raw & Hi & Hn & Hbefore & Hdef).
    exists index, raw.
    split; [exact Hi | split; [now apply nth_error_dense | split]].
    + intros j Hj. destruct (Hbefore j Hj) as (r & Hr & Hc).
      exists r. split; [now apply nth_error_dense | exact Hc].
    + exact Hdef.
  - assert (Hbuilt : Forall2 builtFrom ps players).
    { destruct c; simpl in Hcut.
      - unfold Cloud.rosterLoop in Hcut. simpl in Hcut.
        destruct (cloud_playersLoop_built _ _ _ _ _ _ _ _ _ _ _ _ Hcut) as (tl & -> & H).
        now rewrite densePrefix_dense in H.
      - unfold Disk.rosterLoop in Hcut. simpl in Hcut.
        destruct (disk_playersLoop_built _ _ _ _ _ _ _ _ Hcut) as (tl & -> & H).
        now rewrite densePrefix_dense in H. }
    split; [exact Hbuilt | split; [| split]].
    + intros i p Hp.
      destruct (rosterLoop_placed env cut c w w1 (dense ps) players imgs Hall Hcut i p Hp)
        as (raw & Hraw & Hphoto).
      exists raw. split; [now apply nth_error_dense | exact Hphoto].
    + destruct c; simpl in Hcut.
      * unfold Cloud.rosterLoop in Hcut. simpl in Hcut. split.
        -- pose proof (cloud_playersLoop_inv env files
                         (body_tier b =? "high_school")%string
                         (Js.replaceNonAlnum (body_teamName b) ++ "_" ++ generateTeamId env)
                         w (dense ps) 0%nat [] [] w eq_refl eq_refl) as Hinv.
           simpl in Hinv. rewrite app_nil_r in Hinv. specialize (Hinv eq_refl).
           rewrite Hcut in Hinv. apply Hinv.
        -- pose proof (cloud_playersLoop_images env files
                         (Js.replaceNonAlnum (body_teamName b) ++ "_" ++ generateTeamId env)
                         (body_tier b =? "high_school")%string
                         (dense ps) [] [] [] w w1 players imgs (Forall_nil _) Hcut) as Himgs.
           simpl in Himgs. eapply Forall_impl; [| exact Himgs].
           intros id (i & raw & file & res & Hn & Hf & Hup & Hid).
           exists i, raw, file, res. split; [now apply nth_error_dense | now repeat split].
      * unfold Disk.rosterLoop in Hcut. simpl in Hcut.
        pose proof (disk_playersLoop_world files (dense ps) 0%nat [] w) as Hw.
        rewrite Hcut in Hw. split; [exact Hw |].
        exact (disk_playersLoop_no_images _ _ _ _ _ _ _ _ Hcut).
    + rewrite (Forall2_length Hbuilt).
      destruct c; simpl in Hcut |- *.
      * unfold Cloud.processPlayersDataWithCloudinary. cbn [req_body req_files].
        rewrite Hcut. unfold Cloud.validateCount.
        destruct (List.length players <? 5)%nat; [reflexivity |].
        now destruct (10 <? List.length players)%nat.
      * unfold Disk.processPlayersData. cbn [req_body req_files].
        rewrite Hcut. unfold Disk.validateCount.
        destruct (List.length players <? 5)%nat; [reflexivity |].
        destruct (10 <? List.length players)%nat; [reflexivity |].
        unfold Disk.rosterLoop in Hcut. simpl in Hcut.
        now rewrite (disk_playersLoop_no_images _ _ _ _ _ _ _ _ Hcut).
Qed.

Lemma roster_stops_at_first_gap_witness :
  exists w1 players imgs,
    rosterLoopOf Cloudinary Sample.env Sample.empty Sample.gapped
    = LoopDone w1 players imgs
    /\ Forall2 builtFrom (densePrefix Sample.five) players
    /\ snd (processPlayersOf Cloudinary Sample.env Sample.empty Sample.gapped)
       = PlayersOk players imgs.
Proof.
  pose proof (roster_stops_at_first_gap Cloudinary Sample.env Sample.empty
                (Sample.body "middle" None) Sample.photos5 (densePrefix Sample.five)
                (Sample.five ++ [Sample.kid "Ghazi" 2013])%list) as H.
  cbv zeta in H. destruct H as (_ & _ & H).
  change (mkRequest _ _) with Sample.gapped in H.
  destruct (rosterLoopOf Cloudinary Sample.env Sample.empty Sample.gapped)
    as [w1 e | w1 players imgs] eqn:E; [vm_compute in E; discriminate |].
  destruct H as (Hbuilt & _ & _ & Hcount).
  exists w1, players, imgs. split; [reflexivity | split; [exact Hbuilt | exact Hcount]].
Defined.

(** ** The cleanups of the file-based controller *)

Lemma deleteAll_unlinked (env : Env) (w w1 : World) (refs : list string)
    (before : list Event) :
  teams w1 = teams w -> uploads w1 = uploads w ->
  log w1 = (log w ++ before)%list ->
  deletedRefs before = [] -> uploadedRefs before = [] ->
  unlinked env w (deleteAll env refs w1) refs.
Proof.
  intros Ht Hu Hl Hd Hup. split; [| split].
  - now rewrite deleteAll_teams.
  - exists (before ++ map (deleteEvent env) refs)%list.
    rewrite deleteAll_log, Hl, <- app_assoc.
    rewrite deletedRefs_app, uploadedRefs_app, Hd, Hup, deletedRefs_deleteEvent,
      uploadedRefs_deleteEvent.
    now repeat split.
  - intros Hok. now rewrite deleteAll_uploads, Hu.
Qed.

(** X5.  The two failures on which the file-based handler does clean
    up, besides the age check.  On a server error (a rejected duplicate
    query or save) it calls an unlink on every file of the request; on a
    roster of fewer than five or more than ten players it calls an unlink
    on the photo of every player the loop built.  Nothing is persisted
    either way, and with a store that carries the deletes out these files
    are gone. *)
Theorem disk_cleanup_on_count_and_server_errors (env : Env) (w : World) (req : Request) :
  let (w', r) := Disk.registerTeam env w req in
  match r with
  | ServerError => unlinked env w w' (map path (req_files req))
  | PlayerDataError MinPlayers | PlayerDataError MaxPlayers =>
      exists ps imgs,
        rosterLoopOf FileSystem env w req = LoopDone w ps imgs
        /\ (List.length ps < 5 \/ 10 < List.length ps)%nat
        /\ unlinked env w w' (Disk.photoPaths ps)
  | _ => True
  end.
Proof.
  unfold Disk.registerTeam.
  destruct (missingRequired (req_body req)); [exact I |].
  destruct (validEmergencyContact (req_body req)) as [ec |]; [| exact I].
  unfold Disk.processPlayersData. simpl rosterLoopOf.
  pose proof (disk_playersLoop_world (req_files req)) as Hw.
  unfold Disk.rosterLoop.
  destruct (body_players (req_body req)) as [all |]; [| exact I].
  specialize (Hw all 0%nat [] w).
  destruct (Disk.playersLoop (req_files req) all 0 [] w) as [w1 e | w1 ps imgs]
    eqn:Hloop; subst w1.
  { destruct (disk_playersLoop_error _ _ _ _ _ _ _ Hloop) as (k & raw & Hi & _).
    destruct e; try exact I; discriminate. }
  assert (Hclean : forall refs, unlinked env w (deleteAll env refs w) refs).
  { intros refs. apply (deleteAll_unlinked env w w refs []); trivial.
    now rewrite app_nil_r. }
  assert (Hclean' : forall refs, unlinked env w (deleteAll env refs (emit Queried w)) refs).
  { intros refs. now apply (deleteAll_unlinked env w (emit Queried w) refs [Queried]). }
  unfold Disk.validateCount, Disk.cleanupUploadedFiles.
  destruct (List.length ps <? 5)%nat eqn:E5.
  { apply Nat.ltb_lt in E5. exists ps, imgs. split; [reflexivity | split; [now left |]].
    apply Hclean. }
  destruct (10 <? List.length ps)%nat eqn:E10.
  { apply Nat.ltb_lt in E10. exists ps, imgs. split; [reflexivity | split; [now right |]].
    apply Hclean. }
  unfold Disk.cleanupRequestFiles.
  destruct (findOneOk env); cbn [negb]; [| apply Hclean].
  destruct (TeamModel.findOne _ _ _); [exact I |].
  destruct (TeamModel.validatePlayerAgesForTier env _); cbn [negb]; [| exact I].
  destruct (saveOk env _); cbn [negb]; [| apply Hclean'].
  cbv zeta. destruct (Disk.updateFilePathsWithTeamId env _ _). exact I.
Qed.

Lemma disk_cleanup_on_count_and_server_errors_witness :
  (let (w', r) := Disk.registerTeam repositoryDown Sample.onDisk Sample.valid in
   r = ServerError /\ unlinked repositoryDown Sample.onDisk w' (map path Sample.photos5))
  /\ (let (w', r) := Disk.registerTeam Sample.env Sample.fourOnDisk Sample.tooFew in
      r = PlayerDataError MinPlayers /\ uploads w' = []).
Proof.
  split.
  - pose proof (disk_cleanup_on_count_and_server_errors repositoryDown Sample.onDisk
                  Sample.valid) as H.
    destruct (Disk.registerTeam repositoryDown Sample.onDisk Sample.valid) as [w' r] eqn:E.
    vm_compute in E. injection E as <- <-. split; [reflexivity | exact H].
  - pose proof (disk_cleanup_on_count_and_server_errors Sample.env Sample.fourOnDisk
                  Sample.tooFew) as H.
    destruct (Disk.registerTeam Sample.env Sample.fourOnDisk Sample.tooFew) as [w' r] eqn:E.
    vm_compute in E. injection E as <- <-. split; [reflexivity |].
    destruct H as (ps & imgs & Hloop & _ & _ & _ & Hgone).
    vm_compute in Hloop. injection Hloop as <- _.
    exact (Hgone (fun _ => eq_refl)).
Defined.

(** ** Which mails a submission sends *)

Lemma mailsOf_app (l1 l2 : list Event) :
  mailsOf (l1 ++ l2) = (mailsOf l1 ++ mailsOf l2)%list.
Proof. apply flat_map_app. Qed.

Lemma noMail_refl (w : World) : noMailBetween w w.
Proof. exists []. now rewrite app_nil_r. Qed.

Lemma noMail_trans (w1 w2 w3 : World) :
  noMailBetween w1 w2 -> noMailBetween w2 w3 -> noMailBetween w1 w3.
Proof.
  intros (d1 & H1 & M1) (d2 & H2 & M2). exists (d1 ++ d2)%list.
  split; [now rewrite H2, H1, <- app_assoc | now rewrite mailsOf_app, M1, M2].
Qed.

Lemma noMail_emit (e : Event) (w : World) :
  mailsOf [e] = [] -> noMailBetween w (emit e w).
Proof. intros He. now exists [e]. Qed.

Lemma noMail_event (e : Event) (w w' : World) :
  log w' = (log w ++ [e])%list -> mailsOf [e] = [] -> noMailBetween w w'.
Proof. intros Hl He. now exists [e]. Qed.

Lemma noMail_deleteAll (env : Env) (refs : list string) (w : World) :
  noMailBetween w (deleteAll env refs w).
Proof.
  exists (map (deleteEvent env) refs). split; [apply deleteAll_log |].
  induction refs as [| r refs IH]; simpl; [reflexivity |].
  unfold deleteEvent at 1. now destruct (deleteOk env r).
Qed.

Lemma noMail_cleanupCloudinaryImages (env : Env) (ids : list string) (w : World) :
  noMailBetween w (Cloud.cleanupCloudinaryImages env ids w).
Proof. rewrite cloud_cleanup_deleteAll. apply noMail_deleteAll. Qed.

Lemma cloud_playersLoop_noMail (env : Env) (files : list File) (requireIds : bool)
    (folder : string) :
  forall rest i players imgs w,
    match Cloud.playersLoop env files requireIds folder rest i players imgs w with
    | EarlyReturn w' _ | LoopDone w' _ _ => noMailBetween w w'
    end.
Proof.
  induction rest as [| [raw |] rest IH]; intros i players imgs w; simpl;
    try apply noMail_refl.
  destruct (Js.truthy (raw_playerName raw)); [| apply noMail_cleanupCloudinaryImages].
  destruct (raw_dateOfBirth raw) as [dob |]; [| apply noMail_cleanupCloudinaryImages].
  destruct (findPlayerFile files i) as [file |].
  - destruct (uploadImageToCloudinary env (buffer file) _) as [res |];
      [| apply noMail_cleanupCloudinaryImages].
    match goal with
    | |- match Cloud.playersLoop _ _ _ _ _ ?i' ?ps ?im ?w1 with _ => _ end =>
        specialize (IH i' ps im w1);
        destruct (Cloud.playersLoop env files requireIds folder rest i' ps im w1)
    end;
      (eapply noMail_trans; [| exact IH]);
      exact (noMail_emit (Uploaded (public_id res))
               (mkWorld (teams w) (public_id res :: uploads w) (log w)) eq_refl).
  - destruct requireIds; [apply noMail_cleanupCloudinaryImages | apply IH].
Qed.

Lemma cloud_processPlayers_noMail (env : Env) (body : Body) (files : list File)
    (id : string) (w : World) :
  noMailBetween w (fst (Cloud.processPlayersDataWithCloudinary env body files id w)).
Proof.
  unfold Cloud.processPlayersDataWithCloudinary, Cloud.rosterLoop.
  destruct (body_players body) as [all |]; [| apply noMail_refl].
  match goal with
  | |- context [Cloud.playersLoop ?e ?f ?r ?d ?a ?i ?ps ?im ?w0] =>
      pose proof (cloud_playersLoop_noMail e f r d a i ps im w0) as H;
      destruct (Cloud.playersLoop e f r d a i ps im w0) as [w' e' | w' ps' imgs']
  end; [exact H |].
  unfold Cloud.validateCount.
  destruct (List.length ps' <? 5)%nat;
    [eapply noMail_trans; [exact H | apply noMail_cleanupCloudinaryImages] |].
  destruct (10 <? List.length ps')%nat;
    [eapply noMail_trans; [exact H | apply noMail_cleanupCloudinaryImages] |].
  exact H.
Qed.

Lemma disk_processPlayers_noMail (env : Env) (body : Body) (files : list File)
    (w : World) :
  noMailBetween w (fst (Disk.processPlayersData env body files w)).
Proof.
  unfold Disk.processPlayersData, Disk.rosterLoop.
  destruct (body_players body) as [all |]; [| apply noMail_refl].
  pose proof (disk_playersLoop_world files all 0%nat [] w) as H.
  destruct (Disk.playersLoop files all 0 [] w) as [w' e | w' ps imgs]; subst w';
    [apply noMail_refl |].
  unfold Disk.validateCount, Disk.cleanupUploadedFiles.
  destruct (List.length ps <? 5)%nat; [apply noMail_deleteAll |].
  destruct (10 <? List.length ps)%nat; [apply noMail_deleteAll |].
  apply noMail_refl.
Qed.

Lemma disk_renameLoop_noMail (env : Env) (id : string) :
  forall rest moved w,
    noMailBetween w (fst (fst (Disk.renameLoop env id rest moved w))).
Proof.
  induction rest as [| player rest IH]; intros moved w; simpl; [apply noMail_refl |].
  destruct (idPhotoUrl player) as [oldPath |]; [| apply noMail_refl].
  destruct (existsb (String.eqb oldPath) (uploads w)); [| apply noMail_refl].
  eapply noMail_trans; [| apply IH].
  eapply noMail_event; reflexivity.
Qed.

Lemma disk_updateFilePaths_noMail (env : Env) (team : Team) (w : World) :
  noMailBetween w (fst (Disk.updateFilePathsWithTeamId env team w)).
Proof.
  unfold Disk.updateFilePathsWithTeamId.
  pose proof (disk_renameLoop_noMail env (teamId team) (players team) [] w) as H.
  destruct (Disk.renameLoop _ _ _ _ _) as [[w1 ps] completed]. simpl in H.
  destruct (completed && saveOk env (Disk.withPlayers team ps)); simpl; [| exact H].
  eapply noMail_trans; [exact H |]. eapply noMail_event; reflexivity.
Qed.

Lemma disk_updateFilePaths_fields (env : Env) (team : Team) (w : World) :
  exists ps, snd (Disk.updateFilePathsWithTeamId env team w) = Disk.withPlayers team ps.
Proof.
  unfold Disk.updateFilePathsWithTeamId.
  destruct (Disk.renameLoop _ _ _ _ _) as [[w1 ps] completed]. exists ps.
  now destruct (completed && saveOk env (Disk.withPlayers team ps)).
Qed.

(** The two mails of a team after a stretch without mail. *)
Lemma two_mails (env : Env) (b : Body) (team : Team) (w w1 : World) :
  coachEmail team = Js.toLowerCase (body_coachEmail b) ->
  teamName team = body_teamName b ->
  noMailBetween w w1 ->
  exists during,
    log (sendAdminNotificationEmail env team (sendTeamConfirmationEmail env team w1))
    = (log w ++ during)%list
    /\ mailsOf during = mailsFor b.
Proof.
  intros He Hn (d & Hl & Hm).
  unfold sendAdminNotificationEmail, sendTeamConfirmationEmail. rewrite He, Hn.
  destruct (dispatch_log env (CoachConfirmation (Js.toLowerCase (body_coachEmail b))
                               (body_teamName b)) w1) as (e1 & Hl1 & Hm1 & _).
  destruct (dispatch_log env (AdminNotification (body_teamName b))
              (dispatch env (CoachConfirmation (Js.toLowerCase (body_coachEmail b))
                               (body_teamName b)) w1)) as (e2 & Hl2 & Hm2 & _).
  exists (d ++ [e1] ++ [e2])%list. rewrite Hl2, Hl1, Hl, <- !app_assoc.
  split; [reflexivity |].
  rewrite !mailsOf_app, Hm, Hm1, Hm2. reflexivity.
Qed.

(** X6.  In both controllers a submission that fails attempts no mail,
    and one that succeeds attempts exactly two, delivered or not: the
    confirmation, addressed to the lowercased coach email, and then the
    notification of the administrators. *)
Theorem mails_follow_success (c : Controller) (env : Env) (w : World) (req : Request) :
  let (w', r) := registerTeamOf c env w req in
  exists during,
    log w' = (log w ++ during)%list
    /\ mailsOf during = if isSuccess r then mailsFor (req_body req) else [].
Proof.
  assert (Hq : forall w1, noMailBetween w w1 -> noMailBetween w (emit Queried w1)).
  { intros w1 H. eapply noMail_trans; [exact H | now apply noMail_emit]. }
  assert (Hd : forall refs w1, noMailBetween w w1 ->
                               noMailBetween w (deleteAll env refs w1)).
  { intros refs w1 H. eapply noMail_trans; [exact H | apply noMail_deleteAll]. }
  destruct c; simpl.
  - unfold Cloud.registerTeam.
    destruct (missingRequired (req_body req)); [apply noMail_refl |].
    destruct (validEmergencyContact (req_body req)) as [ec |]; [| apply noMail_refl].
    pose proof (cloud_processPlayers_noMail env (req_body req) (req_files req)
                  (generateTeamId env) w) as H1.
    destruct (Cloud.processPlayersDataWithCloudinary _ _ _ _ _)
      as [w1 [players imgs | e]]; simpl in H1; [| exact H1].
    destruct (findOneOk env); cbn [negb];
      [| rewrite cloud_cleanup_deleteAll; now apply Hd].
    destruct (TeamModel.findOne _ _ _);
      [rewrite cloud_cleanup_deleteAll; now apply Hd, Hq |].
    destruct (TeamModel.validatePlayerAgesForTier env _); cbn [negb];
      [| rewrite cloud_cleanup_deleteAll; now apply Hd, Hq].
    destruct (saveOk env _); cbn [negb];
      [| rewrite cloud_cleanup_deleteAll; now apply Hd, Hq].
    cbv zeta. cbn [isSuccess].
    apply two_mails; try reflexivity.
    eapply noMail_trans; [apply Hq, H1 |]. eapply noMail_event; reflexivity.
  - unfold Disk.registerTeam.
    destruct (missingRequired (req_body req)); [apply noMail_refl |].
    destruct (validEmergencyContact (req_body req)) as [ec |]; [| apply noMail_refl].
    pose proof (disk_processPlayers_noMail env (req_body req) (req_files req) w) as H1.
    destruct (Disk.processPlayersData _ _ _ _) as [w1 [players imgs | e]];
      simpl in H1; [| exact H1].
    unfold Disk.cleanupRequestFiles, Disk.cleanupUploadedFiles.
    destruct (findOneOk env); cbn [negb]; [| now apply Hd].
    destruct (TeamModel.findOne _ _ _); [now apply Hq |].
    destruct (TeamModel.validatePlayerAgesForTier env _); cbn [negb];
      [| now apply Hd, Hq].
    destruct (saveOk env _); cbn [negb]; [| now apply Hd, Hq].
    cbv zeta.
    match goal with
    | |- context [Disk.updateFilePathsWithTeamId env ?t ?w3] =>
        pose proof (disk_updateFilePaths_noMail env t w3) as H4;
        destruct (disk_updateFilePaths_fields env t w3) as [ps' Hf];
        destruct (Disk.updateFilePathsWithTeamId env t w3) as [w4 team']
    end.
    simpl in H4, Hf. subst team'. cbn [isSuccess].
    apply two_mails; try reflexivity.
    eapply noMail_trans; [| exact H4].
    eapply noMail_trans; [apply Hq, H1 |]. eapply noMail_event; reflexivity.
Qed.

(** ** A registered team cannot be registered again *)

(** The team a successful submission leaves in the repository answers
    the duplicate query of its own coach email and team name. *)
Lemma registerTeam_success_findable (c : Controller) (env : Env) (w w' : World)
    (req : Request) (id : string) (ins : option Instructions) :
  registerTeamOf c env w req = (w', Success id ins) ->
  exists t, In t (teams w')
            /\ TeamModel.matchesDuplicate
                 (Js.toLowerCase (body_coachEmail (req_body req)))
                 (body_teamName (req_body req)) t = true.
Proof.
  intros Hr.
  assert (Hmatch : forall ec ps ps',
             TeamModel.matchesDuplicate
               (Js.toLowerCase (body_coachEmail (req_body req)))
               (body_teamName (req_body req))
               (Disk.withPlayers
                  (TeamModel.calculatePlayerAges env
                     (newTeam env (req_body req) ec (generateTeamId env) ps)) ps')
             = true).
  { intros ec ps ps'. unfold TeamModel.matchesDuplicate. simpl.
    now rewrite !String.eqb_refl. }
  destruct c; simpl in Hr.
  - destruct (cloud_registerTeam_success env w w' req id ins Hr)
      as (ec & w1 & ps & imgs & _ & _ & _ & _ & _ & Hteam).
    cbv zeta in Hteam. destruct Hteam as (_ & _ & -> & _).
    eexists. split.
    + unfold sendAdminNotificationEmail, sendTeamConfirmationEmail.
      rewrite !dispatch_teams. simpl. apply in_or_app. right. now left.
    + exact (Hmatch ec ps (map _ ps)).
  - destruct (disk_registerTeam_success env w w' req id ins Hr)
      as (ec & ps & imgs & w4 & team' & _ & _ & _ & _ & _ & Hteam).
    cbv zeta in Hteam. destruct Hteam as (_ & _ & Hup & -> & _).
    pose proof (disk_updateFilePaths_spec env
                  (TeamModel.calculatePlayerAges env
                     (newTeam env (req_body req) ec (generateTeamId env) ps))
                  (emit Queried w)) as Hspec.
    rewrite Hup in Hspec. destruct Hspec as (ps' & -> & _ & Hteams).
    unfold sendAdminNotificationEmail, sendTeamConfirmationEmail.
    rewrite !dispatch_teams.
    destruct Hteams as [-> | ->]; eexists;
      (split; [apply in_or_app; right; now left |]).
    + exact (Hmatch ec ps (map _ ps)).
    + exact (Hmatch ec ps ps').
Qed.

Lemma registerTeam_success_no_duplicate (c : Controller) (env : Env) (w w' : World)
    (req : Request) (id : string) (ins : option Instructions) :
  registerTeamOf c env w req = (w', Success id ins) -> duplicateOf w req = None.
Proof.
  intros Hr. destruct c; simpl in Hr.
  - now destruct (cloud_registerTeam_success env w w' req id ins Hr)
      as (ec & w1 & ps & imgs & _ & _ & _ & _ & Hdup & _).
  - now destruct (disk_registerTeam_success env w w' req id ins Hr)
      as (ec & ps & imgs & w4 & team' & _ & _ & _ & _ & Hdup & _).
Qed.

(** X7.  Once a submission has succeeded, a second one under the same
    team name and a coach email that differs at most in the case of its
    letters does not succeed, in either controller and whatever the rest
    of the request and the collaborators are: its duplicate query finds
    the team the first one persisted (which the schema creates
    pending). *)
Theorem registered_team_blocks_resubmission (c c' : Controller) (env env' : Env)
    (w w' : World) (req req' : Request) (id : string) (ins : option Instructions) :
  registerTeamOf c env w req = (w', Success id ins) ->
  body_teamName (req_body req') = body_teamName (req_body req) ->
  Js.toLowerCase (body_coachEmail (req_body req'))
  = Js.toLowerCase (body_coachEmail (req_body req)) ->
  duplicateOf w' req' <> None
  /\ isSuccess (snd (registerTeamOf c' env' w' req')) = false.
Proof.
  intros Hr Hname Hmail.
  destruct (registerTeam_success_findable c env w w' req id ins Hr) as (t & Hin & Ht).
  assert (Hdup : duplicateOf w' req' <> None).
  { unfold duplicateOf, TeamModel.findOne. rewrite Hname, Hmail. intros Hnone.
    pose proof (find_none _ _ Hnone t Hin) as Hf. congruence. }
  split; [exact Hdup |].
  destruct (registerTeamOf c' env' w' req') as [w'' r] eqn:Hr'.
  destruct r; try reflexivity.
  apply registerTeam_success_no_duplicate in Hr'. contradiction.
Qed.

Lemma registered_team_blocks_resubmission_witness :
  let again := mkRequest (withCoachEmail (req_body Sample.valid) "COACH@EXAMPLE.ORG")
                 Sample.photos5 in
  duplicateOf Sample.registered again <> None
  /\ isSuccess (snd (registerTeamOf FileSystem Sample.rejecting Sample.registered again))
     = false.
Proof.
  intros again.
  eapply (registered_team_blocks_resubmission Cloudinary FileSystem Sample.env
            Sample.rejecting Sample.empty Sample.registered Sample.valid again);
    vm_compute; reflexivity.
Defined.

(** ** Moving the photos into the team's folder *)

Lemma repathed_refl (env : Env) (id : string) (p : Player) : repathed env id p p.
Proof. unfold repathed. repeat split. now left. Qed.

Lemma Forall2_repathed_refl (env : Env) (id : string) (ps : list Player) :
  Forall2 (repathed env id) ps ps.
Proof. induction ps; constructor; [apply repathed_refl | assumption]. Qed.

Lemma disk_renameLoop_repathed (env : Env) (id : string) :
  forall rest moved w,
    match Disk.renameLoop env id rest moved w with
    | (w', ps, _) =>
        exists tail,
          ps = (moved ++ tail)%list /\ Forall2 (repathed env id) rest tail
    end.
Proof.
  induction rest as [| player rest IH]; intros moved w; simpl.
  - exists []. now rewrite app_nil_r.
  - destruct (idPhotoUrl player) as [oldPath |] eqn:Hurl.
    + destruct (existsb (String.eqb oldPath) (uploads w)) eqn:Hin.
      * specialize (IH (moved ++ [Disk.withPhotoUrl player (teamIdPath env id oldPath)])%list
                       (renameUpload oldPath (teamIdPath env id oldPath) w)).
        destruct (Disk.renameLoop _ _ _ _ _) as [[w' ps] ok].
        destruct IH as (tail & -> & Hall).
        exists (Disk.withPhotoUrl player (teamIdPath env id oldPath) :: tail).
        rewrite <- app_assoc. split; [reflexivity |].
        constructor; [| exact Hall]. unfold repathed. simpl.
        repeat split. right. now exists oldPath.
      * exists (player :: rest). split; [reflexivity | apply Forall2_repathed_refl].
    + exists (player :: rest). split; [reflexivity | apply Forall2_repathed_refl].
Qed.

(** X8.  [updateFilePathsWithTeamId] changes nothing of a team but the
    paths of its photos, whether its loop completes or a failed rename
    ends it: the team it leaves has the same fields and the same players
    in the same order, each with its photo path as it was or replaced by
    the path in the team's folder. *)
Theorem updateFilePaths_only_moves_photos (env : Env) (team : Team) (w : World) :
  let (w', team') := Disk.updateFilePathsWithTeamId env team w in
  team' = Disk.withPlayers team (players team')
  /\ Forall2 (repathed env (teamId team)) (players team) (players team').
Proof.
  unfold Disk.updateFilePathsWithTeamId.
  pose proof (disk_renameLoop_repathed env (teamId team) (players team) [] w) as H.
  destruct (Disk.renameLoop _ _ _ _ _) as [[w1 ps] completed].
  destruct H as (tail & -> & Hall). simpl app in *.
  now destruct (completed && saveOk env (Disk.withPlayers team tail)).
Qed.

(** ** The names multer gives the photos *)

Lemma string_of_uint_digits (d : Decimal.uint) :
  allChars Multer.isDigit (NilEmpty.string_of_uint d) = true.
Proof. induction d; simpl; try reflexivity; exact IHd. Qed.

Lemma ofNat_digits (n : nat) : allChars Multer.isDigit (Js.ofNat n) = true.
Proof. apply string_of_uint_digits. Qed.

Lemma ofNat_nonempty (n : nat) : Js.ofNat n <> "".
Proof.
  unfold Js.ofNat. intros H.
  assert (Hn : Nat.to_uint n <> Decimal.Nil).
  { rewrite <- (DecimalNat.Unsigned.of_to n) at 1. rewrite DecimalNat.Unsigned.to_of.
    apply DecimalFacts.unorm_nonnil. }
  destruct (Nat.to_uint n); try discriminate. now apply Hn.
Qed.

Lemma ofNat_inj (i j : nat) : Js.ofNat i = Js.ofNat j -> i = j.
Proof.
  unfold Js.ofNat. intros H.
  apply (f_equal NilEmpty.uint_of_string) in H. rewrite !NilEmpty.usu in H.
  injection H as H. now apply DecimalNat.Unsigned.to_uint_inj.
Qed.

(** The digits a string starts with are read in full, up to the first
    character that is not a digit. *)
Lemma spanDigits_app (s t : string) :
  allChars Multer.isDigit s = true ->
  match t with
  | EmptyString => True
  | String c _ => Multer.isDigit c = false
  end ->
  Multer.spanDigits (s ++ t) = (s, t).
Proof.
  intros Hs Ht. induction s as [| c s IH]; simpl in *.
  - destruct t as [| c r]; [reflexivity |]. simpl. now rewrite Ht.
  - apply andb_true_iff in Hs. destruct Hs as [Hc Hs].
    rewrite Hc, (IH Hs). reflexivity.
Qed.

Lemma matchBracketedDigits_skip (c : ascii) (r : string) :
  (nat_of_ascii c =? 91)%nat = false ->
  Multer.matchBracketedDigits (String c r) = Multer.matchBracketedDigits r.
Proof. intros H. simpl. now rewrite H. Qed.

Lemma matchBracketedDigits_open (c c' : ascii) (r digits rest : string) :
  (nat_of_ascii c =? 91)%nat = true ->
  (nat_of_ascii c' =? 93)%nat = true ->
  digits <> "" ->
  Multer.spanDigits r = (digits, String c' rest) ->
  Multer.matchBracketedDigits (String c r) = Some digits.
Proof.
  intros Hc Hc' Hne Hspan. simpl. rewrite Hc, Hspan.
  destruct digits as [| d ds]; [contradiction |]. now rewrite Hc'.
Qed.

Lemma playerIndexOf_idPhotoField (i : nat) :
  Multer.playerIndexOf (idPhotoField i) = Js.ofNat i.
Proof.
  unfold Multer.playerIndexOf, idPhotoField.
  generalize (ofNat_digits i) (ofNat_nonempty i).
  generalize (Js.ofNat i). intros digits Hd Hne.
  change ("players[" ++ digits ++ "][idPhoto]")
    with (String "p" (String "l" (String "a" (String "y" (String "e" (String "r"
           (String "s" (String "[" (digits ++ "][idPhoto]"))))))))).
  rewrite !matchBracketedDigits_skip by (vm_compute; reflexivity).
  rewrite (matchBracketedDigits_open "[" "]" (digits ++ "][idPhoto]") digits "[idPhoto]");
    try reflexivity; try assumption.
  now apply spanDigits_app.
Qed.

(** X9.  The file multer stores for the field [players[i][idPhoto]] is
    named [player-i-timestamp.ext], so the files of two different
    players never get the same name, whatever their timestamps and
    extensions. *)
Theorem multer_names_photo_by_player_index (i j timestamp timestamp' : nat)
    (ext ext' : string) :
  Multer.filename (idPhotoField i) timestamp ext
  = "player-" ++ Js.ofNat i ++ "-" ++ Js.ofNat timestamp ++ ext
  /\ (i <> j ->
      Multer.filename (idPhotoField i) timestamp ext
      <> Multer.filename (idPhotoField j) timestamp' ext').
Proof.
  unfold Multer.filename. rewrite !playerIndexOf_idPhotoField.
  split; [reflexivity |].
  intros Hij H. apply Hij.
  assert (Hcut : forall s a b : string, s ++ a = s ++ b -> a = b).
  { induction s as [| c s IH]; simpl; intros a b E; [exact E |].
    injection E as E. now apply IH. }
  apply Hcut in H. apply (f_equal Multer.spanDigits) in H.
  rewrite (spanDigits_app (Js.ofNat i) ("-" ++ Js.ofNat timestamp ++ ext)
             (ofNat_digits i) eq_refl) in H.
  rewrite (spanDigits_app (Js.ofNat j) ("-" ++ Js.ofNat timestamp' ++ ext')
             (ofNat_digits j) eq_refl) in H.
  injection H as H _. now apply ofNat_inj.
Qed.

Lemma multer_names_photo_by_player_index_witness :
  Multer.filename (idPhotoField 3) 1762 ".png" = "player-3-1762.png"
  /\ Multer.filename (idPhotoField 3) 1762 ".png"
     <> Multer.filename (idPhotoField 4) 1762 ".png".
Proof.
  destruct (multer_names_photo_by_player_index 3 4 1762 1762 ".png" ".png")
    as [Hname Hdiff].
  split; [exact Hname | apply Hdiff; lia].
Defined.

(** ** The registration form *)

Lemma append_cancel_l (s a b : string) : s ++ a = s ++ b -> a = b.
Proof.
  induction s as [| c s IH]; simpl; intros E; [exact E |].
  injection E as E. now apply IH.
Qed.

(** The index a field name of the form carries can be read back. *)
Lemma players_field_inj (i j : nat) (s t : string) :
  match s with EmptyString => True | String c _ => Multer.isDigit c = false end ->
  match t with EmptyString => True | String c _ => Multer.isDigit c = false end ->
  "players[" ++ Js.ofNat i ++ s = "players[" ++ Js.ofNat j ++ t -> i = j.
Proof.
  intros Hs Ht H. apply append_cancel_l in H.
  apply (f_equal Multer.spanDigits) in H.
  rewrite (spanDigits_app _ _ (ofNat_digits i) Hs) in H.
  rewrite (spanDigits_app _ _ (ofNat_digits j) Ht) in H.
  injection H as H _. now apply ofNat_inj.
Qed.

Lemma nameFieldOf_inj (i j : nat) : Form.nameFieldOf i = Form.nameFieldOf j -> i = j.
Proof. now apply players_field_inj. Qed.

Lemma idPhotoField_inj (i j : nat) : idPhotoField i = idPhotoField j -> i = j.
Proof. now apply players_field_inj. Qed.

Section FormInvariant.

Import Form.

Lemma canonical_createPlayerCard (n : nat) : canonical n (createPlayerCard (S n)).
Proof.
  unfold canonical, createPlayerCard. simpl. rewrite Nat.sub_0_r, Nat.add_1_r.
  now repeat split.
Qed.

(** On a card that is numbered and named after [index] already, the body
    of the [forEach] changes nothing before it throws. *)
Lemma renumberCard_fixed (index : nat) (card : Card) :
  canonical index card -> renumberCard index card = card.
Proof.
  destruct card as [n nf df ff b nm dob file].
  unfold canonical, renumberCard. simpl.
  now intros (-> & -> & -> & -> & _).
Qed.

Lemma removeAt_length (cs : list Card) :
  forall k, (k < List.length cs)%nat ->
            List.length (removeAt k cs) = (List.length cs - 1)%nat.
Proof.
  induction cs as [| c cs IH]; intros k Hk; simpl in *; [lia |].
  destruct k as [| k]; simpl; [lia |].
  rewrite IH by lia. lia.
Qed.

Lemma removeAt_nth (cs : list Card) :
  forall k i,
    nth_error (removeAt k cs) i
    = nth_error cs (if (i <? k)%nat then i else S i).
Proof.
  induction cs as [| c cs IH]; intros k i; simpl.
  - destruct (i <? k)%nat; destruct k, i; reflexivity.
  - destruct k as [| k]; [reflexivity |].
    destruct i as [| i]; [reflexivity |]. simpl nth_error. rewrite IH.
    change (S i <? S k)%nat with (i <? k)%nat.
    now destruct (i <? k)%nat.
Qed.

(** A card the removal of the card at [k] leaves was at another
    position. *)
Lemma removeAt_In (cs : list Card) (k : nat) (card : Card) :
  In card (removeAt k cs) ->
  exists j, j <> k /\ nth_error cs j = Some card.
Proof.
  intros Hin. apply In_nth_error in Hin. destruct Hin as [i Hi].
  rewrite removeAt_nth in Hi.
  destruct (i <? k)%nat eqn:E.
  - apply Nat.ltb_lt in E. exists i. split; [lia | exact Hi].
  - apply Nat.ltb_ge in E. exists (S i). split; [lia | exact Hi].
Qed.

Lemma enterAt_length (i : Input) (cs : list Card) :
  forall k, List.length (enterAt k i cs) = List.length cs.
Proof.
  induction cs as [| c cs IH]; intros k; destruct k; simpl; try reflexivity.
  now rewrite IH.
Qed.

(** An input changes what is entered in one card and nothing else of
    any card. *)
Lemma enterAt_nth (i : Input) (cs : list Card) :
  forall k n card,
    nth_error (enterAt k i cs) n = Some card ->
    exists card0,
      nth_error cs n = Some card0
      /\ card_number card = card_number card0
      /\ card_nameField card = card_nameField card0
      /\ card_dobField card = card_dobField card0
      /\ card_fileField card = card_fileField card0
      /\ card_removeButton card = card_removeButton card0.
Proof.
  induction cs as [| c cs IH]; intros k n card; destruct k; simpl;
    try (now destruct n).
  - destruct n as [| n]; simpl.
    + intros E. injection E as <-. exists c. now destruct i.
    + intros E. exists card. now repeat split.
  - destruct n as [| n]; simpl.
    + intros E. injection E as <-. exists c. now repeat split.
    + apply IH.
Qed.

(** The players loop of [init] and of [resetForm] gives the same five
    cards. *)
Lemma addPlayers_empty (e : option string) (shown : nat) (disabled : bool) :
  addPlayers MIN_PLAYERS (mkState 0 [] e shown disabled)
  = mkState 5 (map createPlayerCard (seq 1 5)) e 5 false.
Proof. reflexivity. Qed.

Lemma wellFormed_addPlayers_empty (e : option string) (shown : nat) (disabled : bool) :
  wellFormed (addPlayers MIN_PLAYERS (mkState 0 [] e shown disabled)).
Proof.
  rewrite addPlayers_empty. unfold wellFormed, MIN_PLAYERS, MAX_PLAYERS.
  cbn [playerCount cards countShown addDisabled].
  split; [reflexivity | split; [lia | split; [| split; [lia | reflexivity]]]].
  intros index card.
  do 5 (destruct index as [| index];
        [intros E; injection E as <-;
         split; [exact (canonical_createPlayerCard _) | split; [simpl; lia | reflexivity]]
        |]).
  now destruct index.
Qed.

Lemma wellFormed_addPlayer (st : State) : wellFormed st -> wellFormed (addPlayer st).
Proof.
  intros (Hlen & Hn & Hc & Hshown & Hdis). unfold addPlayer.
  destruct (MAX_PLAYERS <=? playerCount st)%nat eqn:E;
    [exact (conj Hlen (conj Hn (conj Hc (conj Hshown Hdis)))) |].
  apply Nat.leb_gt in E. unfold MIN_PLAYERS, MAX_PLAYERS in *.
  unfold wellFormed, updateDisplay, MIN_PLAYERS, MAX_PLAYERS.
  cbn [playerCount cards countShown addDisabled].
  split; [| split; [lia | split; [| split; [lia | reflexivity]]]].
  - rewrite length_app. simpl. lia.
  - intros index card Hi.
    destruct (Nat.lt_ge_cases index (List.length (cards st))) as [Hlt | Hge].
    + rewrite nth_error_app1 in Hi by exact Hlt. now apply Hc.
    + rewrite nth_error_app2 in Hi by exact Hge.
      destruct (index - List.length (cards st))%nat as [| m] eqn:Hd;
        [| now destruct m].
      simpl in Hi. injection Hi as <-.
      assert (index = playerCount st) as -> by lia.
      split; [| split; [simpl; lia | intros _; simpl; lia]].
      replace (card_number (createPlayerCard (S (playerCount st))) - 1)%nat
        with (playerCount st) by (simpl; lia).
      apply canonical_createPlayerCard.
Qed.

(** A card that shows a remove button stands behind the first five. *)
Lemma button_position (st : State) (k : nat) (card : Card) :
  wellFormed st ->
  nth_error (cards st) k = Some card -> card_removeButton card = true ->
  (MIN_PLAYERS <= k < playerCount st)%nat.
Proof.
  intros (Hlen & _ & Hc & _) Hk Hb.
  destruct (Hc k card Hk) as ((_ & _ & _ & _ & Hbutton) & Hnum & Hfirst).
  rewrite Hb in Hbutton. symmetry in Hbutton. apply Nat.ltb_lt in Hbutton.
  unfold MIN_PLAYERS in *. split.
  - destruct (Nat.lt_ge_cases k 5) as [Hlt | Hge]; [| exact Hge].
    specialize (Hfirst Hlt). lia.
  - rewrite Hlen. apply nth_error_Some. congruence.
Qed.

(** The first card of a reachable page is numbered and named after
    position 0. *)
Lemma head_canonical (st : State) :
  wellFormed st ->
  exists head rest, cards st = head :: rest /\ canonical 0 head.
Proof.
  intros (Hlen & Hn & Hc & _). unfold MIN_PLAYERS in *.
  destruct (cards st) as [| head rest] eqn:E; [simpl in Hlen; lia |].
  exists head, rest. split; [reflexivity |].
  destruct (Hc 0%nat head eq_refl) as (Hcan & _ & Hfirst).
  rewrite (Hfirst ltac:(lia)) in Hcan. exact Hcan.
Qed.

(** What a click on a remove button does: the card goes, the counter is
    decremented, and nothing else changes - no card is renumbered, and
    the display and the add button keep showing the old count. *)
Lemma removePlayer_button (st : State) (k : nat) (card : Card) :
  wellFormed st ->
  nth_error (cards st) k = Some card -> card_removeButton card = true ->
  removePlayer k st
  = mkState (playerCount st - 1) (removeAt k (cards st)) (errorShown st)
            (countShown st) (addDisabled st).
Proof.
  intros Hwf Hk Hb.
  destruct (button_position st k card Hwf Hk Hb) as [Hk5 Hkn].
  destruct (head_canonical st Hwf) as (head & rest & Hcards & Hhead).
  unfold removePlayer, MIN_PLAYERS in *.
  destruct (playerCount st <=? 5)%nat eqn:E; [apply Nat.leb_le in E; lia |].
  rewrite Hk. rewrite Hcards.
  destruct k as [| k]; [lia |]. simpl.
  now rewrite (renumberCard_fixed 0 head Hhead).
Qed.

Lemma wellFormed_removed (st : State) (k : nat) :
  wellFormed st -> (MIN_PLAYERS <= k < playerCount st)%nat ->
  wellFormed (mkState (playerCount st - 1) (removeAt k (cards st)) (errorShown st)
                      (countShown st) (addDisabled st)).
Proof.
  intros (Hlen & Hn & Hc & Hshown & Hdis) Hk.
  unfold wellFormed, MIN_PLAYERS, MAX_PLAYERS in *.
  cbn [playerCount cards countShown addDisabled].
  split; [| split; [lia | split; [| split; [lia | exact Hdis]]]].
  - rewrite removeAt_length by lia. now rewrite Hlen.
  - intros index card Hi. rewrite removeAt_nth in Hi.
    destruct (index <? k)%nat eqn:E.
    + now apply Hc.
    + apply Nat.ltb_ge in E.
      destruct (Hc (S index) card Hi) as (Hcan & Hnum & _).
      split; [exact Hcan | split; [lia |]]. intros Hlt. lia.
Qed.

Lemma wellFormed_step (a : Action) (st : State) : wellFormed st -> wellFormed (step a st).
Proof.
  intros H. destruct a as [| k | | k i]; simpl.
  - destruct (addDisabled st); [exact H | now apply wellFormed_addPlayer].
  - destruct (nth_error (cards st) k) as [card |] eqn:Hk; [| exact H].
    destruct (card_removeButton card) eqn:Hb; [| exact H].
    rewrite (removePlayer_button st k card H Hk Hb).
    apply wellFormed_removed; [exact H |].
    exact (button_position st k card H Hk Hb).
  - apply wellFormed_addPlayers_empty.
  - destruct H as (Hlen & Hn & Hc & Hshown & Hdis).
    unfold wellFormed. cbn [playerCount cards countShown addDisabled].
    split; [now rewrite enterAt_length | split; [exact Hn | split; [| now split]]].
    intros index card Hi.
    destruct (enterAt_nth i (cards st) k index card Hi)
      as (card0 & H0 & Hnum & Hnf & Hdf & Hff & Hbt).
    destruct (Hc index card0 H0) as ((C1 & C2 & C3 & C4 & C5) & Hbounds & Hfirst).
    unfold canonical. rewrite Hnum, Hnf, Hdf, Hff, Hbt.
    now repeat split.
Qed.

Lemma wellFormed_run (actions : list Action) : wellFormed (run actions).
Proof.
  unfold run, init.
  assert (H : forall st, wellFormed st ->
                         wellFormed (fold_left (fun st a => step a st) actions st)).
  { induction actions as [| a actions IH]; intros st Hst; simpl; [exact Hst |].
    now apply IH, wellFormed_step. }
  apply H, wellFormed_addPlayers_empty.
Qed.

End FormInvariant.

(** X10.  Whatever the user does on the page - add a player, click a
    remove button, reset the form, fill in inputs - the counter of the
    script is the number of cards shown, and there are five to ten of
    them.  Every card is as it was created for its own number: it names
    its inputs [players[number - 1][...]] and shows a remove button
    exactly when its number is above five.  The number of a card is at
    least its position plus one and at most ten; the first five cards are
    numbered 1 to 5.  The count the page displays is at least the counter,
    and the add button is disabled exactly when the displayed count is
    ten. *)
Theorem form_page_invariant (actions : list Form.Action) :
  let st := Form.run actions in
  Form.playerCount st = List.length (Form.cards st)
  /\ (5 <= List.length (Form.cards st) <= 10)%nat
  /\ (forall index card,
        nth_error (Form.cards st) index = Some card ->
        canonical (Form.card_number card - 1) card
        /\ (index + 1 <= Form.card_number card <= 10)%nat
        /\ ((index < 5)%nat -> Form.card_number card = (index + 1)%nat))
  /\ (Form.playerCount st <= Form.countShown st <= 10)%nat
  /\ Form.addDisabled st = (10 <=? Form.countShown st)%nat.
Proof.
  intros st.
  destruct (wellFormed_run actions) as (Hlen & Hn & Hc & Hshown & Hdis).
  fold st in Hlen, Hn, Hc, Hshown, Hdis.
  split; [exact Hlen | split; [| split; [exact Hc | split; [exact Hshown | exact Hdis]]]].
  rewrite <- Hlen. exact Hn.
Qed.

Lemma truthy_nonempty (s : string) : Js.truthy s = true -> s <> "".
Proof.
  unfold Js.truthy. intros H E. subst s. discriminate.
Qed.

(** X11.  The form is posted only with five to ten player cards, each
    with a name that is not blank, a date of birth and a chosen file; the
    file input of a card is named after the number of the card,
    [players[number - 1][idPhoto]]. *)
Theorem form_posts_only_filled_rosters (actions : list Form.Action) :
  Form.handleFormSubmit (Form.run actions) = Form.Posted ->
  let cs := Form.cards (Form.run actions) in
  (5 <= List.length cs <= 10)%nat
  /\ forall card,
      In card cs ->
      filled card /\ Form.card_fileField card = idPhotoField (Form.card_number card - 1).
Proof.
  intros Hpost cs.
  destruct (wellFormed_run actions) as (Hlen & Hn & Hc & _).
  split; [subst cs; rewrite <- Hlen; exact Hn |].
  intros card Hin. split.
  - unfold Form.handleFormSubmit in Hpost.
    destruct (Form.playerCount (Form.run actions) <? Form.MIN_PLAYERS)%nat;
      [discriminate |].
    destruct (Form.validatePlayerFields (Form.run actions)) eqn:Hv; [| discriminate].
    unfold Form.validatePlayerFields in Hv. rewrite forallb_forall in Hv.
    specialize (Hv card Hin).
    apply andb_true_iff in Hv. destruct Hv as [Hv Hfile].
    apply andb_true_iff in Hv. destruct Hv as [Hname Hdob].
    split; [now apply truthy_nonempty | split; [now apply truthy_nonempty | exact Hfile]].
  - apply In_nth_error in Hin. destruct Hin as [index Hi].
    now destruct (Hc index card Hi) as ((_ & _ & _ & Hfield & _) & _).
Qed.

Lemma form_posts_only_filled_rosters_witness :
  let cs := Form.cards (Form.run fillFive) in
  (5 <= List.length cs <= 10)%nat
  /\ forall card,
      In card cs ->
      filled card /\ Form.card_fileField card = idPhotoField (Form.card_number card - 1).
Proof.
  apply (form_posts_only_filled_rosters fillFive). vm_compute. reflexivity.
Defined.

(** X12.  A click on the remove button of a card takes the card away
    and decrements the counter, and changes nothing else: no card is
    renumbered or renamed ([renumberPlayers] throws on the first card,
    which it leaves as it was), and the display and the add button are
    not updated.  So the page shows a count above the number of cards,
    and when the card was removed from a page of ten, the add button
    stays disabled: a click on it adds no player. *)
Theorem form_removal_renumbers_nothing (actions : list Form.Action) (k : nat)
    (card : Form.Card) :
  let st := Form.run actions in
  nth_error (Form.cards st) k = Some card ->
  Form.card_removeButton card = true ->
  let st' := Form.step (Form.ClickRemove k) st in
  st' = Form.mkState (Form.playerCount st - 1) (Form.removeAt k (Form.cards st))
          (Form.errorShown st) (Form.countShown st) (Form.addDisabled st)
  /\ List.length (Form.cards st') = (List.length (Form.cards st) - 1)%nat
  /\ (Form.playerCount st' < Form.countShown st')%nat
  /\ (Form.playerCount st = Form.MAX_PLAYERS ->
      Form.step Form.ClickAdd st' = st').
Proof.
  intros st Hk Hb st'.
  pose proof (wellFormed_run actions) as Hwf. fold st in Hwf.
  destruct (button_position st k card Hwf Hk Hb) as [Hk5 Hkn].
  assert (Hst' : st' = Form.mkState (Form.playerCount st - 1)
                         (Form.removeAt k (Form.cards st)) (Form.errorShown st)
                         (Form.countShown st) (Form.addDisabled st)).
  { subst st'. simpl. rewrite Hk, Hb. now apply (removePlayer_button st k card). }
  destruct Hwf as (Hlen & Hn & _ & Hshown & Hdis).
  unfold Form.MIN_PLAYERS, Form.MAX_PLAYERS in *.
  split; [exact Hst' |]. rewrite Hst'. cbn [Form.playerCount Form.cards Form.countShown].
  split; [apply removeAt_length; lia | split; [lia |]].
  intros Hten. simpl. rewrite Hdis.
  replace (10 <=? Form.countShown st)%nat with true; [reflexivity |].
  symmetry. apply Nat.leb_le. lia.
Qed.

Lemma form_removal_renumbers_nothing_witness :
  let st := Form.run [Form.ClickAdd; Form.ClickAdd] in
  let st' := Form.step (Form.ClickRemove 5) st in
  map Form.card_number (Form.cards st') = [1; 2; 3; 4; 5; 7]%nat
  /\ Form.playerCount st' = 6%nat
  /\ Form.countShown st' = 7%nat.
Proof.
  intros st st'.
  destruct (form_removal_renumbers_nothing [Form.ClickAdd; Form.ClickAdd] 5
              (Form.createPlayerCard 6) eq_refl eq_refl) as (Heq & _).
  fold st st' in Heq. rewrite Heq. repeat split.
Defined.

(** X13.  On a page whose cards are numbered in sequence, removing a
    card that is not the last one leaves a hole in the field names: no
    card of the page names its inputs [players[k][...]] any more, while
    the card that took the position [k] still names them
    [players[k + 1][...]].  Nothing blocks the submission of such a page:
    when every card was filled in before the removal, the form is
    posted. *)
Theorem form_removal_leaves_a_hole (actions : list Form.Action) (k : nat) :
  let st := Form.run actions in
  inSequence st ->
  (5 <= k)%nat -> (k + 1 < Form.playerCount st)%nat ->
  let st' := Form.step (Form.ClickRemove k) st in
  (forall card, In card (Form.cards st') ->
                Form.card_nameField card <> Form.nameFieldOf k
                /\ Form.card_fileField card <> idPhotoField k)
  /\ (exists card, nth_error (Form.cards st') k = Some card
                   /\ Form.card_nameField card = Form.nameFieldOf (k + 1)
                   /\ Form.card_fileField card = idPhotoField (k + 1))
  /\ (Form.validatePlayerFields st = true -> Form.handleFormSubmit st' = Form.Posted).
Proof.
  intros st Hseq Hk5 Hklast st'.
  pose proof (wellFormed_run actions) as Hwf. fold st in Hwf.
  assert (Hnames : forall j card,
             nth_error (Form.cards st) j = Some card ->
             Form.card_nameField card = Form.nameFieldOf j
             /\ Form.card_fileField card = idPhotoField j
             /\ Form.card_removeButton card = (5 <? j + 1)%nat).
  { intros j card Hj.
    destruct Hwf as (_ & _ & Hc & _).
    destruct (Hc j card Hj) as ((_ & Hnf & _ & Hff & Hbt) & _).
    rewrite (Hseq j card Hj) in Hnf, Hff, Hbt.
    replace (j + 1 - 1)%nat with j in * by lia. now repeat split. }
  assert (Hlen : Form.playerCount st = List.length (Form.cards st)) by apply Hwf.
  destruct (nth_error (Form.cards st) k) as [ck |] eqn:Hck.
  2: { apply nth_error_None in Hck. lia. }
  assert (Hbutton : Form.card_removeButton ck = true).
  { destruct (Hnames k ck Hck) as (_ & _ & ->). apply Nat.ltb_lt. lia. }
  assert (Hst' : st' = Form.mkState (Form.playerCount st - 1)
                         (Form.removeAt k (Form.cards st)) (Form.errorShown st)
                         (Form.countShown st) (Form.addDisabled st)).
  { subst st'. simpl. rewrite Hck, Hbutton. now apply (removePlayer_button st k ck). }
  rewrite Hst'. cbn [Form.cards].
  split; [| split].
  - intros card Hin. destruct (removeAt_In _ _ _ Hin) as (j & Hjk & Hj).
    destruct (Hnames j card Hj) as (-> & -> & _).
    split; intros E; [apply nameFieldOf_inj in E | apply idPhotoField_inj in E];
      contradiction.
  - destruct (nth_error (Form.cards st) (S k)) as [next |] eqn:Hnext.
    2: { apply nth_error_None in Hnext. lia. }
    exists next. rewrite removeAt_nth, Nat.ltb_irrefl.
    destruct (Hnames (S k) next Hnext) as (Hnf & Hff & _).
    rewrite Nat.add_1_r. now repeat split.
  - intros Hvalid. unfold Form.handleFormSubmit. cbn [Form.playerCount].
    unfold Form.MIN_PLAYERS.
    destruct (Form.playerCount st - 1 <? 5)%nat eqn:E; [apply Nat.ltb_lt in E; lia |].
    replace (Form.validatePlayerFields _) with true; [reflexivity |].
    symmetry. unfold Form.validatePlayerFields in *. cbn [Form.cards].
    rewrite forallb_forall in *. intros card Hin.
    destruct (removeAt_In _ _ _ Hin) as (j & _ & Hj).
    apply Hvalid. now apply (nth_error_In _ j).
Qed.

Lemma form_removal_leaves_a_hole_witness :
  let st' := Form.step (Form.ClickRemove 5) (Form.run [Form.ClickAdd; Form.ClickAdd]) in
  exists card, nth_error (Form.cards st') 5 = Some card
               /\ Form.card_nameField card = "players[6][playerName]"
               /\ Form.card_fileField card = "players[6][idPhoto]".
Proof.
  intros st'.
  destruct (form_removal_leaves_a_hole [Form.ClickAdd; Form.ClickAdd] 5)
    as (_ & Hhole & _).
  - intros index card.
    do 7 (destruct index as [| index]; [intros E; injection E as <-; reflexivity |]).
    destruct index; discriminate.
  - lia.
  - vm_compute. lia.
  - exact Hhole.
Defined.

(** ** Phone numbers as the forms lay them out *)

Lemma filter_digits_fixed (l : list ascii) :
  Forall (fun c => Multer.isDigit c = true) l -> filter Multer.isDigit l = l.
Proof.
  induction 1 as [| c l Hc _ IH]; simpl; [reflexivity |]. now rewrite Hc, IH.
Qed.

Lemma digitsOf_digits (value : string) :
  Forall (fun c => Multer.isDigit c = true) (Form.digitsOf value).
Proof.
  unfold Form.digitsOf. apply Forall_forall. intros c Hc.
  now apply filter_In in Hc.
Qed.

Lemma Forall_firstn_skipn {A : Type} (P : A -> Prop) (l : list A) :
  Forall P l -> forall n, Forall P (firstn n l) /\ Forall P (skipn n l).
Proof.
  induction 1 as [| x l Hx Hl IH]; intros n.
  - rewrite firstn_nil, skipn_nil. now split.
  - destruct n as [| n]; simpl.
    + split; [constructor | now constructor].
    + destruct (IH n) as [Hf Hs]. split; [now constructor | exact Hs].
Qed.

Lemma formatDigits_digits (d : list ascii) :
  Forall (fun c => Multer.isDigit c = true) d ->
  filter Multer.isDigit (Form.formatDigits d) = firstn 10 d.
Proof.
  intros Hd. unfold Form.formatDigits.
  assert (Hf : forall n, filter Multer.isDigit (firstn n d) = firstn n d).
  { intros n. apply filter_digits_fixed, (Forall_firstn_skipn _ d Hd n). }
  assert (Hs : forall n m, filter Multer.isDigit (firstn m (skipn n d))
                           = firstn m (skipn n d)).
  { intros n m. apply filter_digits_fixed.
    apply (Forall_firstn_skipn _ (skipn n d)), (Forall_firstn_skipn _ d Hd n). }
  assert (Hs' : forall n, filter Multer.isDigit (skipn n d) = skipn n d).
  { intros n. apply filter_digits_fixed, (Forall_firstn_skipn _ d Hd n). }
  remember (firstn 10 d) as ten eqn:Hten.
  destruct (List.length d =? 0)%nat eqn:E0.
  { apply Nat.eqb_eq in E0. subst ten. destruct d; [reflexivity | discriminate]. }
  assert (Hopen : Multer.isDigit "(" = false) by reflexivity.
  assert (Hclose : Multer.isDigit ")" = false) by reflexivity.
  assert (Hspace : Multer.isDigit " " = false) by reflexivity.
  assert (Hdash : Multer.isDigit "-" = false) by reflexivity.
  destruct (List.length d <=? 3)%nat eqn:E3.
  { apply Nat.leb_le in E3. cbn [filter]. rewrite Hopen, filter_digits_fixed by exact Hd.
    subst ten. symmetry. apply firstn_all2. lia. }
  destruct (List.length d <=? 6)%nat eqn:E6.
  { apply Nat.leb_le in E6. cbn [filter]. rewrite Hopen, filter_app. cbn [filter].
    rewrite Hclose, Hspace, Hf, Hs', firstn_skipn.
    subst ten. symmetry. apply firstn_all2. lia. }
  cbn [filter]. rewrite Hopen, filter_app. cbn [filter].
  rewrite Hclose, Hspace, filter_app. cbn [filter]. rewrite Hdash, Hf, !Hs. subst ten.
  clear. do 10 (destruct d as [| ? d]; [reflexivity |]). reflexivity.
Qed.

Lemma formatDigits_firstn (d : list ascii) :
  Form.formatDigits (firstn 10 d) = Form.formatDigits d.
Proof.
  do 11 (destruct d as [| ? d]; [reflexivity |]). reflexivity.
Qed.

Lemma formatDigits_length (d : list ascii) :
  (List.length (Form.formatDigits d) <= 14)%nat.
Proof.
  do 11 (destruct d as [| ? d]; [simpl; lia |]). simpl. lia.
Qed.

Lemma string_of_list_ascii_length (l : list ascii) :
  String.length (string_of_list_ascii l) = List.length l.
Proof. induction l as [| c l IH]; simpl; [reflexivity | now rewrite IH]. Qed.

(** X14.  The phone inputs of the forms keep the first ten digits typed
    and nothing else of the value: the digits of the formatted value are
    the first ten digits of the input, in order.  Formatting a formatted
    value changes nothing, and a formatted value has at most 14
    characters. *)
Theorem phone_formatting_keeps_ten_digits (value : string) :
  Form.digitsOf (Form.formatPhone value) = firstn 10 (Form.digitsOf value)
  /\ Form.formatPhone (Form.formatPhone value) = Form.formatPhone value
  /\ (String.length (Form.formatPhone value) <= 14)%nat.
Proof.
  assert (Hd : Form.digitsOf (Form.formatPhone value) = firstn 10 (Form.digitsOf value)).
  { unfold Form.formatPhone. unfold Form.digitsOf at 1.
    rewrite list_ascii_of_string_of_list_ascii.
    apply formatDigits_digits, digitsOf_digits. }
  split; [exact Hd | split].
  - unfold Form.formatPhone at 1. rewrite Hd, formatDigits_firstn. reflexivity.
  - unfold Form.formatPhone. rewrite string_of_list_ascii_length.
    apply formatDigits_length.
Qed.

(** ** The folders of the Cloudinary uploads *)

Lemma allChars_app (p : ascii -> bool) (s t : string) :
  allChars p (s ++ t) = allChars p s && allChars p t.
Proof.
  induction s as [| c s IH]; simpl; [reflexivity |]. now rewrite IH, andb_assoc.
Qed.

Lemma allChars_weaken (p q : ascii -> bool) (s : string) :
  (forall c, p c = true -> q c = true) -> allChars p s = true -> allChars q s = true.
Proof.
  intros Hpq. induction s as [| c s IH]; simpl; [reflexivity |].
  intros H. apply andb_true_iff in H. destruct H as [Hc Hs].
  now rewrite (Hpq c Hc), IH.
Qed.

Lemma replaceNonAlnum_safe (s : string) :
  allChars isFolderSafe (Js.replaceNonAlnum s) = true.
Proof.
  induction s as [| c s IH]; simpl; [reflexivity |]. rewrite IH, andb_true_r.
  unfold isFolderSafe. destruct (Js.isAlnum c) eqn:E; [now rewrite E | reflexivity].
Qed.

(** X15.  The sanitizer of the folder names replaces character by
    character: its result has the length of its input and holds only
    letters, digits and underscores.  So the last segment of the folder
    a player's photo is uploaded to, made of the player's name and
    number, holds no other character, whatever the name. *)
Theorem player_folder_is_sanitized (name folder : string) (playerIndex : nat) :
  String.length (Js.replaceNonAlnum name) = String.length name
  /\ allChars isFolderSafe (Js.replaceNonAlnum name) = true
  /\ exists segment,
      Cloud.playerFolder folder name playerIndex
      = "alhuda_spark/" ++ folder ++ "/" ++ segment
      /\ allChars isFolderSafe segment = true.
Proof.
  split; [| split].
  - induction name as [| c s IH]; simpl; [reflexivity | now rewrite IH].
  - apply replaceNonAlnum_safe.
  - exists (Js.replaceNonAlnum name ++ "_" ++ Js.ofNat (playerIndex + 1)).
    split; [reflexivity |].
    rewrite !allChars_app, replaceNonAlnum_safe. simpl.
    apply (allChars_weaken Multer.isDigit); [| apply ofNat_digits].
    intros c Hc. unfold isFolderSafe, Js.isAlnum. unfold Multer.isDigit in Hc.
    now rewrite Hc.
Qed.

(** ** What the response depends on *)

Lemma cloud_playersLoop_frame (env : Env) (files : list File) (requireIds : bool)
    (folder : string) :
  forall rest i players imgs w w2,
    match Cloud.playersLoop env files requireIds folder rest i players imgs w,
          Cloud.playersLoop env files requireIds folder rest i players imgs w2 with
    | EarlyReturn _ e, EarlyReturn _ e2 => e = e2
    | LoopDone _ ps im, LoopDone _ ps2 im2 => ps = ps2 /\ im = im2
    | _, _ => False
    end.
Proof.
  induction rest as [| [raw |] rest IH]; intros i players imgs w w2; simpl;
    try (now split).
  destruct (Js.truthy (raw_playerName raw)); [| reflexivity].
  destruct (raw_dateOfBirth raw) as [dob |]; [| reflexivity].
  destruct (findPlayerFile files i) as [file |].
  - destruct (uploadImageToCloudinary env (buffer file) _) as [res |];
      [apply IH | reflexivity].
  - destruct requireIds; [reflexivity | apply IH].
Qed.

Lemma cloud_processPlayers_frame (env : Env) (body : Body) (files : list File)
    (id : string) (w w2 : World) :
  snd (Cloud.processPlayersDataWithCloudinary env body files id w)
  = snd (Cloud.processPlayersDataWithCloudinary env body files id w2).
Proof.
  unfold Cloud.processPlayersDataWithCloudinary, Cloud.rosterLoop.
  destruct (body_players body) as [all |]; [| reflexivity].
  match goal with
  | |- context [Cloud.playersLoop ?e ?f ?r ?d ?a ?i ?ps ?im w] =>
      pose proof (cloud_playersLoop_frame e f r d a i ps im w w2) as H;
      destruct (Cloud.playersLoop e f r d a i ps im w) as [w1 e1 | w1 ps1 im1],
               (Cloud.playersLoop e f r d a i ps im w2) as [w1' e2 | w1' ps2 im2]
  end; try contradiction.
  - simpl. now subst.
  - destruct H as [-> ->]. unfold Cloud.validateCount.
    destruct (List.length ps2 <? 5)%nat; [reflexivity |].
    now destruct (10 <? List.length ps2)%nat.
Qed.

Lemma disk_playersLoop_frame (files : list File) :
  forall rest i players w w2,
    match Disk.playersLoop files rest i players w,
          Disk.playersLoop files rest i players w2 with
    | EarlyReturn _ e, EarlyReturn _ e2 => e = e2
    | LoopDone _ ps im, LoopDone _ ps2 im2 => ps = ps2 /\ im = im2
    | _, _ => False
    end.
Proof.
  induction rest as [| [raw |] rest IH]; intros i players w w2; simpl;
    try (now split).
  destruct (Js.truthy (raw_playerName raw)); [| reflexivity].
  destruct (raw_dateOfBirth raw) as [dob |]; [| reflexivity].
  destruct (findPlayerFile files i) as [file |]; [apply IH | reflexivity].
Qed.

Lemma disk_processPlayers_frame (env : Env) (body : Body) (files : list File)
    (w w2 : World) :
  snd (Disk.processPlayersData env body files w)
  = snd (Disk.processPlayersData env body files w2).
Proof.
  unfold Disk.processPlayersData, Disk.rosterLoop.
  destruct (body_players body) as [all |]; [| reflexivity].
  pose proof (disk_playersLoop_frame files all 0%nat [] w w2) as H.
  destruct (Disk.playersLoop files all 0 [] w) as [w1 e1 | w1 ps1 im1],
           (Disk.playersLoop files all 0 [] w2) as [w1' e2 | w1' ps2 im2];
    try contradiction.
  - simpl. now subst.
  - destruct H as [-> ->]. unfold Disk.validateCount.
    destruct (List.length ps2 <? 5)%nat; [reflexivity |].
    now destruct (10 <? List.length ps2)%nat.
Qed.

Lemma processPlayers_frame (c : Controller) (env : Env) (w w2 : World) (req : Request) :
  snd (processPlayersOf c env w req) = snd (processPlayersOf c env w2 req).
Proof.
  destruct c; [apply cloud_processPlayers_frame | apply disk_processPlayers_frame].
Qed.

(** X16.  In both controllers the response to a submission depends on
    the world only through the teams of the repository: the content of
    the upload store and the effects logged so far have no say in it.
    In particular, in the file-based controller, a photo that cannot be
    moved to the team's folder does not change the answer. *)
Theorem response_depends_on_repository_only (c : Controller) (env : Env) (w w2 : World)
    (req : Request) :
  teams w = teams w2 ->
  snd (registerTeamOf c env w req) = snd (registerTeamOf c env w2 req).
Proof.
  intros Ht.
  pose proof (processPlayers_frame c env w w2 req) as Hp.
  assert (Hdup : duplicateOf w req = duplicateOf w2 req)
    by (unfold duplicateOf, TeamModel.findOne; now rewrite Ht).
  destruct (processPlayersOf c env w req) as [w1 pd] eqn:E1.
  destruct (processPlayersOf c env w2 req) as [w1' pd'] eqn:E2.
  simpl in Hp. subst pd'.
  destruct c; simpl in E1, E2 |- *.
  - unfold Cloud.registerTeam.
    destruct (missingRequired (req_body req)); [reflexivity |].
    destruct (validEmergencyContact (req_body req)) as [ec |]; [| reflexivity].
    rewrite E1, E2. destruct pd as [ps imgs | e]; [| reflexivity].
    destruct (findOneOk env); cbn [negb]; [| reflexivity].
    rewrite (findOne_after_roster Cloudinary env w req w1 ps imgs E1).
    rewrite (findOne_after_roster Cloudinary env w2 req w1' ps imgs E2).
    rewrite <- Hdup. destruct (duplicateOf w req); [reflexivity |].
    destruct (TeamModel.validatePlayerAgesForTier env _); cbn [negb]; [| reflexivity].
    destruct (saveOk env _); reflexivity.
  - unfold Disk.registerTeam.
    destruct (missingRequired (req_body req)); [reflexivity |].
    destruct (validEmergencyContact (req_body req)) as [ec |]; [| reflexivity].
    rewrite E1, E2. destruct pd as [ps imgs | e]; [| reflexivity].
    destruct (findOneOk env); cbn [negb]; [| reflexivity].
    rewrite (findOne_after_roster FileSystem env w req w1 ps imgs E1).
    rewrite (findOne_after_roster FileSystem env w2 req w1' ps imgs E2).
    rewrite <- Hdup. destruct (duplicateOf w req); [reflexivity |].
    destruct (TeamModel.validatePlayerAgesForTier env _); cbn [negb]; [| reflexivity].
    destruct (saveOk env _); cbn [negb]; [| reflexivity].
    cbv zeta.
    match goal with
    | |- context [Disk.updateFilePathsWithTeamId env ?t (TeamModel.save ?t (emit Queried w1))] =>
        destruct (disk_updateFilePaths_fields env t (TeamModel.save t (emit Queried w1)))
          as [ps1 H1];
        destruct (disk_updateFilePaths_fields env t (TeamModel.save t (emit Queried w1')))
          as [ps2 H2];
        destruct (Disk.updateFilePathsWithTeamId env t (TeamModel.save t (emit Queried w1)))
          as [w4 team1];
        destruct (Disk.updateFilePathsWithTeamId env t (TeamModel.save t (emit Queried w1')))
          as [w4' team2]
    end.
    simpl in H1, H2. subst team1 team2. cbn [snd]. f_equal.
Qed.

Lemma response_depends_on_repository_only_witness :
  snd (registerTeamOf FileSystem Sample.env Sample.empty Sample.valid)
  = snd (registerTeamOf FileSystem Sample.env Sample.onDisk Sample.valid).
Proof.
  apply (response_depends_on_repository_only FileSystem Sample.env Sample.empty
           Sample.onDisk Sample.valid).
  reflexivity.
Defined.

(** ** Where the two controllers agree *)

Section Agreement.

Variable env : Env.
Hypothesis uploads_go_through :
  forall buffer folder, uploadImageToCloudinary env buffer folder <> None.

Lemma playersLoop_agree (files : list File) (folder : string) :
  forall rest i psC psD imgs wC wD,
    map nameAndBirth psC = map nameAndBirth psD ->
    match Cloud.playersLoop env files true folder rest i psC imgs wC,
          Disk.playersLoop files rest i psD wD with
    | EarlyReturn _ e, EarlyReturn _ e' => e = e'
    | LoopDone _ ps _, LoopDone _ ps' _ => map nameAndBirth ps = map nameAndBirth ps'
    | _, _ => False
    end.
Proof.
  induction rest as [| [raw |] rest IH]; intros i psC psD imgs wC wD Hps; simpl;
    try exact Hps.
  destruct (Js.truthy (raw_playerName raw)); [| reflexivity].
  destruct (raw_dateOfBirth raw) as [dob |]; [| reflexivity].
  destruct (findPlayerFile files i) as [file |]; [| reflexivity].
  destruct (uploadImageToCloudinary env (buffer file) _) as [res |] eqn:Hup;
    [| now apply uploads_go_through in Hup].
  apply IH. rewrite !map_app, Hps. reflexivity.
Qed.

Lemma processPlayers_agree (body : Body) (files : list File) (id : string) (w : World) :
  body_tier body = "high_school" ->
  match snd (Cloud.processPlayersDataWithCloudinary env body files id w),
        snd (Disk.processPlayersData env body files w) with
  | PlayersFail e, PlayersFail e' => e = e'
  | PlayersOk ps _, PlayersOk ps' _ => map nameAndBirth ps = map nameAndBirth ps'
  | _, _ => False
  end.
Proof.
  intros Htier.
  unfold Cloud.processPlayersDataWithCloudinary, Cloud.rosterLoop,
    Disk.processPlayersData, Disk.rosterLoop.
  rewrite Htier. change ("high_school" =? "high_school")%string with true.
  destruct (body_players body) as [all |]; [| reflexivity].
  match goal with
  | |- context [Cloud.playersLoop env files true ?d all 0 [] [] w] =>
      pose proof (playersLoop_agree files d all 0%nat [] [] [] w w eq_refl) as H;
      destruct (Cloud.playersLoop env files true d all 0 [] [] w)
        as [w1 e1 | w1 ps1 im1]
  end;
    destruct (Disk.playersLoop files all 0 [] w) as [w1' e2 | w1' ps2 im2];
    try contradiction; [exact H |].
  unfold Cloud.validateCount, Disk.validateCount.
  assert (Hlen : List.length ps1 = List.length ps2).
  { apply (f_equal (@List.length _)) in H. now rewrite !length_map in H. }
  rewrite Hlen.
  destruct (List.length ps2 <? 5)%nat; [reflexivity |].
  destruct (10 <? List.length ps2)%nat; [reflexivity | exact H].
Qed.

Lemma validate_agree (b : Body) (ec : EmergencyContact) (id : string)
    (ps ps' : list Player) :
  map nameAndBirth ps = map nameAndBirth ps' ->
  TeamModel.validatePlayerAgesForTier env
    (TeamModel.calculatePlayerAges env (newTeam env b ec id ps))
  = TeamModel.validatePlayerAgesForTier env
      (TeamModel.calculatePlayerAges env (newTeam env b ec id ps')).
Proof.
  intros H. unfold TeamModel.validatePlayerAgesForTier. simpl.
  assert (Hages : forall l,
             map ageAtRegistration
               (map (fun p => mkPlayer (playerName p) (dateOfBirth p) (idPhotoUrl p)
                                (idPhotoPublicId p) (idPhotoOriginalName p)
                                (TeamModel.age (dateOfBirth p) (now env))) l)
             = map (fun d => TeamModel.age d (now env)) (map snd (map nameAndBirth l))).
  { intros l. rewrite !map_map. reflexivity. }
  assert (Hall : forall policy (l : list Player),
             forallb (fun pl => TeamModel.inRange policy (ageAtRegistration pl)) l
             = forallb (TeamModel.inRange policy) (map ageAtRegistration l)).
  { intros policy l. induction l as [| p l IH]; simpl; [reflexivity | now rewrite IH]. }
  destruct (tierPolicy env (body_tier b)) as [policy |].
  - now rewrite !Hall, !Hages, H.
  - now rewrite !Hages, H.
Qed.

End Agreement.

(** X17.  For the tier "high_school", where both controllers require a
    photo of every player, the two handlers give the same response to the
    same submission, as long as the uploads to Cloudinary go through and
    the repository treats the two teams alike on save: the same error, or
    success with the same team id and payment instructions.  The text of
    a roster error is the same in both as well, but for the roster of
    fewer than five players, which the two controllers word
    differently. *)
Theorem controllers_agree_on_high_school (env : Env) (w : World) (req : Request) :
  body_tier (req_body req) = "high_school" ->
  (forall buffer folder, uploadImageToCloudinary env buffer folder <> None) ->
  (forall t t', saveOk env t = saveOk env t') ->
  snd (Cloud.registerTeam env w req) = snd (Disk.registerTeam env w req)
  /\ (forall e, e <> MinPlayers ->
                Cloud.playersErrorMessage e = Disk.playersErrorMessage e)
  /\ Cloud.playersErrorMessage MinPlayers <> Disk.playersErrorMessage MinPlayers.
Proof.
  intros Htier Hup Hsave.
  split; [| split; [intros [] He; try reflexivity; now contradiction He | discriminate]].
  pose proof (processPlayers_agree env Hup (req_body req) (req_files req)
                (generateTeamId env) w Htier) as Hp.
  unfold Cloud.registerTeam, Disk.registerTeam.
  destruct (missingRequired (req_body req)); [reflexivity |].
  destruct (validEmergencyContact (req_body req)) as [ec |]; [| reflexivity].
  destruct (Cloud.processPlayersDataWithCloudinary _ _ _ _ _) as [wC pdC] eqn:EC.
  destruct (Disk.processPlayersData _ _ _ _) as [wD pdD] eqn:ED.
  simpl in Hp.
  destruct pdC as [psC imgsC | eC], pdD as [psD imgsD | eD]; try contradiction;
    [| now subst].
  destruct (findOneOk env); cbn [negb]; [| reflexivity].
  rewrite (findOne_after_roster Cloudinary env w req wC psC imgsC EC).
  rewrite (findOne_after_roster FileSystem env w req wD psD imgsD ED).
  destruct (duplicateOf w req); [reflexivity |].
  rewrite (validate_agree env (req_body req) ec (generateTeamId env) psC psD Hp).
  destruct (TeamModel.validatePlayerAgesForTier env _); cbn [negb]; [| reflexivity].
  rewrite (Hsave (TeamModel.calculatePlayerAges env
                    (newTeam env (req_body req) ec (generateTeamId env) psC))
                 (TeamModel.calculatePlayerAges env
                    (newTeam env (req_body req) ec (generateTeamId env) psD))).
  destruct (saveOk env _); cbn [negb]; [| reflexivity].
  cbv zeta.
  match goal with
  | |- context [Disk.updateFilePathsWithTeamId env ?t ?w3] =>
      destruct (disk_updateFilePaths_fields env t w3) as [ps' Hf];
      destruct (Disk.updateFilePathsWithTeamId env t w3) as [w4 team']
  end.
  simpl in Hf. subst team'. reflexivity.
Qed.

Lemma controllers_agree_on_high_school_witness :
  snd (Cloud.registerTeam Sample.env Sample.onDisk
         (Sample.request "high_school" Sample.five Sample.photos5))
  = snd (Disk.registerTeam Sample.env Sample.onDisk
           (Sample.request "high_school" Sample.five Sample.photos5)).
Proof.
  apply (controllers_agree_on_high_school Sample.env Sample.onDisk
           (Sample.request "high_school" Sample.five Sample.photos5)).
  - reflexivity.
  - intros buffer folder. discriminate.
  - reflexivity.
Defined.

(** ** When every photo is moved *)

Lemma removeOne_other (ref x : string) (l : list string) :
  In x l -> x <> ref -> In x (removeOne ref l).
Proof.
  induction l as [| y l IH]; simpl; [contradiction |].
  intros [-> | Hin] Hne.
  - destruct (x =? ref)%string eqn:E; [apply String.eqb_eq in E; contradiction |].
    now left.
  - destruct (y =? ref)%string; [exact Hin | right; now apply IH].
Qed.

Lemma existsb_eqb_In (x : string) (l : list string) :
  In x l -> existsb (String.eqb x) l = true.
Proof.
  intros H. apply existsb_exists. exists x. split; [exact H | apply String.eqb_refl].
Qed.

Lemma disk_renameLoop_completes (env : Env) (id : string) :
  forall rest moved w,
    Forall (fun p => idPhotoUrl p <> None) rest ->
    NoDup (Disk.photoPaths rest) ->
    incl (Disk.photoPaths rest) (uploads w) ->
    exists w',
      Disk.renameLoop env id rest moved w
      = (w', (moved ++ map (movedToTeamFolder env id) rest)%list, true)
      /\ log w' = (log w ++ map (fun old => Renamed old (teamIdPath env id old))
                            (Disk.photoPaths rest))%list.
Proof.
  induction rest as [| p rest IH]; intros moved w Hall Hnd Hin; simpl.
  - exists w. now rewrite !app_nil_r.
  - inversion Hall as [| ? ? Hp Hrest]; subst.
    unfold movedToTeamFolder at 1.
    destruct (idPhotoUrl p) as [old |] eqn:Hurl; [| contradiction].
    simpl in Hnd, Hin. rewrite Hurl in Hnd, Hin. simpl in Hnd, Hin.
    inversion Hnd as [| ? ? Hnotin Hnd']; subst.
    rewrite (existsb_eqb_In old (uploads w)) by (apply Hin; now left).
    destruct (IH (moved ++ [Disk.withPhotoUrl p (teamIdPath env id old)])%list
                 (renameUpload old (teamIdPath env id old) w) Hrest Hnd')
      as (w' & Hloop & Hlog).
    { intros x Hx. simpl. right. apply removeOne_other.
      - apply Hin. now right.
      - intros ->. contradiction. }
    exists w'. rewrite Hloop, <- app_assoc. split; [reflexivity |].
    rewrite Hlog. simpl. now rewrite <- app_assoc.
Qed.

(** X18.  When every player of the team has a photo, the photos are
    distinct files and all of them are in the store, the loop of
    [updateFilePathsWithTeamId] runs to its end: it renames each photo,
    in the order of the roster, to its path in the team's folder, and
    the team it leaves has every player's photo path replaced by the new
    one and nothing else changed. *)
Theorem updateFilePaths_moves_every_photo (env : Env) (team : Team) (w : World) :
  Forall (fun p => idPhotoUrl p <> None) (players team) ->
  NoDup (Disk.photoPaths (players team)) ->
  incl (Disk.photoPaths (players team)) (uploads w) ->
  let (w', team') := Disk.updateFilePathsWithTeamId env team w in
  team' = Disk.withPlayers team
            (map (movedToTeamFolder env (teamId team)) (players team))
  /\ exists saved,
      log w' = (log w ++ map (fun old => Renamed old (teamIdPath env (teamId team) old))
                             (Disk.photoPaths (players team)) ++ saved)%list
      /\ (saved = [] \/ saved = [Saved (teamId team)]).
Proof.
  intros Hall Hnd Hin. unfold Disk.updateFilePathsWithTeamId.
  destruct (disk_renameLoop_completes env (teamId team) (players team) [] w Hall Hnd Hin)
    as (w1 & Hloop & Hlog).
  rewrite Hloop. simpl app.
  destruct (true && saveOk env _); (split; [reflexivity |]).
  - exists [Saved (teamId team)]. split; [| now right].
    simpl. now rewrite Hlog, <- app_assoc.
  - exists []. split; [| now left]. now rewrite app_nil_r.
Qed.

Lemma updateFilePaths_moves_every_photo_witness :
  let team := TeamModel.calculatePlayerAges Sample.env
                (newTeam Sample.env (req_body Sample.valid)
                   (mkEmergencyContact "Pat" "3175550101" "parent") "TEAM-ABC123"
                   (match snd (processPlayersOf FileSystem Sample.env Sample.onDisk
                                 Sample.valid) with
                    | PlayersOk ps _ => ps
                    | PlayersFail _ => []
                    end)) in
  map idPhotoUrl
      (players (snd (Disk.updateFilePathsWithTeamId Sample.env team Sample.onDisk)))
  = map (fun i => Some ("uploads/team-ids/TEAM-ABC123/player-" ++ Js.ofNat i ++ ".png"))
        (seq 0 5).
Proof.
  intros team.
  pose proof (updateFilePaths_moves_every_photo Sample.env team Sample.onDisk) as H.
  destruct (Disk.updateFilePathsWithTeamId Sample.env team Sample.onDisk) as [w' team'].
  destruct H as [-> _].
  - repeat constructor; discriminate.
  - repeat constructor; simpl; intuition discriminate.
  - intros x Hx. exact Hx.
  - reflexivity.
Defined.
